(** * TestAIgnite: enrichment and aggregation pipeline

    A shallow embedding of [scripts/ai/enrichResults.js] (candidate
    selection, insight validation, model fallback, fragment renaming) and of
    [getResults] in [scripts/report/renderHtmlReport.js] (fragment merge),
    with the properties of the specification stated over it.

    Conventions of the embedding.
    - JavaScript strings are Rocq strings.  The model is exact on ASCII
      text: [toLowerCase], the class [\s] and the class [[^a-z0-9]] are the
      ASCII ones, other bytes are carried unchanged.
    - JSON numbers are exact rationals ([Q]); counters of a report are
      integers ([Z]).
    - [JSON.parse] belongs to the runtime; it is modelled by an executable
      parser of the JSON grammar (RFC 8259).
    - An exception is a value of [result]: [Throw e]. *)

From Stdlib Require Import String Ascii List ZArith QArith Qminmax Lia Bool.
From stdpp Require Import gmap strings list fin_maps.

Open Scope string_scope.

(** ** Results of fallible code *)

Inductive error :=
| Error (msg : string)        (* [throw new Error(msg)] *)
| TypeError (msg : string)    (* raised by the runtime *)
| SyntaxError.                (* raised by [JSON.parse] *)

Inductive result (A : Type) :=
| Ok (a : A)
| Throw (e : error).
Arguments Ok {A} a.
Arguments Throw {A} e.

Definition is_ok {A} (r : result A) : bool :=
  match r with Ok _ => true | Throw _ => false end.

(** ** Strings *)

Module Str.

Definition dquote : ascii := "034"%char.
Definition LF : ascii := "010"%char.

(** [text_of s] is [s] with every apostrophe turned into a double quote:
    it lets JSON texts be written as plain literals. *)
Fixpoint text_of (s : string) : string :=
  match s with
  | "" => ""
  | String c r => String (if Ascii.eqb c "'" then dquote else c) (text_of r)
  end.

Definition is_upper (c : ascii) : bool :=
  let n := nat_of_ascii c in (65 <=? n)%nat && (n <=? 90)%nat.
Definition is_lower (c : ascii) : bool :=
  let n := nat_of_ascii c in (97 <=? n)%nat && (n <=? 122)%nat.
Definition is_digit (c : ascii) : bool :=
  let n := nat_of_ascii c in (48 <=? n)%nat && (n <=? 57)%nat.

Definition lower_char (c : ascii) : ascii :=
  if is_upper c then ascii_of_nat (nat_of_ascii c + 32) else c.

(** [s.toLowerCase()] *)
Fixpoint toLowerCase (s : string) : string :=
  match s with
  | "" => ""
  | String c r => String (lower_char c) (toLowerCase r)
  end.

(** [s.startsWith(p)] *)
Definition startsWith (s p : string) : bool := String.prefix p s.

(** [s.includes(sub)] *)
Fixpoint includes (s sub : string) : bool :=
  String.prefix sub s ||
  match s with
  | "" => false
  | String _ r => includes r sub
  end.

(** The class [\s] on ASCII: TAB, LF, VT, FF, CR and space. *)
Definition is_space (c : ascii) : bool :=
  let n := nat_of_ascii c in ((9 <=? n)%nat && (n <=? 13)%nat) || (n =? 32)%nat.

(** [s.replace(/\n/g, " ")] *)
Fixpoint replace_newlines (s : string) : string :=
  match s with
  | "" => ""
  | String c r => String (if Ascii.eqb c LF then " "%char else c) (replace_newlines r)
  end.

Fixpoint drop_spaces (s : string) : string :=
  match s with
  | String c r => if is_space c then drop_spaces r else s
  | "" => ""
  end.

(** [s.replace(/\s+/g, " ")]: every maximal run of white space becomes one
    space.  [in_run] tells that the previous character was white space. *)
Fixpoint collapse_spaces (in_run : bool) (s : string) : string :=
  match s with
  | "" => ""
  | String c r =>
      if is_space c
      then if in_run then collapse_spaces true r
           else String " " (collapse_spaces true r)
      else String c (collapse_spaces false r)
  end.

Fixpoint rev_string (s acc : string) : string :=
  match s with
  | "" => acc
  | String c r => rev_string r (String c acc)
  end.

(** [s.trim()] *)
Definition trim (s : string) : string :=
  rev_string (drop_spaces (rev_string (drop_spaces s) "")) "".

(** [s.split(" ")]: never empty, [("").split(" ")] is [[""]]. *)
Fixpoint split_space (s : string) : list string :=
  match s with
  | "" => [""]
  | String c r =>
      if Ascii.eqb c " " then "" :: split_space r
      else match split_space r with
           | w :: ws => String c w :: ws
           | [] => [String c ""]
           end
  end.

(** [l.join(sep)] *)
Fixpoint join (sep : string) (l : list string) : string :=
  match l with
  | [] => ""
  | [w] => w
  | w :: ws => w ++ sep ++ join sep ws
  end.

(** [l.slice(0, n)] *)
Definition slice0 {A} (n : nat) (l : list A) : list A := firstn n l.

(** The character [c] occurs in [s]. *)
Fixpoint occurs (c : ascii) (s : string) : bool :=
  match s with
  | "" => false
  | String a r => Ascii.eqb a c || occurs c r
  end.

(** [s.endsWith(suffix)] and removal of a suffix. *)
Definition endsWith (s suffix : string) : bool :=
  String.prefix (rev_string suffix "") (rev_string s "").

Definition drop_end (n : nat) (s : string) : string :=
  String.substring 0 (String.length s - n) s.

End Str.

(** ** JSON values and [JSON.parse] *)

#[warnings="-register-all"]
Inductive json :=
| JNull
| JBool (b : bool)
| JNum (q : Q)
| JStr (s : string)
| JArr (l : list json)
| JObj (members : list (string * json)).

Module Json.

Import Str.

(** A JavaScript value read from a property: [None] is [undefined]. *)
Definition value := option json.

(** Truthiness of a JavaScript value. *)
Definition truthy (v : value) : bool :=
  match v with
  | None | Some JNull => false
  | Some (JBool b) => b
  | Some (JNum q) => negb (Qnum q =? 0)%Z
  | Some (JStr s) => negb (String.eqb s "")
  | Some (JArr _) | Some (JObj _) => true
  end.

(** Own property of an object built by [JSON.parse]: the last member with
    that key wins. *)
Fixpoint lookup_last (k : string) (ms : list (string * json)) : value :=
  match ms with
  | [] => None
  | (k', v) :: rest =>
      match lookup_last k rest with
      | Some w => Some w
      | None => if String.eqb k k' then Some v else None
      end
  end.

(** [d.k] for a value [d] that is neither [null] nor [undefined]; none of
    the property names read by the pipeline is defined on the prototypes of
    numbers, strings, booleans or arrays. *)
Definition get (k : string) (d : json) : value :=
  match d with
  | JObj ms => lookup_last k ms
  | _ => None
  end.

(** *** The parser *)

Definition is_json_ws (c : ascii) : bool :=
  let n := nat_of_ascii c in
  (n =? 32)%nat || (n =? 9)%nat || (n =? 10)%nat || (n =? 13)%nat.

Fixpoint skip_ws (s : string) : string :=
  match s with
  | String c r => if is_json_ws c then skip_ws r else s
  | "" => ""
  end.

Definition digit_val (c : ascii) : Z := Z.of_nat (nat_of_ascii c - 48).

(** Reads a run of digits: accumulated value, number of digits, rest. *)
Fixpoint take_digits (s : string) (acc : Z) (n : nat) : Z * nat * string :=
  match s with
  | String c r =>
      if is_digit c then take_digits r (10 * acc + digit_val c)%Z (S n)
      else (acc, n, s)
  | "" => (acc, n, "")
  end.

Definition hex_val (c : ascii) : option nat :=
  let n := nat_of_ascii c in
  if is_digit c then Some (n - 48)
  else if (97 <=? n)%nat && (n <=? 102)%nat then Some (n - 87)
  else if (65 <=? n)%nat && (n <=? 70)%nat then Some (n - 55)
  else None.

(** The code unit of a [\uXXXX] escape, carried as UTF-8 bytes. *)
Definition utf8 (n : nat) (tail : string) : string :=
  if (n <? 128)%nat then String (ascii_of_nat n) tail
  else if (n <? 2048)%nat then
    String (ascii_of_nat (192 + n / 64))
      (String (ascii_of_nat (128 + n mod 64)) tail)
  else
    String (ascii_of_nat (224 + n / 4096))
      (String (ascii_of_nat (128 + (n / 64) mod 64))
         (String (ascii_of_nat (128 + n mod 64)) tail)).

Definition simple_escape (c : ascii) : option ascii :=
  if Ascii.eqb c dquote then Some dquote
  else if Ascii.eqb c "\" then Some "\"%char
  else if Ascii.eqb c "/" then Some "/"%char
  else if Ascii.eqb c "b" then Some "008"%char
  else if Ascii.eqb c "f" then Some "012"%char
  else if Ascii.eqb c "n" then Some "010"%char
  else if Ascii.eqb c "r" then Some "013"%char
  else if Ascii.eqb c "t" then Some "009"%char
  else None.

(** The characters of a string literal after its opening quote: the decoded
    string and what follows the closing quote. *)
Fixpoint parse_chars (s : string) : option (string * string) :=
  match s with
  | "" => None
  | String c r =>
      if Ascii.eqb c dquote then Some ("", r)
      else if Ascii.eqb c "\" then
        match r with
        | String "u" (String h1 (String h2 (String h3 (String h4 r')))) =>
            match hex_val h1, hex_val h2, hex_val h3, hex_val h4, parse_chars r' with
            | Some a, Some b, Some c', Some d, Some (str, rest) =>
                Some (utf8 (((a * 16 + b) * 16 + c') * 16 + d) str, rest)
            | _, _, _, _, _ => None
            end
        | String e r' =>
            match simple_escape e, parse_chars r' with
            | Some e', Some (str, rest) => Some (String e' str, rest)
            | _, _ => None
            end
        | "" => None
        end
      else if (nat_of_ascii c <? 32)%nat then None
      else match parse_chars r with
           | Some (str, rest) => Some (String c str, rest)
           | None => None
           end
  end.

(** [m * 10^e] as a rational. *)
Definition decimal (m e : Z) : Q :=
  if (0 <=? e)%Z then inject_Z (m * 10 ^ e)
  else Qmake m (Z.to_pos (10 ^ (- e))).

Definition parse_exponent (s : string) : option (Z * string) :=
  match s with
  | String c r =>
      if Ascii.eqb c "e" || Ascii.eqb c "E" then
        let '(neg, r1) :=
          match r with
          | String "-" r' => (true, r')
          | String "+" r' => (false, r')
          | _ => (false, r)
          end in
        match take_digits r1 0 0 with
        | (_, O, _) => None
        | (e, _, rest) => Some (if neg then (- e)%Z else e, rest)
        end
      else Some (0%Z, s)
  | "" => Some (0%Z, "")
  end.

Definition parse_fraction (s : string) : option (Z * nat * string) :=
  match s with
  | String "." r =>
      match take_digits r 0 0 with
      | (_, O, _) => None
      | (f, k, rest) => Some (f, k, rest)
      end
  | _ => Some (0%Z, O, s)
  end.

(** [-? int frac? exp?] *)
Definition parse_number (s : string) : option (json * string) :=
  let '(neg, s1) :=
    match s with
    | String "-" r => (true, r)
    | _ => (false, s)
    end in
  let int_part :=
    match s1 with
    | String "0" r => Some (0%Z, r)
    | String c _ => if is_digit c then
                      let '(i, _, rest) := take_digits s1 0 0 in Some (i, rest)
                    else None
    | "" => None
    end in
  match int_part with
  | None => None
  | Some (i, r1) =>
      match parse_fraction r1 with
      | None => None
      | Some (f, k, r2) =>
          match parse_exponent r2 with
          | None => None
          | Some (e, r3) =>
              let m := (i * 10 ^ Z.of_nat k + f)%Z in
              Some (JNum (decimal (if neg then (- m)%Z else m) (e - Z.of_nat k)), r3)
          end
      end
  end.

Definition parse_literal (s : string) : option (json * string) :=
  match s with
  | String "t" (String "r" (String "u" (String "e" r))) => Some (JBool true, r)
  | String "f" (String "a" (String "l" (String "s" (String "e" r)))) => Some (JBool false, r)
  | String "n" (String "u" (String "l" (String "l" r))) => Some (JNull, r)
  | _ => None
  end.

Fixpoint parse_value (fuel : nat) (s : string) : option (json * string) :=
  match fuel with
  | O => None
  | S fuel' =>
      match skip_ws s with
      | "" => None
      | String c r as s' =>
          if Ascii.eqb c "{" then
            match skip_ws r with
            | String "}" r' => Some (JObj [], r')
            | r1 => match parse_members fuel' r1 with
                    | Some (ms, rest) => Some (JObj ms, rest)
                    | None => None
                    end
            end
          else if Ascii.eqb c "[" then
            match skip_ws r with
            | String "]" r' => Some (JArr [], r')
            | r1 => match parse_elements fuel' r1 with
                    | Some (vs, rest) => Some (JArr vs, rest)
                    | None => None
                    end
            end
          else if Ascii.eqb c dquote then
            match parse_chars r with
            | Some (str, rest) => Some (JStr str, rest)
            | None => None
            end
          else if Ascii.eqb c "-" || is_digit c then parse_number s'
          else parse_literal s'
      end
  end
with parse_members (fuel : nat) (s : string) : option (list (string * json) * string) :=
  match fuel with
  | O => None
  | S fuel' =>
      match skip_ws s with
      | String c r =>
          if Ascii.eqb c dquote then
            match parse_chars r with
            | Some (k, r1) =>
                match skip_ws r1 with
                | String ":" r2 =>
                    match parse_value fuel' r2 with
                    | Some (v, r3) =>
                        match skip_ws r3 with
                        | String "}" r4 => Some ([(k, v)], r4)
                        | String "," r4 =>
                            match parse_members fuel' r4 with
                            | Some (ms, rest) => Some ((k, v) :: ms, rest)
                            | None => None
                            end
                        | _ => None
                        end
                    | None => None
                    end
                | _ => None
                end
            | None => None
            end
          else None
      | "" => None
      end
  end
with parse_elements (fuel : nat) (s : string) : option (list json * string) :=
  match fuel with
  | O => None
  | S fuel' =>
      match parse_value fuel' s with
      | Some (v, r1) =>
          match skip_ws r1 with
          | String "]" r2 => Some ([v], r2)
          | String "," r2 =>
              match parse_elements fuel' r2 with
              | Some (vs, rest) => Some (v :: vs, rest)
              | None => None
              end
          | _ => None
          end
      | None => None
      end
  end.

(** [JSON.parse(s)]: [None] when it throws a [SyntaxError].  Two nested
    calls in a row consume a character at least, so twice the length of [s]
    bounds the depth of the recursion. *)
Definition parse (s : string) : option json :=
  match parse_value (2 * String.length s + 2) s with
  | Some (v, rest) => if String.eqb (skip_ws rest) "" then Some v else None
  | None => None
  end.

End Json.

(** ** Data model of a report *)

(** The enrichment record attached to a failed test.  The fields that only
    [validateAndSanitize] fills, and [modelUsed], which only [getAiInsight]
    sets, are optional: [None] is an absent property. *)
Record Insight := {
  summary : string;
  humanError : option json;
  testRootCause : option json;
  productRootCause : option json;
  bugEffect : option json;
  inferredExpected : option json;
  recommendation : string;
  severity : string;
  confidence : Q;
  tags : list json;
  modelUsed : option string
}.

(** A test of a Mochawesome report, with the properties the pipeline reads.
    [None] is an absent property; [err_message] is [test.err?.message]. *)
Record Test := {
  title : option string;
  fullTitle : option string;
  fail : bool;
  state : option string;
  err_message : option string;
  err_stack : option string;
  code : option string;
  duration : option Z;
  ai : option Insight
}.

Definition set_ai (i : Insight) (t : Test) : Test :=
  {| title := title t; fullTitle := fullTitle t; fail := fail t;
     state := state t; err_message := err_message t;
     err_stack := err_stack t; code := code t; duration := duration t;
     ai := Some i |}.

Definition set_modelUsed (m : string) (i : Insight) : Insight :=
  {| summary := summary i; humanError := humanError i;
     testRootCause := testRootCause i; productRootCause := productRootCause i;
     bugEffect := bugEffect i; inferredExpected := inferredExpected i;
     recommendation := recommendation i; severity := severity i;
     confidence := confidence i; tags := tags i; modelUsed := Some m |}.

(** ** Utilities of [enrichResults.js] *)

Module Enrich.

Import Str.

(** String concatenation turns [undefined] into the text "undefined". *)
Definition to_text (v : option string) : string :=
  match v with
  | Some s => s
  | None => "undefined"
  end.

(** [cleanText] on a string. *)
Definition clean (s : string) : string :=
  trim (collapse_spaces false (replace_newlines s)).

(** [cleanText(str)]: [(str || "")] and then [.replace], which exists on
    strings only. *)
Definition cleanText (v : Json.value) : result string :=
  if Json.truthy v then
    match v with
    | Some (JStr s) => Ok (clean s)
    | _ => Throw (TypeError "replace is not a function")
    end
  else Ok (clean "").

Definition add_tag (b : bool) (t : string) (l : list string) : list string :=
  if b && negb (existsb (String.eqb t) l) then (l ++ [t])%list else l.

(** [deriveTags(errorMsg, fullTitle)]: the set keeps insertion order. *)
Definition deriveTags (errorMsg fullTitle : option string) : list string :=
  let text := toLowerCase (to_text errorMsg ++ " " ++ to_text fullTitle) in
  let tags := [] in
  let tags := add_tag (includes text "timeout" || includes text "waited") "timing" tags in
  let tags := add_tag (includes text "get" || includes text "find" || includes text "contains") "selector" tags in
  let tags := add_tag (includes text "401" || includes text "403" || includes text "login") "auth" tags in
  let tags := add_tag (includes text "500" || includes text "fetch" || includes text "network") "network" tags in
  let tags := add_tag (includes text "expect" || includes text "assert") "assertion" tags in
  slice0 4 tags.

(** *** The regular expression [/\{[\s\S]*\}/] *)

(** The longest prefix of [s] that ends with a closing brace: the greedy
    [[\s\S]*] followed by [\}]. *)
Fixpoint upto_last_brace (s : string) : option string :=
  match s with
  | "" => None
  | String c r =>
      match upto_last_brace r with
      | Some m => Some (String c m)
      | None => if Ascii.eqb c "}" then Some (String c "") else None
      end
  end.

(** [rawJson.match(/\{[\s\S]*\}/)]: the leftmost opening brace from which
    the pattern matches, and the longest match from there. *)
Fixpoint match_braces (s : string) : option string :=
  match s with
  | "" => None
  | String c r =>
      if Ascii.eqb c "{" then
        match upto_last_brace r with
        | Some m => Some (String c m)
        | None => match_braces r
        end
      else match_braces r
  end.

(** *** [validateAndSanitize] *)

Definition severities : list string := ["low"; "medium"; "high"; "critical"].

(** [data.severity?.toLowerCase()] and the membership test. *)
Definition sanitize_severity (v : Json.value) : result string :=
  match v with
  | None | Some JNull => Ok "medium"
  | Some (JStr s) =>
      let l := toLowerCase s in
      Ok (if existsb (String.eqb l) severities then l else "medium")
  | Some _ => Throw (TypeError "data.severity?.toLowerCase is not a function")
  end.

(** [typeof c === "number" ? Math.min(Math.max(c, 0), 1) : 0.5] *)
Definition sanitize_confidence (v : Json.value) : Q :=
  match v with
  | Some (JNum c) => Qmin (Qmax c 0) 1
  | _ => 1 # 2
  end.

(** [x || dflt] on a property of the response. *)
Definition or_default (v : Json.value) (dflt : string) : json :=
  if Json.truthy v then match v with Some x => x | None => JStr dflt end
  else JStr dflt.

Definition sanitize_tags (v : Json.value) (originalTest : Test) : list json :=
  match v with
  | Some (JArr (x :: l)) => slice0 5 (x :: l)
  | _ => map JStr (deriveTags (err_message originalTest) (title originalTest))
  end.

Definition pad_recommendation (r : string) : string :=
  if (length (split_space r) <? 10)%nat
  then r ++ " Please review the test logic and error stack for more details."
  else r.

(** [s.replace(/\.\.\.$/, ".")] *)
Definition strip_ellipsis (s : string) : string :=
  if endsWith s "..." then drop_end 3 s ++ "." else s.

(** The part of [validateAndSanitize] after the [try] block ("Contract
    Enforcement"), on the parsed response [data]. *)
Definition sanitize (data : json) (originalTest : Test) : result Insight :=
  match data with
  | JNull => Throw (TypeError "Cannot read properties of null")
  | _ =>
      match cleanText (Json.get "summary" data) with
      | Throw e => Throw e
      | Ok s =>
          let summary := join " " (slice0 15 (split_space s)) in
          match cleanText (Json.get "recommendation" data) with
          | Throw e => Throw e
          | Ok r =>
              let recommendation := strip_ellipsis (pad_recommendation r) in
              match sanitize_severity (Json.get "severity" data) with
              | Throw e => Throw e
              | Ok sev =>
                  Ok {| summary := if String.eqb summary "" then "Investigate failure reason." else summary;
                        humanError := Some (or_default (Json.get "humanError" data)
                          "An error occurred during the test execution.");
                        testRootCause := Some (or_default (Json.get "testRootCause" data)
                          "Assertion or selector failure detected in test code.");
                        productRootCause := Some (or_default (Json.get "productRootCause" data)
                          "Possible defect in application logic or responsiveness.");
                        bugEffect := Some (or_default (Json.get "bugEffect" data)
                          "User flow is blocked or behavior is inconsistent.");
                        inferredExpected := Some (or_default (Json.get "inferredExpected" data)
                          "The application should behave as defined in the test requirement.");
                        recommendation := recommendation;
                        severity := sev;
                        confidence := sanitize_confidence (Json.get "confidence" data);
                        tags := sanitize_tags (Json.get "tags" data) originalTest;
                        modelUsed := None |}
              end
          end
      end
  end.

(** The text handed to [JSON.parse]: [match ? match[0] : rawJson]. *)
Definition jsonStr (rawJson : string) : string :=
  match match_braces rawJson with
  | Some m => m
  | None => rawJson
  end.

Definition validateAndSanitize (rawJson : string) (originalTest : Test) : result Insight :=
  match Json.parse (jsonStr rawJson) with
  | None => Throw (Error "Malformed JSON response")
  | Some data => sanitize data originalTest
  end.

(** [getFallbackInsight] *)
Definition getFallbackInsight (test : Test) : Insight :=
  let msg := match err_message test with
             | Some m => m
             | None => ""
             end in
  {| summary := "AI analysis unavailable.";
     humanError := None; testRootCause := None; productRootCause := None;
     bugEffect := None; inferredExpected := None;
     recommendation := "Manual review required. Check the error logs and screenshot artifacts to diagnose the issue.";
     severity := "medium";
     confidence := 0;
     tags := JStr "ai-unavailable" :: map JStr (deriveTags (Some msg) (title test));
     modelUsed := None |}.

(** *** Vocabulary of the statements about the validator *)

(** A property on which [cleanText] does not raise: a string, or a falsy
    value. *)
Definition cleanable (v : Json.value) : bool :=
  match v with
  | Some (JStr _) => true
  | _ => negb (Json.truthy v)
  end.

(** A property on which the severity test does not raise: a string, [null]
    or [undefined]. *)
Definition lowerable (v : Json.value) : bool :=
  match v with
  | None | Some JNull | Some (JStr _) => true
  | _ => false
  end.

(** The properties of the response that the validator reads as text. *)
Definition text_keys : list string :=
  ["summary"; "humanError"; "testRootCause"; "productRootCause"; "bugEffect";
   "inferredExpected"; "recommendation"].

(** The supplied text of a property: the string itself when the property is
    a non-empty string, [dflt] when it is absent, falsy or not a string. *)
Definition text_or (v : Json.value) (dflt : string) : string :=
  match v with
  | Some (JStr s) => if String.eqb s "" then dflt else s
  | _ => dflt
  end.

(** An optional field of an insight holds a string of at least one
    character. *)
Definition nonempty_text (f : option json) : bool :=
  match f with
  | Some (JStr s) => negb (String.eqb s "")
  | _ => false
  end.

(** The first balanced object substring, in the words of the specification:
    from the first opening brace to the closing brace that balances it,
    braces inside string literals not counted.  [depth] is the number of
    braces still open, [in_str] and [esc] track string literals. *)
Fixpoint spec_balanced_end (depth : nat) (in_str esc : bool) (s : string) : option string :=
  match s with
  | "" => None
  | String c r =>
      if in_str then
        if esc then option_map (String c) (spec_balanced_end depth true false r)
        else if Ascii.eqb c "\" then option_map (String c) (spec_balanced_end depth true true r)
        else if Ascii.eqb c dquote then option_map (String c) (spec_balanced_end depth false false r)
        else option_map (String c) (spec_balanced_end depth true false r)
      else if Ascii.eqb c dquote then option_map (String c) (spec_balanced_end depth true false r)
      else if Ascii.eqb c "{" then option_map (String c) (spec_balanced_end (S depth) false false r)
      else if Ascii.eqb c "}" then
        match depth with
        | O => Some (String c "")
        | S d => option_map (String c) (spec_balanced_end d false false r)
        end
      else option_map (String c) (spec_balanced_end depth false false r)
  end.

Fixpoint spec_first_balanced_object (s : string) : option string :=
  match s with
  | "" => None
  | String c r =>
      if Ascii.eqb c "{" then option_map (String c) (spec_balanced_end 0 false false r)
      else spec_first_balanced_object r
  end.

End Enrich.

(** ** The inference invoker and the orchestrator *)

Module Pipeline.

Import Str Enrich.

(** [CONFIG.models], in priority order. *)
Definition CONFIG_models : list string :=
  [ "meta-llama/Meta-Llama-3-8B-Instruct";
    "mistralai/Mixtral-8x7B-Instruct-v0.1";
    "microsoft/Phi-3-mini-4k-instruct" ].

(** The three environment variables read at start-up. *)
Record Env := {
  HUGGINGFACE_API_TOKEN : option string;
  env_HF_API_KEY : option string;
  HUGGINGFACEHUB_API_TOKEN : option string
}.

Definition nonempty (v : option string) : bool :=
  match v with
  | Some s => negb (String.eqb s "")
  | None => false
  end.

(** [a || b] on optional strings. *)
Definition or_else (a b : option string) : option string :=
  if nonempty a then a else b.

Definition HF_API_KEY (env : Env) : option string :=
  or_else (or_else (HUGGINGFACE_API_TOKEN env) (env_HF_API_KEY env))
          (HUGGINGFACEHUB_API_TOKEN env).

(** The provider client, [new HfInference(key)]. *)
Record HfInference := { accessToken : string }.

(** [hf = HF_API_KEY ? new HfInference(HF_API_KEY) : null] *)
Definition hf (env : Env) : option HfInference :=
  match HF_API_KEY env with
  | Some key => if nonempty (Some key) then Some {| accessToken := key |} else None
  | None => None
  end.

(** What the process does to the outside, in order. *)
Inductive Event :=
| Sleep (ms : nat)
| ChatCompletion (model prompt : string).

Definition Trace := list Event.

(** The models requested in a trace, in order. *)
Fixpoint requested (tr : Trace) : list string :=
  match tr with
  | [] => []
  | ChatCompletion m _ :: rest => m :: requested rest
  | Sleep _ :: rest => requested rest
  end.

(** A location of the heap: a test object of a loaded report. *)
Definition loc := nat.

(** A suite of a loaded report; its tests are references to test objects. *)
#[warnings="-register-all"]
Inductive Suite :=
| mkSuite (suite_title : string) (suite_tests : list loc) (suite_suites : list Suite).

(** A report in memory, as [readJson] leaves it: the tree of suites and the
    test objects.  [JSON.parse] allocates one object per test; the model
    allows any sharing. *)
Record Report := {
  results : list Suite;
  objects : gmap loc Test
}.

(** [(test.fail || test.state === 'failed') && !test.ai] *)
Definition is_candidate (test : Test) : bool :=
  (fail test || match state test with
                | Some s => String.eqb s "failed"
                | None => false
                end)
  && match ai test with
     | Some _ => false
     | None => true
     end.

Definition candidate_at (objects : gmap loc Test) (l : loc) : bool :=
  match objects !! l with
  | Some test => is_candidate test
  | None => false
  end.

(** [processSuite]: the candidates of a suite, in the order they are pushed. *)
Fixpoint processSuite (objects : gmap loc Test) (s : Suite) : list loc :=
  match s with
  | mkSuite _ tests suites =>
      (List.filter (candidate_at objects) tests ++
       (fix each (l : list Suite) : list loc :=
          match l with
          | [] => []
          | s' :: rest => processSuite objects s' ++ each rest
          end) suites)%list
  end.

(** Step 3 of [runPipeline]: [report.results.forEach(...)]. *)
Fixpoint candidates_of (objects : gmap loc Test) (suites : list Suite) : list loc :=
  match suites with
  | [] => []
  | s :: rest => (processSuite objects s ++ candidates_of objects rest)%list
  end.

Definition candidates (r : Report) : list loc :=
  candidates_of (objects r) (results r).

Section Invoker.

(** [buildPrompt] assembles the instruction text from the test alone; no
    property below depends on the text, so it is a parameter. *)
Variable buildPrompt : Test -> string.

(** The provider: [response.choices[0]?.message?.content] of a request,
    given the client and everything the process did before; [None] when
    the call is rejected (network, timeout) or carries no content. *)
Variable chatCompletion : HfInference -> Trace -> string -> string -> option string.

(** [if (model !== CONFIG.models[0]) await sleep(2000)] *)
Definition cooldown (first model : string) (tr : Trace) : Trace :=
  if String.eqb model first then tr else (tr ++ [Sleep 2000])%list.

(** One iteration of the loop of [getAiInsight]: the cooldown and the
    request, then the checks on the content. *)
Definition attempt (client : HfInference) (first model prompt : string)
    (test : Test) (tr : Trace) : Trace * result Insight :=
  let tr1 := cooldown first model tr in
  let tr2 := (tr1 ++ [ChatCompletion model prompt])%list in
  match chatCompletion client tr1 model prompt with
  | None => (tr2, Throw (Error "provider failure"))
  | Some content =>
      if String.eqb content "" then (tr2, Throw (Error "Empty response"))
      else match validateAndSanitize content test with
           | Ok enriched => (tr2, Ok (set_modelUsed model enriched))
           | Throw e => (tr2, Throw e)
           end
  end.

(** [for (const model of models) { try { ... return } catch { } }] and the
    final [throw]. *)
Fixpoint tryModels (client : HfInference) (first : string) (models : list string)
    (prompt : string) (test : Test) (tr : Trace) : Trace * result Insight :=
  match models with
  | [] => (tr, Throw (Error "All AI models failed"))
  | model :: rest =>
      match attempt client first model prompt test tr with
      | (tr', Ok enriched) => (tr', Ok enriched)
      | (tr', Throw _) => tryModels client first rest prompt test tr'
      end
  end.

Definition first_model (models : list string) : string :=
  match models with
  | m :: _ => m
  | [] => ""
  end.

(** [getAiInsight], with the client [hf] and the model list explicit. *)
Definition getAiInsightWith (hf : option HfInference) (models : list string)
    (test : Test) (tr : Trace) : Trace * result Insight :=
  match hf with
  | None => (tr, Throw (Error "API Key missing"))
  | Some client =>
      tryModels client (first_model models) models (buildPrompt test) test tr
  end.

Definition getAiInsight (hf : option HfInference) (test : Test) (tr : Trace)
    : Trace * result Insight :=
  getAiInsightWith hf CONFIG_models test tr.

(** Step 4 of [runPipeline]: the loop over the candidates.  [test.ai = ...]
    writes the object the report refers to. *)
Fixpoint enrichCandidates (hf : option HfInference) (cands : list loc)
    (objects : gmap loc Test) (tr : Trace) : gmap loc Test * Trace :=
  match cands with
  | [] => (objects, tr)
  | l :: rest =>
      match objects !! l with
      | None => enrichCandidates hf rest objects tr
      | Some test =>
          let '(tr', r) := getAiInsight hf test tr in
          let insight := match r with
                         | Ok i => i
                         | Throw _ => getFallbackInsight test
                         end in
          enrichCandidates hf rest (<[l := set_ai insight test]> objects) tr'
      end
  end.

(** Steps 3 to 5 of [runPipeline] for one loaded report: the report as it
    stands at the end, the trace, and whether [writeJson] was called. *)
Definition processReport (hf : option HfInference) (r : Report) (tr : Trace)
    : Report * Trace * bool :=
  match candidates r with
  | [] => (r, tr, false)
  | cands =>
      let '(objects', tr') := enrichCandidates hf cands (objects r) tr in
      ({| results := results r; objects := objects' |}, tr', true)
  end.

(** *** Vocabulary of the statements about the invoker *)

(** A response passes: it has content and the validator returns. *)
Definition accepted (test : Test) (response : option string) : bool :=
  match response with
  | Some content =>
      negb (String.eqb content "") && is_ok (validateAndSanitize content test)
  | None => false
  end.

(** Every model of [models], asked in turn from the trace [tr], fails. *)
Fixpoint all_rejected (client : HfInference) (first : string) (models : list string)
    (prompt : string) (test : Test) (tr : Trace) : Prop :=
  match models with
  | [] => True
  | model :: rest =>
      let tr1 := cooldown first model tr in
      accepted test (chatCompletion client tr1 model prompt) = false /\
      all_rejected client first rest prompt test
        (tr1 ++ [ChatCompletion model prompt])%list
  end.

(** The trace after [models] have all been asked, from [tr]. *)
Fixpoint asked (first : string) (models : list string) (prompt : string)
    (tr : Trace) : Trace :=
  match models with
  | [] => tr
  | model :: rest =>
      asked first rest prompt
        (cooldown first model tr ++ [ChatCompletion model prompt])%list
  end.

End Invoker.

(** All the test objects a list of suites refers to, in traversal order. *)
Fixpoint refs_of_suite (s : Suite) : list loc :=
  match s with
  | mkSuite _ tests suites =>
      (tests ++
       (fix each (l : list Suite) : list loc :=
          match l with
          | [] => []
          | s' :: rest => refs_of_suite s' ++ each rest
          end) suites)%list
  end.

Fixpoint refs_of (suites : list Suite) : list loc :=
  match suites with
  | [] => []
  | s :: rest => (refs_of_suite s ++ refs_of rest)%list
  end.

End Pipeline.

(** ** The fragment merge of [renderHtmlReport.js] *)

Module Merge.

(** The model covers report parts as the reporter writes them: the counters
    of [data.stats] are integers and [data.results] is an array or missing.
    The sums are exact; the code adds doubles, which are these sums as long
    as they stay within 2^53. *)

(** [data.stats] of a fragment: every counter may be absent. *)
Record FragmentStats := {
  f_suites : option Z;
  f_tests : option Z;
  f_passes : option Z;
  f_pending : option Z;
  f_failures : option Z;
  f_duration : option Z;
  f_testsRegistered : option Z;
  f_skipped : option Z
}.

(** A parsed report file. *)
Record Fragment := {
  f_stats : option FragmentStats;
  f_results : option (list json);
  f_meta : Json.value
}.

(** [master.stats]; [start] and [end] hold the clock as read when the
    merge begins. *)
Record Stats := {
  suites : Z;
  tests : Z;
  passes : Z;
  pending : Z;
  failures : Z;
  start : string;
  end_ : string;
  duration : Z;
  testsRegistered : Z;
  passPercent : Q;
  pendingPercent : Q;
  other : Z;
  hasOther : bool;
  skipped : Z;
  hasSkipped : bool
}.

Record Master := {
  stats : Stats;
  results : list json;
  meta : Json.value
}.

(** What [getResults] returns: the merged report, a single report read from
    one of the two well-known paths, or [null]. *)
Inductive Output :=
| Merged (m : Master)
| Single (f : Fragment)
| Null.

(** [x || 0] *)
Definition or_zero (x : option Z) : Z :=
  match x with
  | Some v => v
  | None => 0
  end.

(** The initial [master]: [new Date().toISOString()] is evaluated once for
    [start] and once more for [end]; [started] and [ended] are these two
    readings of the clock. *)
Definition initial (started ended : string) : Master :=
  {| stats := {| suites := 0; tests := 0; passes := 0; pending := 0; failures := 0;
                 start := started; end_ := ended;
                 duration := 0; testsRegistered := 0; passPercent := 0; pendingPercent := 0;
                 other := 0; hasOther := false; skipped := 0; hasSkipped := false |};
     results := [];
     meta := Some (JObj []) |}.

(** The body of [files.forEach]: [JSON.parse] of the file, then the sums.
    A file is [None] when it does not parse; reading a counter of an absent
    [data.stats] raises a [TypeError]. *)
Definition mergeOne (master : Master) (file : option Fragment) : result Master :=
  match file with
  | None => Throw SyntaxError
  | Some data =>
      match f_stats data with
      | None => Throw (TypeError "Cannot read properties of undefined")
      | Some st =>
          let s := stats master in
          Ok {| stats := {| suites := suites s + or_zero (f_suites st);
                            tests := tests s + or_zero (f_tests st);
                            passes := passes s + or_zero (f_passes st);
                            pending := pending s + or_zero (f_pending st);
                            failures := failures s + or_zero (f_failures st);
                            start := start s; end_ := end_ s;
                            duration := duration s + or_zero (f_duration st);
                            testsRegistered := testsRegistered s + or_zero (f_testsRegistered st);
                            passPercent := passPercent s; pendingPercent := pendingPercent s;
                            other := other s; hasOther := hasOther s;
                            skipped := skipped s + or_zero (f_skipped st);
                            hasSkipped := hasSkipped s |};
                results := match f_results data with
                           | Some l => (results master ++ l)%list
                           | None => results master
                           end;
                meta := f_meta data |}
      end
  end.

Fixpoint mergeAll (master : Master) (files : list (option Fragment)) : result Master :=
  match files with
  | [] => Ok master
  | f :: rest =>
      match mergeOne master f with
      | Ok master' => mergeAll master' rest
      | Throw e => Throw e
      end
  end.

(** "Re-calculate percentages" *)
Definition recalculate (master : Master) : Master :=
  let s := stats master in
  if (0 <? testsRegistered s)%Z then
    {| stats := {| suites := suites s; tests := tests s; passes := passes s;
                   pending := pending s; failures := failures s;
                   start := start s; end_ := end_ s; duration := duration s;
                   testsRegistered := testsRegistered s;
                   passPercent := (inject_Z (passes s) / inject_Z (testsRegistered s)) * 100;
                   pendingPercent := (inject_Z (pending s) / inject_Z (testsRegistered s)) * 100;
                   other := other s; hasOther := hasOther s;
                   skipped := skipped s; hasSkipped := hasSkipped s |};
       results := results master;
       meta := meta master |}
  else master.

(** An existing file at one of the two fall-back paths: it parses or not. *)
Definition readWhole (file : option Fragment) : result Output :=
  match file with
  | Some data => Ok (Single data)
  | None => Throw SyntaxError
  end.

(** [getResults]: [files] are the report parts found by the glob, in its
    order; [atResults] and [atBaseResults] are the files at [PATHS.results]
    and [PATHS.baseResults] when they exist. *)
Definition getResults (started ended : string) (files : list (option Fragment))
    (atResults atBaseResults : option (option Fragment)) : result Output :=
  match files with
  | [] =>
      match atResults, atBaseResults with
      | Some file, _ => readWhole file
      | None, Some file => readWhole file
      | None, None => Ok Null
      end
  | _ =>
      match mergeAll (initial started ended) files with
      | Ok master => Ok (Merged (recalculate master))
      | Throw e => Throw e
      end
  end.

(** The sum of a counter over the fragments that have a [stats] block. *)
Definition total (field : FragmentStats -> option Z) (files : list (option Fragment)) : Z :=
  fold_right Z.add 0%Z
    (map (fun file => match file with
                      | Some {| f_stats := Some st |} => or_zero (field st)
                      | _ => 0%Z
                      end) files).

(** The eight additive counters of the merged statistics, and their sums
    over the files. *)
Definition counters (s : Stats) : list Z :=
  [suites s; tests s; passes s; pending s; failures s; duration s;
   testsRegistered s; skipped s].

Definition totals (files : list (option Fragment)) : list Z :=
  [total f_suites files; total f_tests files; total f_passes files;
   total f_pending files; total f_failures files; total f_duration files;
   total f_testsRegistered files; total f_skipped files].

(** Every file parses and has a [stats] block. *)
Definition well_formed (file : option Fragment) : bool :=
  match file with
  | Some {| f_stats := Some _ |} => true
  | _ => false
  end.

End Merge.

(** ** The rename step of [runPipeline] *)

Module Rename.

Import Str.

(** [path.basename(p)], POSIX flavour. *)
Fixpoint drop_slashes (s : string) : string :=
  match s with
  | String c r => if Ascii.eqb c "/" then drop_slashes r else s
  | "" => ""
  end.

Fixpoint until_slash (s : string) : string :=
  match s with
  | String c r => if Ascii.eqb c "/" then "" else String c (until_slash r)
  | "" => ""
  end.

Definition basename (p : string) : string :=
  rev_string (until_slash (drop_slashes (rev_string p ""))) "".

(** [s.replace(/\.cy\.js$|\.js$/, '')] *)
Definition strip_extension (s : string) : string :=
  if endsWith s ".cy.js" then drop_end 6 s
  else if endsWith s ".js" then drop_end 3 s
  else s.

(** [s.replace(/[^a-z0-9]/gi, '_').toLowerCase()] *)
Fixpoint sanitizeName (s : string) : string :=
  match s with
  | "" => ""
  | String c r =>
      String (if is_lower c || is_upper c || is_digit c then lower_char c else "_"%char)
             (sanitizeName r)
  end.

(** [v?.[0]] *)
Definition first_entry (v : Json.value) : Json.value :=
  match v with
  | Some (JArr (x :: _)) => Some x
  | Some (JObj ms) => Json.lookup_last "0" ms
  | Some (JStr (String c _)) => Some (JStr (String c ""))
  | _ => None
  end.

(** [v?.k] *)
Definition opt_get (k : string) (v : Json.value) : Json.value :=
  match v with
  | None | Some JNull => None
  | Some d => Json.get k d
  end.

(** [a || b] on values. *)
Definition or_value (a b : Json.value) : Json.value :=
  if Json.truthy a then a else b.

(** The derived name of a report file, from its text; [None] when an
    exception is raised inside the [try] block. *)
Definition specName (text : string) : option string :=
  match Json.parse text with
  | None | Some JNull => None
  | Some data =>
      let first := first_entry (Json.get "results" data) in
      let specFile := or_value (or_value (opt_get "file" first) (opt_get "fullFile" first))
                               (Some (JStr "")) in
      if Json.truthy specFile then
        match specFile with
        | Some (JStr p) => Some (sanitizeName (strip_extension (basename p)))
        | _ => None
        end
      else
        match or_value (opt_get "title" first) (Some (JStr "unknown")) with
        | Some (JStr t) => Some (sanitizeName t)
        | _ => None
        end
  end.

(** The destination of a report file: [<specName>_results.json]. *)
Definition newPath (text : string) : option string :=
  match specName text with
  | Some name => Some (name ++ "_results.json")
  | None => None
  end.

(** [fileName.startsWith("results_") || fileName === "results.json"] *)
Definition is_generic (fileName : string) : bool :=
  startsWith fileName "results_" || String.eqb fileName "results.json".

(** [fs.renameSync(f, d)]: whatever is at [d] is replaced. *)
Definition renameSync (f d : string) (dir : gmap string string) : gmap string string :=
  match dir !! f with
  | Some text => <[d := text]> (delete f dir)
  | None => dir
  end.

(** The body of the loop over [rawFiles], for the file named [f] of the
    reports folder [dir] (file name to text). *)
Definition renameFile (f : string) (dir : gmap string string) : gmap string string :=
  if is_generic f then
    match dir !! f with
    | None => dir
    | Some text =>
        match newPath text with
        | None => dir
        | Some d =>
            if negb (String.eqb f d) && negb (bool_decide (is_Some (dir !! d)))
            then renameSync f d dir
            else dir
        end
    end
  else dir.

(** Step 1 of [runPipeline] over the listing [rawFiles]. *)
Definition renameStep (rawFiles : list string) (dir : gmap string string)
    : gmap string string :=
  fold_left (fun d f => renameFile f d) rawFiles dir.

(** The body of the loop renames the file [f] of [dir]. *)
Definition would_move (f : string) (dir : gmap string string) : Prop :=
  is_generic f = true /\
  exists text d, dir !! f = Some text /\ newPath text = Some d /\ d <> f /\
                 dir !! d = None.

(** The step would move a file named [f] with text [text], were its
    destination free. *)
Definition movable (f text : string) : bool :=
  is_generic f &&
  match newPath text with
  | Some d => negb (String.eqb d f)
  | None => false
  end.

(** No file that the step would move sits at the destination derived for
    another file. *)
Definition settled_at (dir : gmap string string) (entry : string * string) : bool :=
  let '(f, text) := entry in
  if movable f text then
    match newPath text with
    | Some d =>
        match dir !! d with
        | Some text' => negb (movable d text')
        | None => true
        end
    | None => true
    end
  else true.

Definition destinations_settled (dir : gmap string string) : bool :=
  forallb (settled_at dir) (map_to_list dir).

(** Every file of [dir] that the listing [later] names is named by the
    listing [rawFiles]. *)
Definition listed_before (rawFiles : list string) (dir : gmap string string)
    (later : list string) : bool :=
  forallb (fun f => match dir !! f with
                    | Some _ => existsb (String.eqb f) rawFiles
                    | None => true
                    end) later.

(** [destinations_settled] as a proposition. *)
Definition Settled (dir : gmap string string) : Prop :=
  forall f text d text',
    dir !! f = Some text -> movable f text = true -> newPath text = Some d ->
    dir !! d = Some text' -> movable d text' = false.

(** What holds of the folder while the loop runs, [dir0] being the folder at
    the start and [done] the files already visited. *)
Record Invariant (dir0 dir : gmap string string) (done : list string) : Prop := {
  inv_settled : Settled dir;
  inv_quiet : forall f, In f done -> ~ would_move f dir;
  inv_origin : forall n text, dir !! n = Some text ->
                 is_Some (dir0 !! n) \/ newPath text = Some n
}.

(** The names of the files of a folder. *)
Definition names (dir : gmap string string) : list string :=
  map fst (map_to_list dir).

(** The texts of the files of a folder. *)
Definition texts (dir : gmap string string) : list string :=
  map snd (map_to_list dir).

End Rename.

(** ** Concrete inputs used by the examples *)

Module Examples.

Import Str Enrich Pipeline.

Definition failing (name msg : string) : Test :=
  {| title := Some name; fullTitle := None; fail := true; state := Some "failed";
     err_message := Some msg; err_stack := None; code := None; duration := None;
     ai := None |}.

(** The failing test of the scenario of the specification. *)
Definition auth_test : Test :=
  failing "[auth] login redirects" "Timed out retrying after 4000ms".

(** A failing test whose title and error hit no keyword bucket. *)
Definition plain_test : Test := failing "renders the page" "boom".

Definition no_credential : Env :=
  {| HUGGINGFACE_API_TOKEN := None; env_HF_API_KEY := None;
     HUGGINGFACEHUB_API_TOKEN := None |}.

Definition title_prompt (t : Test) : string := to_text (title t).

(** A provider that never answers. *)
Definition offline (_ : HfInference) (_ : Trace) (_ _ : string) : option string := None.

(** A report with one suite holding the scenario's test. *)
Definition auth_report : Report :=
  {| Pipeline.results := [mkSuite "auth" [0%nat] []];
     objects := {[ 0%nat := auth_test ]} |}.

(** Responses of a model. *)
Definition wrapped_response : string :=
  text_of "Here is the analysis: {'summary': 'Login  redirect broke', 'severity': 'HIGH', 'confidence': 1.5} Hope it helps".

Definition numeric_severity_response : string := text_of "{'severity': 5}".

Definition empty_object_response : string := "{}".

Definition numeric_summary_response : string := text_of "{'summary': 5}".

Definition two_objects_response : string :=
  text_of "{'summary': 'x'} and {'confidence': 1}".

Definition array_field_response : string := text_of "{'humanError': []}".

(** A response that supplies some of the text fields, one of them empty. *)
Definition partial_response : string :=
  text_of "{'summary': 'Login  redirect broke', 'humanError': 'Clicked before the page was ready', 'bugEffect': '', 'severity': 'HIGH', 'confidence': 1.5}".

Definition partial_members : list (string * json) :=
  [("summary", JStr "Login  redirect broke");
   ("humanError", JStr "Clicked before the page was ready");
   ("bugEffect", JStr ""); ("severity", JStr "HIGH");
   ("confidence", JNum (15 # 10))].

(** A provider whose first model times out and whose second model answers
    with [wrapped_response]. *)
Definition second_answers (_ : HfInference) (_ : Trace) (model _ : string)
    : option string :=
  if String.eqb model "mistralai/Mixtral-8x7B-Instruct-v0.1"
  then Some wrapped_response else None.

Definition some_client : HfInference := {| accessToken := "hf_token" |}.

(** Fragments of the merge scenario. *)
Definition stats_of (t p : Z) (registered : option Z) : Merge.FragmentStats :=
  {| Merge.f_suites := None; Merge.f_tests := Some t; Merge.f_passes := Some p;
     Merge.f_pending := None; Merge.f_failures := None; Merge.f_duration := None;
     Merge.f_testsRegistered := registered; Merge.f_skipped := None |}.

Definition fragment_of (st : Merge.FragmentStats) : option Merge.Fragment :=
  Some {| Merge.f_stats := Some st; Merge.f_results := Some []; Merge.f_meta := None |}.

(** The two fragments as the scenario writes them: [tests] and [passes]
    only. *)
Definition scenario_fragments : list (option Merge.Fragment) :=
  [fragment_of (stats_of 5 5 None); fragment_of (stats_of 3 1 None)].

(** The same with [testsRegistered] equal to [tests]. *)
Definition registered_fragments : list (option Merge.Fragment) :=
  [fragment_of (stats_of 5 5 (Some 5%Z)); fragment_of (stats_of 3 1 (Some 3%Z))].

(** A reports folder with a report of the spec [results_x] under a generic
    name, and a report of the spec [foo] under the name derived for
    [results_x]; and the two listings of the folder. *)
Definition crossed_folder : gmap string string :=
  <[ "results_1.json" := text_of "{'results':[{'file':'cypress/e2e/results_x.cy.js'}]}" ]>
  (<[ "results_x_results.json" := text_of "{'results':[{'file':'cypress/e2e/foo.cy.js'}]}" ]> ∅).

Definition crossed_listing : list string :=
  ["results_1.json"; "results_x_results.json"].

Definition crossed_listing_after : list string :=
  ["results_1.json"; "foo_results.json"].

(** A reports folder as Mochawesome leaves it: two parts of the spec
    [login] and one of the spec [cart]. *)
Definition fresh_folder : gmap string string :=
  <[ "results.json" := text_of "{'results':[{'file':'cypress/e2e/login.cy.js'}]}" ]>
  (<[ "results_001.json" := text_of "{'results':[{'file':'cypress/e2e/login.cy.js'}]}" ]>
  (<[ "results_002.json" := text_of "{'results':[{'fullFile':'/repo/cypress/e2e/Cart.js'}]}" ]> ∅)).

Definition fresh_listing : list string :=
  ["results.json"; "results_001.json"; "results_002.json"].

Definition fresh_listing_after : list string :=
  ["login_results.json"; "results_001.json"; "cart_results.json"].

Definition noon : string := "2026-01-01T12:00:00.000Z".

Definition just_after_noon : string := "2026-01-01T12:00:00.001Z".

Definition wrapped_insight : Insight := Eval vm_compute in
    match validateAndSanitize wrapped_response auth_test with
    | Ok i => i
    | Throw _ => getFallbackInsight auth_test
    end.

End Examples.

(** ** Vocabulary of the statements about the orchestrator *)

Module Frame.

(** [t'] is [t] but for its [ai] property. *)
Definition same_but_ai (t t' : Test) : Prop :=
  title t' = title t /\ fullTitle t' = fullTitle t /\ fail t' = fail t /\
  state t' = state t /\ err_message t' = err_message t /\
  err_stack t' = err_stack t /\ code t' = code t /\ duration t' = duration t.

(** An insight as the orchestrator attaches them: the fallback of the test,
    or a record stamped with a model of the priority list. *)
Definition attached_from (t : Test) (i : Insight) : Prop :=
  i = Enrich.getFallbackInsight t \/
  exists m, In m Pipeline.CONFIG_models /\ modelUsed i = Some m.

End Frame.

(** ** Further inputs used by the examples *)

Module MoreExamples.

Import Str.

(** A response that carries its own tags. *)
Definition tagged_response : string :=
  text_of "{'summary': 'Button click triggered no action', 'tags': ['navigation', 'regression']}".

(** A reports folder where nothing is left to rename: a report at its
    derived name, a second part of the same spec, and a file that is not
    JSON. *)
Definition settled_folder : gmap string string :=
  <[ "login_results.json" := text_of "{'results':[{'file':'cypress/e2e/login.cy.js'}]}" ]>
  (<[ "results_001.json" := text_of "{'results':[{'file':'cypress/e2e/login.cy.js'}]}" ]>
  (<[ "results_bad.json" := "<html>502 Bad Gateway</html>" ]> ∅)).

Definition settled_listing : list string :=
  ["login_results.json"; "results_001.json"; "results_bad.json"].

(** Three parts with result entries, the second without [results], and
    their [meta]. *)
Definition login_part : option Merge.Fragment :=
  Some {| Merge.f_stats := Some (Examples.stats_of 2 2 (Some 2%Z));
          Merge.f_results := Some [JStr "login"; JStr "logout"];
          Merge.f_meta := Some (JStr "first") |}.

Definition bare_part : option Merge.Fragment :=
  Some {| Merge.f_stats := Some (Examples.stats_of 0 0 (Some 0%Z));
          Merge.f_results := None;
          Merge.f_meta := None |}.

Definition cart_part : option Merge.Fragment :=
  Some {| Merge.f_stats := Some (Examples.stats_of 1 0 (Some 1%Z));
          Merge.f_results := Some [JStr "cart"];
          Merge.f_meta := Some (JStr "last") |}.

Definition entry_fragments : list (option Merge.Fragment) :=
  [login_part; bare_part; cart_part].

End MoreExamples.

(** ** Vocabulary of the statements about the merge *)

Module MergeSpec.

Import Merge.

(** The statistics [s] with the sums over [files] added to its counters. *)
Definition add_totals (s : Stats) (files : list (option Fragment)) : Stats :=
  {| suites := suites s + total f_suites files;
     tests := tests s + total f_tests files;
     passes := passes s + total f_passes files;
     pending := pending s + total f_pending files;
     failures := failures s + total f_failures files;
     start := start s; end_ := end_ s;
     duration := duration s + total f_duration files;
     testsRegistered := testsRegistered s + total f_testsRegistered files;
     passPercent := passPercent s; pendingPercent := pendingPercent s;
     other := other s; hasOther := hasOther s;
     skipped := skipped s + total f_skipped files;
     hasSkipped := hasSkipped s |}.

(** The result entries of a file: none when [data.results] is absent. *)
Definition entries_of (file : option Fragment) : list json :=
  match file with
  | Some {| f_results := Some l |} => l
  | _ => []
  end.

(** The entries of all the files, in the order of the listing. *)
Definition all_entries (files : list (option Fragment)) : list json :=
  flat_map entries_of files.

Definition meta_of (file : option Fragment) : Json.value :=
  match file with
  | Some data => f_meta data
  | None => None
  end.

(** The counters of a part, an absent one counting for 0. *)
Definition counters_of (file : option Fragment) : list Z :=
  match file with
  | Some {| f_stats := Some st |} =>
      map or_zero [f_suites st; f_tests st; f_passes st; f_pending st;
                   f_failures st; f_duration st; f_testsRegistered st; f_skipped st]
  | _ => []
  end.

(** The counters are counts whose sums stay within the integers that a
    JavaScript number holds exactly (up to 2^53): on such parts every
    addition of the merge, in whatever order, is the exact sum. *)
Definition exact_sums (files : list (option Fragment)) : bool :=
  forallb (fun file => forallb (Z.leb 0) (counters_of file)) files &&
  forallb (fun t => (t <=? 2 ^ 53)%Z) (totals files).

End MergeSpec.

(** ** Vocabulary of the statements about derived names *)

Module RenameSpec.

Import Str.

(** A character of a derived name: lower-case letter, digit or underscore. *)
Definition name_char (c : ascii) : bool :=
  is_lower c || is_digit c || Ascii.eqb c "_".

Fixpoint all_chars (p : ascii -> bool) (s : string) : bool :=
  match s with
  | "" => true
  | String c r => p c && all_chars p r
  end.

(** A file of the folder at the start, or a file at the name derived from
    its text that had a generic name at the start. *)
Definition placed (dir0 : gmap string string) (n text : string) : Prop :=
  dir0 !! n = Some text \/
  (Rename.newPath text = Some n /\
   exists f, f <> n /\ dir0 !! f = Some text /\ Rename.is_generic f = true).

End RenameSpec.

(** ** The loop over the report files of [runPipeline] *)

Module Batch.

Import Pipeline.

Section Files.

Variable buildPrompt : Test -> string.
Variable chatCompletion : HfInference -> Trace -> string -> string -> option string.

(** [for (const reportPath of files)]: a file is [None] when [readJson]
    gives [null] or the report has no [results]; it is then skipped.  The
    outcome gives, per file, the report as it stands at the end and whether
    [writeJson] was called, and the trace. *)
Fixpoint processFiles (hf : option HfInference) (files : list (option Report))
    (tr : Trace) : list (option Report * bool) * Trace :=
  match files with
  | [] => ([], tr)
  | None :: rest =>
      let '(out, tr') := processFiles hf rest tr in
      ((None, false) :: out, tr')
  | Some report :: rest =>
      let '(report', tr1, written) :=
        processReport buildPrompt chatCompletion hf report tr in
      let '(out, tr') := processFiles hf rest tr1 in
      ((Some report', written) :: out, tr')
  end.

End Files.

End Batch.

(** ** The run history of [generateMetrics.js] *)

Module Metrics.

Definition MAX_RUNS : nat := 31.

(** [runs.slice(Math.max(0, runs.length - MAX_RUNS))] *)
Definition keepLast {A} (runs : list A) : list A :=
  skipn (length runs - MAX_RUNS) runs.

(** The end of [main]: [existing] is the content of [runs.json] when it is
    an array; the run is pushed and the history trimmed. *)
Definition recordRun {A} (existing : option (list A)) (run : A) : list A :=
  let runs := match existing with
              | Some l => l
              | None => []
              end in
  keepLast (runs ++ [run])%list.

End Metrics.

(** ** The view model of [renderHtmlReport.js] *)

Module View.

Import Str.

(** The model covers reports of the shape the reporter writes: result
    entries and suites are objects whose [tests] and [suites] are arrays or
    missing, the title of a test is a string when it has one, and [pass]
    and [fail] are booleans. *)

(** A test as [flattenTests] reads it: the properties of [Test], the [pass]
    flag and the [context]. *)
Record RawTest := {
  base : Test;
  pass : bool;
  context : Json.value
}.

(** A result entry or a suite of the report, tests in line. *)
#[warnings="-register-all"]
Inductive Node :=
| mkNode (node_title : option string) (node_tests : list RawTest) (node_suites : list Node).

(** An entry of the flat list. *)
Record FlatTest := {
  status : string;
  flat_title : string;
  flat_fullTitle : option string;
  flat_duration : option Z;
  flat_tags : list string;
  error : string;
  flat_context : json;
  flat_ai : option Insight
}.

Definition state_is (s : string) (t : RawTest) : bool :=
  match state (base t) with
  | Some st => String.eqb st s
  | None => false
  end.

(** [t.state === 'failed' || t.fail ? 'failed'
     : t.state === 'passed' || t.pass ? 'passed' : 'skipped'] *)
Definition classify (t : RawTest) : string :=
  if state_is "failed" t || fail (base t) then "failed"
  else if state_is "passed" t || pass t then "passed"
  else "skipped".

(** [title.match(/\[([^\]]+)\]/g)]: the matches, left to right.  [inside]
    holds the characters read since the opening bracket of the match under
    way; a closing bracket right after the opening one gives no match. *)
Fixpoint bracket_matches (inside : option string) (s : string) : list string :=
  match s with
  | "" => []
  | String c r =>
      match inside with
      | None =>
          if Ascii.eqb c "[" then bracket_matches (Some "") r
          else bracket_matches None r
      | Some body =>
          if Ascii.eqb c "]" then
            if String.eqb body "" then bracket_matches None r
            else (String "[" (body ++ "]")) :: bracket_matches None r
          else bracket_matches (Some (body ++ String c "")) r
      end
  end.

(** [s.replace(/[\[\]]/g, '')] *)
Fixpoint strip_brackets (s : string) : string :=
  match s with
  | "" => ""
  | String c r =>
      if Ascii.eqb c "[" || Ascii.eqb c "]" then strip_brackets r
      else String c (strip_brackets r)
  end.

Definition bracket_tags (title : string) : list string :=
  map strip_brackets (bracket_matches None title).

(** The object pushed for one test; [t.title.match] raises when the test has
    no title. *)
Definition flatTest (t : RawTest) : result FlatTest :=
  match title (base t) with
  | None => Throw (TypeError "Cannot read properties of undefined")
  | Some name =>
      Ok {| status := classify t;
            flat_title := name;
            flat_fullTitle := fullTitle (base t);
            flat_duration := duration (base t);
            flat_tags := bracket_tags name;
            error := match err_message (base t) with
                     | Some m => m
                     | None => ""
                     end;
            flat_context := if Json.truthy (context t)
                            then match context t with
                                 | Some c => c
                                 | None => JNull
                                 end
                            else JNull;
            flat_ai := ai (base t) |}
  end.

(** [(tests || []).forEach(t => tests.push(...))] *)
Fixpoint pushTests (ts : list RawTest) (acc : list FlatTest) : result (list FlatTest) :=
  match ts with
  | [] => Ok acc
  | t :: rest =>
      match flatTest t with
      | Ok f => pushTests rest (acc ++ [f])%list
      | Throw e => Throw e
      end
  end.

(** [if (suite.title) suites.add(suite.title)] *)
Definition addTitle (name : option string) (names : list string) : list string :=
  match name with
  | Some n =>
      if String.eqb n "" then names
      else if existsb (String.eqb n) names then names
      else (names ++ [n])%list
  | None => names
  end.

(** [walk]: the flat list and the set of suite titles, threaded. *)
Fixpoint walk (suite : Node) (st : list FlatTest * list string)
    : result (list FlatTest * list string) :=
  match suite with
  | mkNode name tests suites =>
      let names := addTitle name (snd st) in
      match pushTests tests (fst st) with
      | Throw e => Throw e
      | Ok acc =>
          (fix each (l : list Node) (st : list FlatTest * list string) :=
             match l with
             | [] => Ok st
             | s :: rest =>
                 match walk s st with
                 | Ok st' => each rest st'
                 | Throw e => Throw e
                 end
             end) suites (acc, names)
      end
  end.

(** [(suites || []).forEach(walk)] *)
Fixpoint walkEach (l : list Node) (st : list FlatTest * list string)
    : result (list FlatTest * list string) :=
  match l with
  | [] => Ok st
  | s :: rest =>
      match walk s st with
      | Ok st' => walkEach rest st'
      | Throw e => Throw e
      end
  end.

(** [results.forEach(res => ...)]: the root tests of the entry, then its
    suites; the title of the entry itself is not recorded. *)
Fixpoint flattenFrom (results : list Node) (st : list FlatTest * list string)
    : result (list FlatTest * list string) :=
  match results with
  | [] => Ok st
  | mkNode _ tests suites :: rest =>
      match pushTests tests (fst st) with
      | Throw e => Throw e
      | Ok acc =>
          match walkEach suites (acc, snd st) with
          | Ok st' => flattenFrom rest st'
          | Throw e => Throw e
          end
      end
  end.

(** [flattenTests(report)], on [report.results || []]. *)
Definition flattenTests (results : list Node) : result (list FlatTest * list string) :=
  flattenFrom results ([], []).

(** *** Vocabulary of the statements *)

(** The tests under a node, in the order of the traversal. *)
Fixpoint tests_under (n : Node) : list RawTest :=
  match n with
  | mkNode _ tests suites =>
      (tests ++
       (fix each (l : list Node) : list RawTest :=
          match l with
          | [] => []
          | s :: rest => tests_under s ++ each rest
          end) suites)%list
  end.

Definition report_tests (results : list Node) : list RawTest :=
  flat_map tests_under results.

Definition titled (t : RawTest) : bool :=
  match title (base t) with
  | Some _ => true
  | None => false
  end.

(** The entries of a list of tests, or the first exception. *)
Definition entries (ts : list RawTest) : result (list FlatTest) := pushTests ts [].

(** A traversal either gives the entries of the tests under it, appended,
    or raises what the first test without title raises. *)
Definition follows (ts : list RawTest) (st : list FlatTest * list string)
    (r : result (list FlatTest * list string)) : Prop :=
  match entries ts with
  | Ok fs => exists names, r = Ok ((fst st ++ fs)%list, names)
  | Throw e => r = Throw e
  end.

(** A title written with tags: each part is some text and a tag in
    brackets, and [rest] ends the title. *)
Fixpoint tagged (parts : list (string * string)) (rest : string) : string :=
  match parts with
  | [] => rest
  | (gap, tag) :: more => gap ++ String "[" (tag ++ String "]" (tagged more rest))
  end.

(** A part whose text opens no bracket and whose tag is not empty and holds
    no bracket. *)
Definition plain_part (part : string * string) : bool :=
  negb (occurs "[" (fst part)) &&
  negb (String.eqb (snd part) "") &&
  negb (occurs "[" (snd part)) && negb (occurs "]" (snd part)).

End View.

(** ** Vocabulary for cleaned text *)

Module CleanSpec.

Import Str.

(** Every white-space character of [s] is a space that does not follow
    white space; [after_space] tells that [s] comes right after white
    space. *)
Fixpoint spaced (after_space : bool) (s : string) : bool :=
  match s with
  | "" => true
  | String c r =>
      if is_space c then Ascii.eqb c " " && negb after_space && spaced true r
      else spaced false r
  end.

Definition starts_space (s : string) : bool :=
  match s with
  | String c _ => is_space c
  | "" => false
  end.

Definition ends_space (s : string) : bool := starts_space (rev_string s "").

End CleanSpec.

(** ** Test lists of the metrics ([extractFromMochawesome])

    The two lists of titles that [extractFromMochawesome] collects while it
    walks the report.  The flags [pass] and [fail] are the booleans that the
    reporter writes, so [t.pass === true] is [pass t].  A title that is
    missing is pushed as [undefined]: [None]. *)

Module MetricsLists.

Import View.

(** [t.state === 'passed' || t.pass === true] *)
Definition marked_passed (t : RawTest) : bool := state_is "passed" t || pass t.

(** [t.state === 'failed' || t.fail === true] *)
Definition marked_failed (t : RawTest) : bool := state_is "failed" t || fail (base t).

(** The body of [(suite.tests || []).forEach]; the state is
    [(passedTests, failedTests)]. *)
Definition noteTest (acc : list (option string) * list (option string)) (t : RawTest)
    : list (option string) * list (option string) :=
  let passed := if marked_passed t then (fst acc ++ [title (base t)])%list else fst acc in
  let failed := if marked_failed t then (snd acc ++ [title (base t)])%list else snd acc in
  (passed, failed).

(** One round of [walkSuites]: the tests of the suite, then
    [walkSuites(suite.suites)]. *)
Fixpoint walkSuite (suite : Node) (acc : list (option string) * list (option string))
    : list (option string) * list (option string) :=
  match suite with
  | mkNode _ tests suites =>
      (fix each (l : list Node) (acc : list (option string) * list (option string)) :=
         match l with
         | [] => acc
         | s :: rest => each rest (walkSuite s acc)
         end) suites (fold_left noteTest tests acc)
  end.

(** [walkSuites(suites)] *)
Fixpoint walkSuites (suites : list Node) (acc : list (option string) * list (option string))
    : list (option string) * list (option string) :=
  match suites with
  | [] => acc
  | s :: rest => walkSuites rest (walkSuite s acc)
  end.

(** [passedTests] and [failedTests] after [walkSuites(mocha.results)]. *)
Definition passedTests (results : list Node) : list (option string) :=
  fst (walkSuites results ([], [])).

Definition failedTests (results : list Node) : list (option string) :=
  snd (walkSuites results ([], [])).

(** *** Vocabulary of the statements *)

(** The titles of the tests of a list that satisfy [p]. *)
Definition titles (p : RawTest -> bool) (ts : list RawTest) : list (option string) :=
  map (fun t => title (base t)) (List.filter p ts).

(** The titles of the entries of the flat list with a given status. *)
Definition shown_as (s : string) (fs : list FlatTest) : list (option string) :=
  map (fun f => Some (flat_title f)) (List.filter (fun f => String.eqb (status f) s) fs).

End MetricsLists.

(** ** Inputs of the view examples *)

Module ViewExamples.

Import View Examples.

Definition raw_of (t : Test) : RawTest :=
  {| base := t; pass := false; context := None |}.

(** A report with a root test and a nested suite. *)
Definition small_report : list Node :=
  [mkNode (Some "auth spec") [raw_of auth_test]
     [mkNode (Some "rendering") [raw_of plain_test] []]].

(** A test that passed in the end but carries the [fail] flag of an earlier
    attempt, and one that simply passed. *)
Definition flaky_raw : RawTest :=
  {| base := {| title := Some "[smoke] retries the upload"; fullTitle := None;
                fail := true; state := Some "passed"; err_message := None;
                err_stack := None; code := None; duration := None; ai := None |};
     pass := true; context := None |}.

Definition passed_raw : RawTest :=
  {| base := {| title := Some "opens the dashboard"; fullTitle := None;
                fail := false; state := Some "passed"; err_message := None;
                err_stack := None; code := None; duration := None; ai := None |};
     pass := true; context := None |}.

Definition mixed_report : list Node :=
  [mkNode (Some "upload spec") [passed_raw]
     [mkNode (Some "retries") [flaky_raw; raw_of plain_test] []]].

End ViewExamples.

(** * Properties *)

(** ** The insight validator *)

Module ValidatorFacts.

Import Str Enrich Examples.

Lemma validate_parsed rawJson test data :
  Json.parse (jsonStr rawJson) = Some data ->
  validateAndSanitize rawJson test = sanitize data test.
Proof. intros H. unfold validateAndSanitize. now rewrite H. Qed.

Lemma validate_inv rawJson test ins :
  validateAndSanitize rawJson test = Ok ins ->
  exists data, Json.parse (jsonStr rawJson) = Some data /\ sanitize data test = Ok ins.
Proof.
  unfold validateAndSanitize.
  destruct (Json.parse (jsonStr rawJson)) as [data|]; [|discriminate].
  intros H. now exists data.
Qed.

(** What [sanitize] returns when it returns. *)
Lemma sanitize_inv data test ins :
  sanitize data test = Ok ins ->
  exists s r sev,
    cleanText (Json.get "summary" data) = Ok s /\
    cleanText (Json.get "recommendation" data) = Ok r /\
    sanitize_severity (Json.get "severity" data) = Ok sev /\
    severity ins = sev /\
    confidence ins = sanitize_confidence (Json.get "confidence" data) /\
    tags ins = sanitize_tags (Json.get "tags" data) test /\
    recommendation ins = strip_ellipsis (pad_recommendation r) /\
    modelUsed ins = None.
Proof.
  unfold sanitize.
  destruct (cleanText (Json.get "summary" data)) as [s|e] eqn:Hs;
    [|destruct data; discriminate].
  destruct (cleanText (Json.get "recommendation" data)) as [r|e] eqn:Hr;
    [|destruct data; discriminate].
  destruct (sanitize_severity (Json.get "severity" data)) as [sev|e] eqn:Hv;
    [|destruct data; discriminate].
  intros H. exists s, r, sev.
  destruct data; try discriminate; injection H as <-; simpl; auto 10.
Qed.

Lemma sanitize_throws_on_severity data test e :
  sanitize_severity (Json.get "severity" data) = Throw e ->
  exists e', sanitize data test = Throw e'.
Proof.
  intros H. unfold sanitize.
  destruct (cleanText (Json.get "summary" data));
    destruct (cleanText (Json.get "recommendation" data));
    rewrite ?H; destruct data; eexists; reflexivity.
Qed.

Lemma clamp_bounds (c : Q) : (0 <= Qmin (Qmax c 0) 1 <= 1)%Q.
Proof.
  split.
  - apply Q.min_glb; [apply Q.le_max_r | discriminate].
  - apply Q.le_min_r.
Qed.

Lemma confidence_bounds (v : Json.value) :
  (0 <= sanitize_confidence v <= 1)%Q.
Proof.
  destruct v as [[| |c| | |]|]; simpl; try (split; discriminate).
  apply clamp_bounds.
Qed.

Lemma clamp_cases (c : Q) :
  ((c < 0)%Q -> Qmin (Qmax c 0) 1 == 0) /\
  ((0 <= c <= 1)%Q -> Qmin (Qmax c 0) 1 == c) /\
  ((1 < c)%Q -> Qmin (Qmax c 0) 1 == 1).
Proof.
  repeat split.
  - intros H. rewrite (Q.max_r c 0) by now apply Qlt_le_weak.
    apply Q.min_l. discriminate.
  - intros [H0 H1]. rewrite (Q.max_l c 0) by assumption.
    now apply Q.min_l.
  - intros H. apply Q.min_r.
    apply Qle_trans with c; [now apply Qlt_le_weak | apply Q.le_max_l].
Qed.

(** [JSON.parse] on a few texts. *)
Example parse_accepts :
  Json.parse (text_of " {'a': [1, -2.5e1, true, null], 'b': {'c': 'x\u0041\n'}} ")
  = Some (JObj [("a", JArr [JNum 1; JNum (-25); JBool true; JNull]);
                ("b", JObj [("c", JStr (String "x" (String "A" (String LF ""))))])]).
Proof. vm_compute; reflexivity. Qed.

Example parse_rejects :
  Json.parse "[1,]" = None /\ Json.parse "01" = None /\
  Json.parse "{'a': 1}" = None /\ Json.parse (text_of "{'a': 1} x") = None /\
  Json.parse "" = None.
Proof. repeat split; vm_compute; reflexivity. Qed.

(** A response wrapped in commentary: the summary is cleaned, the severity
    lower-cased, the confidence clamped, the tags derived from the test. *)
Example wrapped_response_sanitized :
  summary wrapped_insight = "Login redirect broke" /\
  severity wrapped_insight = "high" /\
  (confidence wrapped_insight == 1)%Q /\
  tags wrapped_insight = [JStr "auth"] /\
  recommendation wrapped_insight
  = " Please review the test logic and error stack for more details.".
Proof. repeat split. Qed.

(** C8: whenever the validator returns an insight, its confidence lies in
    [0,1]: a numeric [confidence] of the response is clamped (below 0 to 0,
    above 1 to 1, otherwise kept), anything else gives 0.5. *)
Theorem C8_confidence_clamped (rawJson : string) (test : Test) (ins : Insight) :
  validateAndSanitize rawJson test = Ok ins ->
  (0 <= confidence ins <= 1)%Q /\
  exists data, Json.parse (jsonStr rawJson) = Some data /\
    match Json.get "confidence" data with
    | Some (JNum c) =>
        ((c < 0)%Q -> confidence ins == 0) /\
        ((0 <= c <= 1)%Q -> confidence ins == c) /\
        ((1 < c)%Q -> confidence ins == 1)
    | _ => confidence ins = 1 # 2
    end.
Proof.
  intros H. destruct (validate_inv _ _ _ H) as (data & Hp & Hs).
  destruct (sanitize_inv _ _ _ Hs) as (s & r & sev & _ & _ & _ & _ & Hc & _).
  rewrite Hc. split; [apply confidence_bounds|].
  exists data. split; [assumption|].
  destruct (Json.get "confidence" data) as [[| |c| | |]|]; simpl; try reflexivity.
  apply clamp_cases.
Qed.

Lemma C8_confidence_clamped_witness :
  validateAndSanitize wrapped_response auth_test = Ok wrapped_insight /\
  (0 <= confidence wrapped_insight <= 1)%Q.
Proof.
  split; [vm_compute; reflexivity|].
  apply (C8_confidence_clamped wrapped_response auth_test wrapped_insight).
  vm_compute; reflexivity.
Defined.

(** C10: on a parsed response, a [severity] that is neither a string nor
    null/undefined makes the validator throw; when [severity] is absent or
    null the result carries "medium", and when it is a string the result
    carries its lower-case form if that is one of the four levels and
    "medium" otherwise. *)
Theorem C10_severity_coercion (rawJson : string) (test : Test) (data : json) :
  Json.parse (jsonStr rawJson) = Some data ->
  match Json.get "severity" data with
  | None | Some JNull =>
      forall ins, validateAndSanitize rawJson test = Ok ins -> severity ins = "medium"
  | Some (JStr s) =>
      forall ins, validateAndSanitize rawJson test = Ok ins ->
        severity ins = if existsb (String.eqb (toLowerCase s)) severities
                       then toLowerCase s else "medium"
  | Some _ => exists e, validateAndSanitize rawJson test = Throw e
  end.
Proof.
  intros Hp. rewrite (validate_parsed _ test _ Hp).
  destruct (Json.get "severity" data) as [[| | | | |]|] eqn:Hg;
    try (apply sanitize_throws_on_severity
           with (TypeError "data.severity?.toLowerCase is not a function");
         rewrite Hg; reflexivity);
    intros ins Hs;
    destruct (sanitize_inv _ _ _ Hs) as (s' & r & sev & _ & _ & Hv & Hsev & _);
    rewrite Hg in Hv; unfold sanitize_severity in Hv; congruence.
Qed.

Lemma C10_severity_coercion_witness :
  exists e, validateAndSanitize numeric_severity_response auth_test = Throw e.
Proof.
  apply (C10_severity_coercion numeric_severity_response auth_test
           (JObj [("severity", JNum 5)])).
  vm_compute; reflexivity.
Defined.

Lemma append_nonempty (s : string) (c : ascii) (t : string) :
  s ++ String c t <> "".
Proof. destruct s; discriminate. Qed.

Lemma pad_nonempty (r : string) : pad_recommendation r <> "".
Proof.
  unfold pad_recommendation.
  destruct (length (split_space r) <? 10)%nat eqn:Hlen.
  - apply append_nonempty.
  - intros ->. discriminate.
Qed.

Lemma strip_ellipsis_nonempty (s : string) : s <> "" -> strip_ellipsis s <> "".
Proof.
  intros H. unfold strip_ellipsis.
  destruct (endsWith s "..."); [apply append_nonempty | assumption].
Qed.

Lemma or_default_truthy (v : Json.value) (dflt : string) :
  dflt <> "" -> Json.truthy (Some (or_default v dflt)) = true.
Proof.
  intros Hd. unfold or_default.
  assert (Hdflt : Json.truthy (Some (JStr dflt)) = true).
  { simpl. destruct (String.eqb_spec dflt ""); [contradiction | reflexivity]. }
  destruct (Json.truthy v) eqn:Hv; [|assumption].
  destruct v as [x|]; [exact Hv | assumption].
Qed.

Lemma or_default_text (v : Json.value) (dflt : string) :
  cleanable v = true -> or_default v dflt = JStr (text_or v dflt).
Proof.
  unfold cleanable, or_default, text_or.
  destruct v as [[|b|q|s|l|ms]|]; cbn [Json.truthy negb]; try discriminate; try reflexivity.
  - now intros ->%negb_true_iff.
  - now intros ->%negb_true_iff.
  - intros _. now destruct (String.eqb s "").
Qed.

Lemma text_or_nonempty (v : Json.value) (dflt : string) :
  dflt <> "" -> text_or v dflt <> "".
Proof.
  intros Hd. unfold text_or.
  destruct v as [[| | |s| |]|]; try assumption.
  destruct (String.eqb_spec s ""); assumption.
Qed.

Lemma nonempty_text_or (v : Json.value) (dflt : string) :
  dflt <> "" -> nonempty_text (Some (JStr (text_or v dflt))) = true.
Proof.
  intros Hd. cbn [nonempty_text]. apply negb_true_iff, String.eqb_neq.
  now apply text_or_nonempty.
Qed.

Lemma severity_in_range (v : Json.value) (sev : string) :
  sanitize_severity v = Ok sev -> In sev severities.
Proof.
  assert (Hmedium : In "medium" severities) by (simpl; tauto).
  destruct v as [[| | |s| |]|]; unfold sanitize_severity; try discriminate;
    try (intros [= <-]; exact Hmedium).
  intros [= <-].
  change (In (if existsb (String.eqb (toLowerCase s)) severities
              then toLowerCase s else "medium") severities).
  destruct (existsb (String.eqb (toLowerCase s)) severities) eqn:Hex.
  - apply existsb_exists in Hex as (x & Hin & Heq).
    apply String.eqb_eq in Heq. now rewrite Heq.
  - exact Hmedium.
Qed.

Lemma slice0_length {A} (n : nat) (l : list A) : (length (slice0 n l) <= n)%nat.
Proof. unfold slice0. rewrite length_firstn. lia. Qed.

Lemma tags_length (v : Json.value) (test : Test) :
  (length (sanitize_tags v test) <= 5)%nat.
Proof.
  assert (Hd : (length (map JStr (deriveTags (err_message test) (title test))) <= 5)%nat).
  { rewrite length_map. unfold deriveTags.
    etransitivity; [apply slice0_length | lia]. }
  destruct v as [[| | | |[|x l]|]|]; unfold sanitize_tags; try exact Hd.
  apply slice0_length.
Qed.

Lemma cleanText_text (v : Json.value) :
  cleanable v = true -> cleanText v = Ok (clean (text_or v "")).
Proof.
  unfold cleanText, cleanable, text_or.
  destruct v as [[|b|q|s|l|ms]|]; cbn [Json.truthy negb]; try discriminate; try reflexivity.
  - now intros ->%negb_true_iff.
  - now intros ->%negb_true_iff.
  - intros _. destruct (String.eqb_spec s "") as [->|_]; reflexivity.
Qed.

Lemma severity_value (v : Json.value) :
  lowerable v = true ->
  sanitize_severity v
  = Ok match v with
       | Some (JStr s) =>
           if existsb (String.eqb (toLowerCase s)) severities then toLowerCase s
           else "medium"
       | _ => "medium"
       end.
Proof.
  destruct v as [[| | |s| |]|]; simpl; intros H; try discriminate; reflexivity.
Qed.

(** C3, as the code has it.  Take a response whose brace span (the whole
    response when there is none) parses to an object in which the seven text
    properties are strings or falsy and [severity] is a string, null or
    absent.  The validator returns a record, and every field of it is
    determined: each of humanError, testRootCause, productRootCause,
    bugEffect and inferredExpected is the supplied string when that is not
    empty and its documented default otherwise; the summary is the first 15
    words of the cleaned supplied summary, or its default when that is
    empty; the recommendation is the cleaned supplied one, padded and with a
    trailing ellipsis replaced; severity, confidence and tags are the
    supplied values coerced, or their defaults; [modelUsed] is left unset.
    Hence the seven texts are strings of at least one character, the
    severity is one of the four levels, the confidence is in [0,1] and there
    are at most five tags. *)
Theorem C3_validator_defaults (rawJson : string) (test : Test)
    (members : list (string * json)) :
  Json.parse (jsonStr rawJson) = Some (JObj members) ->
  forallb (fun k => cleanable (Json.get k (JObj members))) text_keys = true ->
  lowerable (Json.get "severity" (JObj members)) = true ->
  exists ins, validateAndSanitize rawJson test = Ok ins /\
    summary ins
    = text_or (Some (JStr (join " " (slice0 15 (split_space
                 (clean (text_or (Json.get "summary" (JObj members)) "")))))))
              "Investigate failure reason." /\
    humanError ins
    = Some (JStr (text_or (Json.get "humanError" (JObj members))
                    "An error occurred during the test execution.")) /\
    testRootCause ins
    = Some (JStr (text_or (Json.get "testRootCause" (JObj members))
                    "Assertion or selector failure detected in test code.")) /\
    productRootCause ins
    = Some (JStr (text_or (Json.get "productRootCause" (JObj members))
                    "Possible defect in application logic or responsiveness.")) /\
    bugEffect ins
    = Some (JStr (text_or (Json.get "bugEffect" (JObj members))
                    "User flow is blocked or behavior is inconsistent.")) /\
    inferredExpected ins
    = Some (JStr (text_or (Json.get "inferredExpected" (JObj members))
                    "The application should behave as defined in the test requirement.")) /\
    recommendation ins
    = strip_ellipsis (pad_recommendation
        (clean (text_or (Json.get "recommendation" (JObj members)) ""))) /\
    severity ins
    = match Json.get "severity" (JObj members) with
      | Some (JStr s) =>
          if existsb (String.eqb (toLowerCase s)) severities then toLowerCase s
          else "medium"
      | _ => "medium"
      end /\
    confidence ins
    = match Json.get "confidence" (JObj members) with
      | Some (JNum c) => Qmin (Qmax c 0) 1
      | _ => 1 # 2
      end /\
    tags ins
    = match Json.get "tags" (JObj members) with
      | Some (JArr (x :: l)) => slice0 5 (x :: l)
      | _ => map JStr (deriveTags (err_message test) (title test))
      end /\
    modelUsed ins = None /\
    summary ins <> "" /\
    nonempty_text (humanError ins) = true /\
    nonempty_text (testRootCause ins) = true /\
    nonempty_text (productRootCause ins) = true /\
    nonempty_text (bugEffect ins) = true /\
    nonempty_text (inferredExpected ins) = true /\
    recommendation ins <> "" /\
    In (severity ins) severities /\
    (0 <= confidence ins <= 1)%Q /\
    (length (tags ins) <= 5)%nat.
Proof.
  intros Hp Htext Hsev.
  cbn [forallb text_keys] in Htext.
  repeat (apply andb_true_iff in Htext as [?H Htext]).
  rewrite (validate_parsed _ test _ Hp).
  unfold sanitize.
  rewrite (cleanText_text (Json.get "summary" (JObj members))) by assumption.
  rewrite (cleanText_text (Json.get "recommendation" (JObj members))) by assumption.
  rewrite (severity_value _ Hsev).
  eexists. split; [reflexivity|].
  cbn [summary humanError testRootCause productRootCause bugEffect
       inferredExpected recommendation severity confidence tags modelUsed].
  rewrite !or_default_text by assumption.
  assert (Hsummary : forall s,
            (if String.eqb s "" then "Investigate failure reason." else s)
            = text_or (Some (JStr s)) "Investigate failure reason.") by reflexivity.
  rewrite Hsummary.
  repeat (split; [reflexivity|]).
  split; [now apply text_or_nonempty|].
  repeat (split; [now apply nonempty_text_or|]).
  split; [apply strip_ellipsis_nonempty, pad_nonempty|].
  split.
  { apply severity_in_range with (Json.get "severity" (JObj members)).
    now apply severity_value. }
  split; [apply confidence_bounds|].
  apply (tags_length (Json.get "tags" (JObj members)) test).
Qed.

Lemma C3_validator_defaults_witness :
  exists ins, validateAndSanitize partial_response auth_test = Ok ins /\
    summary ins = "Login redirect broke" /\
    humanError ins = Some (JStr "Clicked before the page was ready") /\
    bugEffect ins = Some (JStr "User flow is blocked or behavior is inconsistent.") /\
    severity ins = "high" /\
    (confidence ins == 1)%Q /\
    tags ins = [JStr "auth"].
Proof.
  destruct (C3_validator_defaults partial_response auth_test partial_members)
    as (ins & Hv & Hsum & Hhuman & _ & _ & Heffect & _ & _ & Hsev & Hconf & Htags & _);
    [vm_compute; reflexivity | vm_compute; reflexivity | vm_compute; reflexivity |].
  exists ins. split; [exact Hv|].
  split; [exact Hsum|]. split; [exact Hhuman|]. split; [exact Heffect|].
  split; [exact Hsev|]. split; [rewrite Hconf; vm_compute; reflexivity|].
  exact Htags.
Defined.

(** C3 fails as stated.  On the response [{}] and a test that hits no
    keyword bucket the validator returns a record with an empty [tags] and
    no [modelUsed].  On a response whose [humanError] is an empty array the
    record carries that empty array.  On a response whose [summary] is a
    number the validator returns no record but raises a [TypeError], and on
    a response that holds two objects it throws although each of them
    parses. *)
Lemma C3_counterexample :
  Json.parse (jsonStr empty_object_response) = Some (JObj []) /\
  (exists ins, validateAndSanitize empty_object_response plain_test = Ok ins /\
     tags ins = [] /\ modelUsed ins = None) /\
  Json.parse (jsonStr array_field_response) = Some (JObj [("humanError", JArr [])]) /\
  (exists ins, validateAndSanitize array_field_response plain_test = Ok ins /\
     humanError ins = Some (JArr [])) /\
  Json.parse (jsonStr numeric_summary_response) = Some (JObj [("summary", JNum 5)]) /\
  validateAndSanitize numeric_summary_response plain_test
    = Throw (TypeError "replace is not a function") /\
  Json.parse (text_of "{'summary': 'x'}") = Some (JObj [("summary", JStr "x")]) /\
  validateAndSanitize two_objects_response plain_test
    = Throw (Error "Malformed JSON response").
Proof.
  split; [vm_compute; reflexivity|].
  split; [eexists; split; [vm_compute; reflexivity | split; reflexivity]|].
  split; [vm_compute; reflexivity|].
  split; [eexists; split; [vm_compute; reflexivity | reflexivity]|].
  repeat split; vm_compute; reflexivity.
Qed.

(** *** Extraction of the JSON text *)

Lemma upto_last_brace_none (post : string) :
  occurs "}" post = false -> upto_last_brace post = None.
Proof.
  induction post as [|c post IH]; simpl; [reflexivity|].
  intros H. apply orb_false_iff in H as [Hc Hpost].
  now rewrite (IH Hpost), Hc.
Qed.

Lemma upto_last_brace_span (mid post : string) :
  occurs "}" post = false ->
  upto_last_brace (mid ++ String "}" post) = Some (mid ++ "}").
Proof.
  intros Hpost. induction mid as [|c mid IH]; simpl.
  - now rewrite (upto_last_brace_none _ Hpost).
  - now rewrite IH.
Qed.

Lemma match_braces_skip (pre rest : string) :
  occurs "{" pre = false -> match_braces (pre ++ rest) = match_braces rest.
Proof.
  induction pre as [|c pre IH]; simpl; [reflexivity|].
  intros H. apply orb_false_iff in H as [Hc Hpre].
  rewrite Hc. now apply IH.
Qed.

Lemma sanitize_raises_TypeError data test e :
  sanitize data test = Throw e -> exists msg, e = TypeError msg.
Proof.
  assert (Hclean : forall v e', cleanText v = Throw e' -> exists msg, e' = TypeError msg).
  { intros v e'. unfold cleanText.
    destruct (Json.truthy v); [|discriminate].
    destruct v as [[| | | | |]|]; intros [= <-]; eexists; reflexivity. }
  assert (Hsev : forall v e', sanitize_severity v = Throw e' -> exists msg, e' = TypeError msg).
  { intros v e'. destruct v as [[| | | | |]|]; unfold sanitize_severity;
      intros [= <-]; eexists; reflexivity. }
  unfold sanitize.
  destruct (cleanText (Json.get "summary" data)) as [s|e1] eqn:H1.
  2:{ destruct (Hclean _ _ H1) as [m ->].
      destruct data; intros [= <-]; eexists; reflexivity. }
  destruct (cleanText (Json.get "recommendation" data)) as [r|e2] eqn:H2.
  2:{ destruct (Hclean _ _ H2) as [m ->].
      destruct data; intros [= <-]; eexists; reflexivity. }
  destruct (sanitize_severity (Json.get "severity" data)) as [sev|e3] eqn:H3.
  2:{ destruct (Hsev _ _ H3) as [m ->].
      destruct data; intros [= <-]; eexists; reflexivity. }
  destruct data; intros [= <-]; eexists; reflexivity.
Qed.

(** C6, as the code has it: the text handed to the parser is the span from
    the first opening brace to the last closing brace of the response (the
    whole response when there is no such span), so commentary before an
    object is dropped when it has no opening brace and commentary after it
    when it has no closing brace; the validator throws "Malformed JSON
    response" exactly when [JSON.parse] rejects that text. *)
Theorem C6_brace_span_extraction (rawJson : string) (test : Test) :
  (validateAndSanitize rawJson test = Throw (Error "Malformed JSON response")
   <-> Json.parse (jsonStr rawJson) = None) /\
  (forall pre mid post : string,
     rawJson = pre ++ String "{" (mid ++ String "}" post) ->
     occurs "{" pre = false ->
     occurs "}" post = false ->
     jsonStr rawJson = String "{" (mid ++ "}")).
Proof.
  split.
  - unfold validateAndSanitize.
    destruct (Json.parse (jsonStr rawJson)) as [data|]; [|tauto].
    split; [|discriminate].
    intros H. destruct (sanitize_raises_TypeError _ _ _ H) as [m Hm]. discriminate.
  - intros pre mid post -> Hpre Hpost. unfold jsonStr.
    rewrite (match_braces_skip _ _ Hpre). simpl.
    now rewrite (upto_last_brace_span _ _ Hpost).
Qed.

Lemma C6_brace_span_extraction_witness :
  jsonStr wrapped_response
  = text_of "{'summary': 'Login  redirect broke', 'severity': 'HIGH', 'confidence': 1.5}".
Proof.
  apply (proj2 (C6_brace_span_extraction wrapped_response auth_test)
           "Here is the analysis: "
           (text_of "'summary': 'Login  redirect broke', 'severity': 'HIGH', 'confidence': 1.5")
           " Hope it helps");
    vm_compute; reflexivity.
Defined.

(** C6 fails as stated.  In a response that holds two objects the first
    balanced object is valid JSON, yet the validator throws: the span it
    parses runs to the last closing brace.  And the response [5] holds no
    object at all, yet the validator returns an insight. *)
Lemma C6_counterexample :
  spec_first_balanced_object two_objects_response = Some (text_of "{'summary': 'x'}") /\
  Json.parse (text_of "{'summary': 'x'}") = Some (JObj [("summary", JStr "x")]) /\
  jsonStr two_objects_response = two_objects_response /\
  validateAndSanitize two_objects_response plain_test
    = Throw (Error "Malformed JSON response") /\
  spec_first_balanced_object "5" = None /\
  is_ok (validateAndSanitize "5" plain_test) = true.
Proof. repeat split; vm_compute; reflexivity. Qed.

End ValidatorFacts.

(** ** The inference invoker *)

Module InvokerFacts.

Import Str Enrich Pipeline Examples.
Local Open Scope list_scope.

Section WithProvider.

Variable buildPrompt : Test -> string.
Variable chatCompletion : HfInference -> Trace -> string -> string -> option string.

Lemma requested_app (a b : Trace) :
  requested (a ++ b) = (requested a ++ requested b)%list.
Proof.
  induction a as [|[ms|m p] a IH]; simpl; [reflexivity|assumption|].
  now rewrite IH.
Qed.

Lemma requested_cooldown (first model : string) (tr : Trace) :
  requested (cooldown first model tr) = requested tr.
Proof.
  unfold cooldown. destruct (String.eqb model first); [reflexivity|].
  rewrite requested_app. simpl. apply app_nil_r.
Qed.

Lemma requested_asked (first : string) (models : list string) (prompt : string)
    (tr : Trace) :
  requested (asked first models prompt tr) = (requested tr ++ models)%list.
Proof.
  revert tr. induction models as [|m rest IH]; intros tr; simpl.
  - now rewrite app_nil_r.
  - rewrite IH, requested_app, requested_cooldown. simpl.
    now rewrite <- app_assoc.
Qed.

Lemma asked_app (first : string) (pre post : list string) (prompt : string)
    (tr : Trace) :
  asked first (pre ++ post) prompt tr
  = asked first post prompt (asked first pre prompt tr).
Proof.
  revert tr. induction pre as [|m pre IH]; intros tr; simpl; [reflexivity|].
  apply IH.
Qed.

(** The trace and the outcome of one attempt. *)
Lemma attempt_trace client first model prompt test tr :
  fst (attempt chatCompletion client first model prompt test tr)
  = (cooldown first model tr ++ [ChatCompletion model prompt])%list.
Proof.
  unfold attempt.
  destruct (chatCompletion client (cooldown first model tr) model prompt) as [c|];
    [|reflexivity].
  destruct (String.eqb c ""); [reflexivity|].
  destruct (validateAndSanitize c test); reflexivity.
Qed.

Lemma attempt_ok client first model prompt test tr tr' ins :
  attempt chatCompletion client first model prompt test tr = (tr', Ok ins) ->
  exists content enriched,
    chatCompletion client (cooldown first model tr) model prompt = Some content /\
    content <> "" /\
    validateAndSanitize content test = Ok enriched /\
    ins = set_modelUsed model enriched.
Proof.
  unfold attempt.
  destruct (chatCompletion client (cooldown first model tr) model prompt) as [c|];
    [|discriminate].
  destruct (String.eqb_spec c ""); [discriminate|].
  destruct (validateAndSanitize c test) as [enriched|e] eqn:Hv; [|discriminate].
  intros [= _ <-]. now exists c, enriched.
Qed.

Lemma attempt_throw client first model prompt test tr tr' e :
  attempt chatCompletion client first model prompt test tr = (tr', Throw e) ->
  accepted test (chatCompletion client (cooldown first model tr) model prompt) = false.
Proof.
  unfold attempt, accepted.
  destruct (chatCompletion client (cooldown first model tr) model prompt) as [c|];
    [|reflexivity].
  destruct (String.eqb c ""); [reflexivity|].
  destruct (validateAndSanitize c test); [discriminate | reflexivity].
Qed.

(** The loop over the models: it stops at the first accepted response and
    throws after the last model only. *)
Lemma tryModels_spec client first models prompt test tr :
  match tryModels chatCompletion client first models prompt test tr with
  | (tr', Ok ins) =>
      exists pre m post content enriched,
        models = (pre ++ m :: post)%list /\
        all_rejected chatCompletion client first pre prompt test tr /\
        chatCompletion client (cooldown first m (asked first pre prompt tr)) m prompt
          = Some content /\
        content <> "" /\
        validateAndSanitize content test = Ok enriched /\
        ins = set_modelUsed m enriched /\
        tr' = asked first (pre ++ [m]) prompt tr
  | (tr', Throw e) =>
      all_rejected chatCompletion client first models prompt test tr /\
      e = Error "All AI models failed" /\
      tr' = asked first models prompt tr
  end.
Proof.
  revert tr. induction models as [|m rest IH]; intros tr.
  - simpl. auto.
  - cbn [tryModels].
    pose proof (attempt_trace client first m prompt test tr) as Htr.
    destruct (attempt chatCompletion client first m prompt test tr)
      as [tr1 [ins|e]] eqn:Hatt; simpl in Htr; subst tr1.
    + destruct (attempt_ok _ _ _ _ _ _ _ _ Hatt) as (c & enriched & Hc & Hne & Hv & ->).
      exists [], m, rest, c, enriched. simpl. auto 10.
    + apply attempt_throw in Hatt.
      specialize (IH (cooldown first m tr ++ [ChatCompletion m prompt])%list).
      destruct (tryModels chatCompletion client first rest prompt test
                  (cooldown first m tr ++ [ChatCompletion m prompt])%list)
        as [tr' [ins|e']].
      * destruct IH as (pre & m' & post & c & enriched & -> & Hrej & Hc & Hne & Hv & -> & ->).
        exists (m :: pre), m', post, c, enriched. simpl. auto 10.
      * destruct IH as (Hrej & -> & ->). simpl. auto.
Qed.

(** C5: with a provider client, [getAiInsight] asks the models of the
    priority list in list order; it returns at the first model whose
    response is accepted (every earlier model having failed), the insight
    being the validator's output stamped with that model; it throws, with
    "All AI models failed", only after every model of the list has been
    asked and has failed. *)
Theorem C5_ordered_model_fallback (client : HfInference) (test : Test) (tr : Trace) :
  let first := first_model CONFIG_models in
  let prompt := buildPrompt test in
  match getAiInsight buildPrompt chatCompletion (Some client) test tr with
  | (tr', Ok ins) =>
      exists pre m post content enriched,
        CONFIG_models = (pre ++ m :: post)%list /\
        all_rejected chatCompletion client first pre prompt test tr /\
        chatCompletion client (cooldown first m (asked first pre prompt tr)) m prompt
          = Some content /\
        content <> "" /\
        validateAndSanitize content test = Ok enriched /\
        ins = set_modelUsed m enriched /\
        modelUsed ins = Some m /\
        requested tr' = (requested tr ++ pre ++ [m])%list
  | (tr', Throw e) =>
      all_rejected chatCompletion client first CONFIG_models prompt test tr /\
      e = Error "All AI models failed" /\
      requested tr' = (requested tr ++ CONFIG_models)%list
  end.
Proof.
  intros first prompt. unfold getAiInsight, getAiInsightWith.
  pose proof (tryModels_spec client first CONFIG_models prompt test tr) as H.
  fold first. fold prompt.
  destruct (tryModels chatCompletion client first CONFIG_models prompt test tr)
    as [tr' [ins|e]].
  - destruct H as (pre & m & post & c & enriched & Hm & Hrej & Hc & Hne & Hv & -> & ->).
    exists pre, m, post, c, enriched.
    repeat (split; [assumption || reflexivity|]).
    apply requested_asked.
  - destruct H as (Hrej & -> & ->).
    repeat (split; [assumption || reflexivity|]).
    apply requested_asked.
Qed.

(** C7: when none of the three environment variables holds a non-empty
    value there is no client, and [getAiInsight] throws "API Key missing"
    at once: the trace is the one it was called with, so no request has
    been issued. *)
Theorem C7_missing_credential_fails_fast (env : Env) (test : Test) (tr : Trace) :
  nonempty (HUGGINGFACE_API_TOKEN env) = false ->
  nonempty (env_HF_API_KEY env) = false ->
  nonempty (HUGGINGFACEHUB_API_TOKEN env) = false ->
  hf env = None /\
  getAiInsight buildPrompt chatCompletion (hf env) test tr
    = (tr, Throw (Error "API Key missing")).
Proof.
  intros H1 H2 H3.
  assert (Hhf : hf env = None).
  { unfold hf, HF_API_KEY, or_else. rewrite H1, H2.
    destruct (HUGGINGFACEHUB_API_TOKEN env) as [k|]; [|reflexivity].
    now rewrite H3. }
  split; [assumption|]. now rewrite Hhf.
Qed.

End WithProvider.

Lemma C7_missing_credential_fails_fast_witness :
  hf no_credential = None /\
  getAiInsight title_prompt offline (hf no_credential) auth_test []
    = ([], Throw (Error "API Key missing")).
Proof.
  apply (C7_missing_credential_fails_fast title_prompt offline no_credential auth_test []);
    reflexivity.
Defined.

(** The first model times out, the second answers: one pause, two requests
    in list order, and the insight carries the second model's name. *)
Example second_model_answers :
  getAiInsight title_prompt second_answers (Some some_client) auth_test []
  = ([ChatCompletion "meta-llama/Meta-Llama-3-8B-Instruct" "[auth] login redirects";
      Sleep 2000;
      ChatCompletion "mistralai/Mixtral-8x7B-Instruct-v0.1" "[auth] login redirects"],
     Ok (set_modelUsed "mistralai/Mixtral-8x7B-Instruct-v0.1" wrapped_insight)).
Proof. vm_compute; reflexivity. Qed.

End InvokerFacts.

(** ** The orchestrator *)

Module OrchestratorFacts.

Import Str Enrich Pipeline Examples.
Local Open Scope list_scope.

(** Induction on suites, with the hypothesis for every nested suite. *)
Lemma Suite_nested_ind (P : Suite -> Prop) :
  (forall name tests suites, Forall P suites -> P (mkSuite name tests suites)) ->
  forall s, P s.
Proof.
  intros step. fix IH 1. intros [name tests suites].
  apply step. induction suites as [|s' rest IHrest]; constructor.
  - apply IH.
  - exact IHrest.
Qed.

(** The candidates are the references of the tree, in order, that point to
    a failed test without annotation. *)
Lemma processSuite_filter (objects : gmap loc Test) (s : Suite) :
  processSuite objects s = List.filter (candidate_at objects) (refs_of_suite s).
Proof.
  induction s as [name tests suites IH] using Suite_nested_ind.
  simpl. rewrite List.filter_app. f_equal.
  induction IH as [|s' rest Hs' _ IHrest]; [reflexivity|].
  rewrite List.filter_app, Hs', IHrest. reflexivity.
Qed.

Lemma candidates_filter (objects : gmap loc Test) (suites : list Suite) :
  candidates_of objects suites = List.filter (candidate_at objects) (refs_of suites).
Proof.
  induction suites as [|s rest IH]; simpl; [reflexivity|].
  now rewrite List.filter_app, processSuite_filter, IH.
Qed.

Lemma filter_nil {A} (f : A -> bool) (l : list A) :
  (forall x, In x l -> f x = false) -> List.filter f l = [].
Proof.
  induction l as [|a l IH]; simpl; intros H; [reflexivity|].
  rewrite (H a) by now left. apply IH. intros x Hx. apply H. now right.
Qed.

Lemma annotated_not_candidate (i : Insight) (t : Test) :
  is_candidate (set_ai i t) = false.
Proof. unfold is_candidate. simpl. apply andb_false_r. Qed.

Section WithProvider.

Variable buildPrompt : Test -> string.
Variable chatCompletion : HfInference -> Trace -> string -> string -> option string.

Abbreviation enrich := (enrichCandidates buildPrompt chatCompletion).
Abbreviation invoke := (getAiInsight buildPrompt chatCompletion).
Abbreviation process := (processReport buildPrompt chatCompletion).

Lemma enrich_app hf (a b : list loc) (objects : gmap loc Test) (tr : Trace) :
  enrich hf (a ++ b) objects tr
  = let '(objects1, tr1) := enrich hf a objects tr in enrich hf b objects1 tr1.
Proof.
  revert objects tr. induction a as [|l a IH]; intros objects tr; simpl.
  - reflexivity.
  - destruct (objects !! l) as [test|]; [|apply IH].
    destruct (invoke hf test tr) as [tr' r]. apply IH.
Qed.

(** The loop writes the candidates only. *)
Lemma enrich_untouched hf (cands : list loc) (objects : gmap loc Test)
    (tr : Trace) (l : loc) :
  ~ In l cands -> fst (enrich hf cands objects tr) !! l = objects !! l.
Proof.
  revert objects tr. induction cands as [|l0 cands IH]; intros objects tr Hl; simpl.
  - reflexivity.
  - assert (l0 <> l) by (intros ->; apply Hl; now left).
    assert (~ In l cands) by (intros Hin; apply Hl; now right).
    destruct (objects !! l0) as [test|]; [|now apply IH].
    destruct (invoke hf test tr) as [tr' r].
    rewrite IH by assumption. now apply lookup_insert_ne.
Qed.

(** After the loop, a test that is still a candidate was one before and
    was not in the list. *)
Lemma enrich_no_new_candidates hf (cands : list loc) (objects : gmap loc Test)
    (tr : Trace) (l : loc) :
  candidate_at (fst (enrich hf cands objects tr)) l = true ->
  candidate_at objects l = true /\ ~ In l cands.
Proof.
  revert objects tr. induction cands as [|l0 cands IH]; intros objects tr; simpl.
  - intros H. split; [assumption | tauto].
  - destruct (objects !! l0) as [test|] eqn:Hl0.
    + destruct (invoke hf test tr) as [tr' r].
      intros H. apply IH in H as [Hc Hnot].
      unfold candidate_at in Hc.
      destruct (decide (l0 = l)) as [->|Hne].
      * rewrite lookup_insert_eq, annotated_not_candidate in Hc. discriminate.
      * rewrite lookup_insert_ne in Hc by assumption.
        split; [exact Hc | intros [?|?]; contradiction].
    + intros H. apply IH in H as [Hc Hnot].
      split; [assumption|]. intros [->|?]; [|contradiction].
      unfold candidate_at in Hc. rewrite Hl0 in Hc. discriminate.
Qed.

Lemma no_candidates_after_enrich hf (suites : list Suite) (objects : gmap loc Test)
    (tr : Trace) :
  candidates_of (fst (enrich hf (candidates_of objects suites) objects tr)) suites = [].
Proof.
  rewrite (candidates_filter (fst _)). apply filter_nil. intros l Hl.
  destruct (candidate_at _ l) eqn:Hc; [|reflexivity].
  apply enrich_no_new_candidates in Hc as [Hc Hnot].
  exfalso. apply Hnot. rewrite candidates_filter.
  apply List.filter_In. now split.
Qed.

(** C2: a candidate is a failed test without [ai]; after the orchestrator
    has processed a report no candidate is left, and a second run on the
    report it produced (with whatever credential) issues no request, does
    not write, and returns the report unchanged. *)
Theorem C2_enrichment_idempotent (hf hf' : option HfInference) (r : Report) (tr : Trace) :
  (forall l, In l (candidates r) ->
     exists test, objects r !! l = Some test /\
       (fail test = true \/ state test = Some "failed") /\ ai test = None) /\
  let '(r1, tr1, _) := process hf r tr in
  candidates r1 = [] /\ process hf' r1 tr1 = (r1, tr1, false).
Proof.
  split.
  - intros l Hl. unfold candidates in Hl. rewrite candidates_filter in Hl.
    apply List.filter_In in Hl as [_ Hc]. unfold candidate_at in Hc.
    destruct (objects r !! l) as [test|]; [|discriminate].
    exists test. split; [reflexivity|].
    unfold is_candidate in Hc. apply andb_true_iff in Hc as [Hf Ha].
    split.
    + apply orb_true_iff in Hf as [Hf|Hf]; [now left | right].
      destruct (state test) as [st|]; [|discriminate].
      apply String.eqb_eq in Hf. now subst.
    + destruct (ai test); [discriminate | reflexivity].
  - unfold processReport.
    destruct (candidates r) as [|l cands] eqn:Hcands.
    + split; [assumption|]. now rewrite Hcands.
    + pose proof (no_candidates_after_enrich hf (results r) (objects r) tr) as Hnone.
      fold (candidates r) in Hnone. rewrite Hcands in Hnone.
      destruct (enrich hf (l :: cands) (objects r) tr) as [objects' tr'].
      unfold candidates. simpl in *. rewrite Hnone. split; reflexivity.
Qed.

(** C4, as the code has it: when [getAiInsight] throws for a candidate
    (every model failed, or there is no client), the orchestrator attaches
    the fallback insight, which has confidence 0, severity "medium" and
    the tag "ai-unavailable" first; for the test titled "[auth] login
    redirects" with error "Timed out retrying after 4000ms" the tags are
    "ai-unavailable" and "auth".  The candidate is [l], reached after the
    candidates [pre]; it is not listed a second time. *)
Theorem C4_fallback_insight (hf : option HfInference) (r : Report) (tr : Trace)
    (pre : list loc) (l : loc) (post : list loc)
    (objects1 : gmap loc Test) (tr1 tr2 : Trace) (test : Test) (e : error) :
  candidates r = pre ++ l :: post ->
  enrich hf pre (objects r) tr = (objects1, tr1) ->
  objects1 !! l = Some test ->
  invoke hf test tr1 = (tr2, Throw e) ->
  ~ In l post ->
  (exists test', objects (fst (fst (process hf r tr))) !! l = Some test' /\
     ai test' = Some (getFallbackInsight test)) /\
  confidence (getFallbackInsight test) = 0%Q /\
  severity (getFallbackInsight test) = "medium" /\
  (exists derived, tags (getFallbackInsight test) = JStr "ai-unavailable" :: derived) /\
  (title test = Some "[auth] login redirects" ->
   err_message test = Some "Timed out retrying after 4000ms" ->
   tags (getFallbackInsight test) = [JStr "ai-unavailable"; JStr "auth"]).
Proof.
  intros Hcands Hpre Hl Hthrow Hpost.
  split; [|split; [reflexivity|split; [reflexivity|split]]].
  - exists (set_ai (getFallbackInsight test) test). split; [|reflexivity].
    unfold processReport. rewrite Hcands.
    destruct (pre ++ l :: post) as [|l0 rest] eqn:Hlist;
      [destruct pre; discriminate|].
    rewrite <- Hlist. rewrite enrich_app, Hpre. simpl.
    rewrite Hl, Hthrow.
    pose proof (enrich_untouched hf post
      (<[l:=set_ai (getFallbackInsight test) test]> objects1) tr2 l Hpost) as Hu.
    destruct (enrich hf post _ tr2) as [objects' tr']. simpl in *.
    rewrite Hu. apply lookup_insert_eq.
  - eexists. reflexivity.
  - intros Ht Hm. unfold getFallbackInsight. rewrite Ht, Hm. reflexivity.
Qed.

End WithProvider.

(** A run without credential on the scenario's report, then a second run
    with a client and a provider that answers: the first attaches the
    fallback and writes, the second asks nothing and does not write. *)
Example second_run_is_idle :
  let '(r1, tr1, written1) :=
    processReport title_prompt offline (hf no_credential) auth_report [] in
  written1 = true /\ tr1 = [] /\ candidates r1 = [] /\
  processReport title_prompt second_answers (Some some_client) r1 tr1 = (r1, [], false).
Proof. vm_compute. repeat split. Qed.

Lemma C4_fallback_insight_witness :
  (exists test',
     objects (fst (fst (processReport title_prompt offline (hf no_credential)
                          auth_report []))) !! 0%nat = Some test' /\
     ai test' = Some (getFallbackInsight auth_test)) /\
  confidence (getFallbackInsight auth_test) = 0%Q /\
  severity (getFallbackInsight auth_test) = "medium" /\
  (exists derived, tags (getFallbackInsight auth_test) = JStr "ai-unavailable" :: derived) /\
  (title auth_test = Some "[auth] login redirects" ->
   err_message auth_test = Some "Timed out retrying after 4000ms" ->
   tags (getFallbackInsight auth_test) = [JStr "ai-unavailable"; JStr "auth"]).
Proof.
  apply (C4_fallback_insight title_prompt offline (hf no_credential) auth_report []
           [] 0%nat [] (objects auth_report) [] [] auth_test (Error "API Key missing")).
  - vm_compute; reflexivity.
  - reflexivity.
  - vm_compute; reflexivity.
  - reflexivity.
  - simpl; tauto.
Defined.

(** C4 fails as stated on the scenario: with no credential the orchestrator
    attaches a fallback whose tags are "ai-unavailable" and "auth"; "timing"
    is not among them, since the text holds "timed out" and neither
    "timeout" nor "waited". *)
Lemma C4_counterexample :
  exists test' insight,
    objects (fst (fst (processReport title_prompt offline (hf no_credential)
                         auth_report []))) !! 0%nat = Some test' /\
    ai test' = Some insight /\
    confidence insight = 0%Q /\
    severity insight = "medium" /\
    tags insight = [JStr "ai-unavailable"; JStr "auth"] /\
    ~ In (JStr "timing") (tags insight).
Proof.
  exists (set_ai (getFallbackInsight auth_test) auth_test), (getFallbackInsight auth_test).
  split; [vm_compute; reflexivity|].
  repeat (split; [reflexivity|]).
  intros [H|[H|[]]]; discriminate.
Qed.

End OrchestratorFacts.

(** ** The fragment merge *)

Module MergeFacts.

Import Merge Examples.
Local Open Scope list_scope.
Local Open Scope Z_scope.

Lemma mergeAll_sums (files : list (option Fragment)) (master : Master) :
  forallb well_formed files = true ->
  exists m, mergeAll master files = Ok m /\
    counters (stats m) = map (fun '(a, b) => a + b)
                             (combine (counters (stats master)) (totals files)) /\
    passPercent (stats m) = passPercent (stats master) /\
    pendingPercent (stats m) = pendingPercent (stats master).
Proof.
  revert master. induction files as [|file rest IH]; intros master Hwf.
  - exists master. split; [reflexivity|]. split; [|split; reflexivity].
    unfold counters, totals, total. simpl. now rewrite !Z.add_0_r.
  - simpl in Hwf. apply andb_true_iff in Hwf as [Hfile Hrest].
    destruct file as [[[st|] res mt]|]; try discriminate.
    cbn [mergeAll mergeOne f_stats].
    match goal with
    | |- context [mergeAll ?m1 rest] => destruct (IH m1 Hrest) as (m & -> & Hc & Hp & Hq)
    end.
    exists m. split; [reflexivity|]. split; [|split; assumption].
    rewrite Hc. unfold counters, totals, total. simpl.
    repeat (f_equal; try lia).
Qed.

(** C1, as the code has it: for a non-empty list of report parts that all
    parse and carry a [stats] block, [getResults] returns a merged report
    whose eight additive counters are the sums over the parts (an absent
    counter counting for 0), and whose [passPercent] is
    [passes / testsRegistered * 100] of the merged counters when the merged
    [testsRegistered] is positive and 0 otherwise. *)
Theorem C1_merge_additivity (started ended : string) (files : list (option Fragment))
    (atResults atBaseResults : option (option Fragment)) :
  files <> [] ->
  forallb well_formed files = true ->
  exists m, getResults started ended files atResults atBaseResults = Ok (Merged m) /\
    suites (stats m) = total f_suites files /\
    tests (stats m) = total f_tests files /\
    passes (stats m) = total f_passes files /\
    pending (stats m) = total f_pending files /\
    failures (stats m) = total f_failures files /\
    duration (stats m) = total f_duration files /\
    testsRegistered (stats m) = total f_testsRegistered files /\
    skipped (stats m) = total f_skipped files /\
    passPercent (stats m)
      = if 0 <? total f_testsRegistered files
        then (inject_Z (total f_passes files)
              / inject_Z (total f_testsRegistered files) * 100)%Q
        else 0%Q.
Proof.
  intros Hne Hwf.
  destruct (mergeAll_sums files (initial started ended) Hwf) as (m0 & Hm & Hc & Hp & _).
  unfold getResults. destruct files as [|file rest]; [contradiction|].
  rewrite Hm. exists (recalculate m0). split; [reflexivity|].
  unfold counters, totals in Hc. simpl in Hc.
  injection Hc as Hsu Hte Hpa Hpe Hfa Hdu Hre Hsk.
  rewrite Z.add_0_l in Hsu, Hte, Hpa, Hpe, Hfa, Hdu, Hre, Hsk.
  simpl in Hp. unfold recalculate.
  destruct (0 <? testsRegistered (stats m0)) eqn:Hpos; cbn [stats suites tests passes
    pending failures duration testsRegistered skipped passPercent];
    repeat (split; [assumption|]); rewrite Hre in Hpos; rewrite Hpos.
  - now rewrite Hpa, Hre.
  - exact Hp.
Qed.

Lemma C1_merge_additivity_witness :
  exists m, getResults noon just_after_noon registered_fragments None None = Ok (Merged m) /\
    suites (stats m) = total f_suites registered_fragments /\
    tests (stats m) = total f_tests registered_fragments /\
    passes (stats m) = total f_passes registered_fragments /\
    pending (stats m) = total f_pending registered_fragments /\
    failures (stats m) = total f_failures registered_fragments /\
    duration (stats m) = total f_duration registered_fragments /\
    testsRegistered (stats m) = total f_testsRegistered registered_fragments /\
    skipped (stats m) = total f_skipped registered_fragments /\
    passPercent (stats m)
      = if 0 <? total f_testsRegistered registered_fragments
        then (inject_Z (total f_passes registered_fragments)
              / inject_Z (total f_testsRegistered registered_fragments) * 100)%Q
        else 0%Q.
Proof.
  apply (C1_merge_additivity noon just_after_noon registered_fragments None None).
  - discriminate.
  - reflexivity.
Defined.

(** The scenario with [testsRegistered] supplied: 8 tests, 6 passes, 75%. *)
Example registered_scenario :
  exists m, getResults noon just_after_noon registered_fragments None None = Ok (Merged m) /\
    tests (stats m) = 8 /\ passes (stats m) = 6 /\
    (passPercent (stats m) == 75)%Q.
Proof. eexists. split; [reflexivity|]. repeat split. Qed.

(** C1 fails as stated on its scenario: the fragments [{tests:5, passes:5}]
    and [{tests:3, passes:1}] carry no [testsRegistered], the merged
    [testsRegistered] is 0 and [passPercent] stays 0, not 75. *)
Lemma C1_counterexample :
  exists m, getResults noon just_after_noon scenario_fragments None None = Ok (Merged m) /\
    tests (stats m) = 8 /\ passes (stats m) = 6 /\
    testsRegistered (stats m) = 0 /\
    passPercent (stats m) = 0%Q /\
    ~ (passPercent (stats m) == 75)%Q.
Proof.
  eexists. split; [reflexivity|]. repeat split. discriminate.
Qed.

End MergeFacts.

(** ** The rename step *)

Module RenameFacts.

Import Str Rename Examples.
Local Open Scope list_scope.

Lemma movable_spec (f text : string) :
  movable f text = true <->
  is_generic f = true /\ exists d, newPath text = Some d /\ d <> f.
Proof.
  unfold movable. split.
  - intros H. apply andb_true_iff in H as [Hg Hd]. split; [assumption|].
    destruct (newPath text) as [d|]; [|discriminate].
    exists d. split; [reflexivity|].
    apply negb_true_iff in Hd. now apply String.eqb_neq.
  - intros [Hg (d & Hd & Hne)]. rewrite Hg, Hd. simpl.
    apply negb_true_iff. now apply String.eqb_neq.
Qed.

Lemma settled_prop (dir : gmap string string) :
  destinations_settled dir = true -> Settled dir.
Proof.
  intros H f text d text' Hf Hm Hd Hd'.
  unfold destinations_settled in H. rewrite forallb_forall in H.
  assert (Hin : In (f, text) (map_to_list dir)).
  { apply list_elem_of_In. now apply elem_of_map_to_list. }
  specialize (H _ Hin). simpl in H. rewrite Hm, Hd, Hd' in H.
  now apply negb_true_iff in H.
Qed.

(** The two outcomes of the body of the loop. *)
Lemma renameFile_spec (f : string) (dir : gmap string string) :
  (exists text d, movable f text = true /\ dir !! f = Some text /\
     newPath text = Some d /\ d <> f /\ dir !! d = None /\
     renameFile f dir = <[d := text]> (delete f dir)) \/
  (~ would_move f dir /\ renameFile f dir = dir).
Proof.
  unfold renameFile, would_move.
  destruct (is_generic f) eqn:Hg; [|right; split; [intros [? _]; discriminate | reflexivity]].
  destruct (dir !! f) as [text|] eqn:Hf;
    [|right; split; [intros [_ (t & d & ? & _)]; discriminate | reflexivity]].
  destruct (newPath text) as [d|] eqn:Hd;
    [|right; split; [intros [_ (t & d & [= <-] & ? & _)]; congruence | reflexivity]].
  destruct (String.eqb_spec f d) as [->|Hne]; simpl.
  { right. split; [|reflexivity].
    intros [_ (t & d' & [= <-] & Hd' & Hne & _)]. congruence. }
  case_bool_decide as Hex; simpl.
  - right. split; [|reflexivity].
    intros [_ (t & d' & [= <-] & Hd' & _ & Hnone)].
    assert (d' = d) by congruence. subst d'. rewrite Hnone in Hex.
    now destruct Hex.
  - left. exists text, d.
    assert (dir !! d = None).
    { destruct (dir !! d) eqn:E; [|reflexivity]. exfalso. apply Hex. eauto. }
    repeat split; try assumption; try congruence.
    + apply movable_spec. split; [assumption|]. exists d. split; congruence.
    + unfold renameSync. now rewrite Hf.
Qed.

Lemma not_would_move (f : string) (dir : gmap string string) :
  ~ would_move f dir -> renameFile f dir = dir.
Proof.
  intros H. destruct (renameFile_spec f dir) as [(text & d & Hm & Hf & Hd & Hne & Hfree & _)|[_ E]];
    [|exact E].
  exfalso. apply H. apply movable_spec in Hm as [Hg _].
  split; [assumption|]. now exists text, d.
Qed.

(** A rename keeps every text: nothing is replaced. *)
Lemma renameFile_texts (f : string) (dir : gmap string string) :
  texts (renameFile f dir) ≡ₚ texts dir.
Proof.
  destruct (renameFile_spec f dir) as [(text & d & _ & Hf & _ & Hne & Hfree & ->)|[_ ->]];
    [|reflexivity].
  unfold texts.
  rewrite map_to_list_insert by (rewrite lookup_delete_ne; auto).
  rewrite <- (map_to_list_delete dir f text Hf). reflexivity.
Qed.

Lemma renameStep_texts (rawFiles : list string) (dir : gmap string string) :
  texts (renameStep rawFiles dir) ≡ₚ texts dir.
Proof.
  revert dir. induction rawFiles as [|f rest IH]; intros dir; simpl; [reflexivity|].
  unfold renameStep in *. simpl. rewrite IH. apply renameFile_texts.
Qed.

Lemma at_home_not_movable (n text : string) :
  newPath text = Some n -> movable n text = false.
Proof.
  intros H. unfold movable. rewrite H, String.eqb_refl. apply andb_false_r.
Qed.

Lemma moved_lookup (dir : gmap string string) (f d text n : string) :
  d <> f ->
  <[d := text]> (delete f dir) !! n
  = if decide (n = d) then Some text else if decide (n = f) then None else dir !! n.
Proof.
  intros Hne. destruct (decide (n = d)) as [->|Hd].
  - apply lookup_insert_eq.
  - rewrite lookup_insert_ne by congruence.
    destruct (decide (n = f)) as [->|Hf].
    + apply lookup_delete_eq.
    + now rewrite lookup_delete_ne by congruence.
Qed.

Lemma invariant_step (dir0 dir : gmap string string) (done : list string) (f : string) :
  Invariant dir0 dir done -> Invariant dir0 (renameFile f dir) (f :: done).
Proof.
  intros [Hset Hquiet Horig].
  destruct (renameFile_spec f dir)
    as [(text & d & Hm & Hf & Hd & Hne & Hfree & ->)|[Hno ->]].
  2:{ split; [assumption| |assumption].
      intros g [<-|Hg]; [assumption | now apply Hquiet]. }
  split.
  - (* the destinations stay settled *)
    intros f1 t1 d1 t1' Hf1 Hm1 Hd1 Hd1'.
    rewrite (moved_lookup _ _ _ _ _ Hne) in Hf1.
    rewrite (moved_lookup _ _ _ _ _ Hne) in Hd1'.
    destruct (decide (f1 = d)) as [->|Hf1d].
    { injection Hf1 as <-. rewrite (at_home_not_movable _ _ Hd) in Hm1. discriminate. }
    destruct (decide (f1 = f)) as [->|Hf1f]; [discriminate|].
    destruct (decide (d1 = d)) as [->|Hd1d].
    { injection Hd1' as <-. now apply at_home_not_movable. }
    destruct (decide (d1 = f)) as [->|Hd1f]; [discriminate|].
    exact (Hset f1 t1 d1 t1' Hf1 Hm1 Hd1 Hd1').
  - (* the files visited stay where they are *)
    intros g Hg [Hgen (tg & dg & Hgl & Hgd & Hgne & Hgfree)].
    rewrite (moved_lookup _ _ _ _ _ Hne) in Hgl.
    rewrite (moved_lookup _ _ _ _ _ Hne) in Hgfree.
    destruct (decide (g = d)) as [->|Hgd'].
    { injection Hgl as <-. congruence. }
    destruct (decide (g = f)) as [->|Hgf]; [discriminate|].
    destruct Hg as [->|Hg]; [congruence|].
    destruct (decide (dg = d)) as [->|Hdgd]; [discriminate|].
    destruct (decide (dg = f)) as [->|Hdgf].
    + assert (Hmg : movable g tg = true).
      { apply movable_spec. split; [assumption|]. now exists f. }
      rewrite (Hset g tg f text Hgl Hmg Hgd Hf) in Hm. discriminate.
    + apply (Hquiet g Hg). split; [assumption|]. now exists tg, dg.
  - (* every file is an original one or sits at its destination *)
    intros n t Hn. rewrite (moved_lookup _ _ _ _ _ Hne) in Hn.
    destruct (decide (n = d)) as [->|Hnd].
    { injection Hn as <-. now right. }
    destruct (decide (n = f)) as [->|Hnf]; [discriminate|].
    now apply Horig.
Qed.

Lemma invariant_run (dir0 : gmap string string) (rawFiles : list string)
    (dir : gmap string string) (done : list string) :
  Invariant dir0 dir done ->
  Invariant dir0 (renameStep rawFiles dir) (rev rawFiles ++ done).
Proof.
  revert dir done. induction rawFiles as [|f rest IH]; intros dir done Hinv.
  - exact Hinv.
  - unfold renameStep in *. simpl. rewrite <- app_assoc. simpl.
    apply IH. now apply invariant_step.
Qed.

Lemma quiet_run (rawFiles : list string) (dir : gmap string string) :
  (forall f, In f rawFiles -> ~ would_move f dir) -> renameStep rawFiles dir = dir.
Proof.
  induction rawFiles as [|f rest IH]; intros H; [reflexivity|].
  unfold renameStep in *. simpl.
  rewrite (not_would_move f dir) by (apply H; now left).
  apply IH. intros g Hg. apply H. now right.
Qed.

(** C9, as the code has it: the body of the loop leaves the folder as it is
    whenever the destination exists, and the step keeps the text of every
    file (nothing is overwritten); a second run changes nothing provided
    that, in the folder the first run starts from, no file that the step
    would move sits at the destination derived for another file, the second
    listing naming no original file that the first listing left out. *)
Theorem C9_rename_step (rawFiles later : list string) (dir : gmap string string) :
  (forall f text d, dir !! f = Some text -> newPath text = Some d ->
     is_Some (dir !! d) -> renameFile f dir = dir) /\
  texts (renameStep rawFiles dir) ≡ₚ texts dir /\
  (destinations_settled dir = true ->
   listed_before rawFiles dir later = true ->
   renameStep later (renameStep rawFiles dir) = renameStep rawFiles dir).
Proof.
  split; [|split].
  - intros f text d Hf Hd [t Ht]. apply not_would_move.
    intros [_ (text' & d' & Hf' & Hd' & _ & Hfree)]. congruence.
  - apply renameStep_texts.
  - intros Hset Hlisted.
    assert (Hinv : Invariant dir dir []).
    { split; [now apply settled_prop | intros f [] | intros n t Hn; left; eauto]. }
    apply (invariant_run dir rawFiles) in Hinv as [Hs Hq Ho].
    rewrite app_nil_r in Hq.
    apply quiet_run. intros f Hf Hmove.
    destruct Hmove as [Hgen (text & d & Hl & Hd & Hne & Hfree)].
    destruct (Ho f text Hl) as [[t0 Ht0]|Hhome]; [|congruence].
    unfold listed_before in Hlisted. rewrite forallb_forall in Hlisted.
    specialize (Hlisted f Hf). rewrite Ht0 in Hlisted.
    apply existsb_exists in Hlisted as (g & Hg & Heq).
    apply String.eqb_eq in Heq. subst g.
    apply (Hq f); [now apply in_rev in Hg|].
    split; [assumption|]. now exists text, d.
Qed.

Lemma C9_rename_step_witness :
  renameStep fresh_listing_after (renameStep fresh_listing fresh_folder)
  = renameStep fresh_listing fresh_folder.
Proof.
  apply (C9_rename_step fresh_listing fresh_listing_after fresh_folder);
    vm_compute; reflexivity.
Defined.

(** The fresh folder after one run: the first [login] part and the [cart]
    part are renamed, the second [login] part keeps its name since its
    destination is taken. *)
Example fresh_folder_renamed :
  names (renameStep fresh_listing fresh_folder)
  = ["cart_results.json"; "results_001.json"; "login_results.json"].
Proof. vm_compute; reflexivity. Qed.

(** C9 fails as stated: in the crossed folder the first run leaves
    [results_1.json] in place, its destination being taken, and then moves
    the file that held that destination; the second run renames
    [results_1.json], so the file names after two runs are not those after
    one. *)
Lemma C9_counterexample :
  names (renameStep crossed_listing crossed_folder)
    = ["foo_results.json"; "results_1.json"] /\
  names (renameStep crossed_listing_after (renameStep crossed_listing crossed_folder))
    = ["foo_results.json"; "results_x_results.json"] /\
  renameStep crossed_listing_after (renameStep crossed_listing crossed_folder)
    <> renameStep crossed_listing crossed_folder.
Proof.
  split; [vm_compute; reflexivity|]. split; [vm_compute; reflexivity|].
  intros H. apply (f_equal names) in H. vm_compute in H. discriminate.
Qed.

End RenameFacts.

(** * Further properties *)

(** ** The invoker and the orchestrator, beyond the fallback *)

Module PipelineFacts.

Import Str Enrich Pipeline Examples Frame.
Local Open Scope list_scope.

(** What [sanitize] returns when it returns, field by field. *)
Lemma sanitize_record data test ins :
  sanitize data test = Ok ins ->
  exists s r sev,
    sanitize_severity (Json.get "severity" data) = Ok sev /\
    ins = {| summary := if String.eqb (join " " (slice0 15 (split_space s))) ""
                        then "Investigate failure reason."
                        else join " " (slice0 15 (split_space s));
             humanError := Some (or_default (Json.get "humanError" data)
               "An error occurred during the test execution.");
             testRootCause := Some (or_default (Json.get "testRootCause" data)
               "Assertion or selector failure detected in test code.");
             productRootCause := Some (or_default (Json.get "productRootCause" data)
               "Possible defect in application logic or responsiveness.");
             bugEffect := Some (or_default (Json.get "bugEffect" data)
               "User flow is blocked or behavior is inconsistent.");
             inferredExpected := Some (or_default (Json.get "inferredExpected" data)
               "The application should behave as defined in the test requirement.");
             recommendation := strip_ellipsis (pad_recommendation r);
             severity := sev;
             confidence := sanitize_confidence (Json.get "confidence" data);
             tags := sanitize_tags (Json.get "tags" data) test;
             modelUsed := None |} /\
    cleanText (Json.get "summary" data) = Ok s /\
    cleanText (Json.get "recommendation" data) = Ok r.
Proof.
  unfold sanitize.
  destruct (cleanText (Json.get "summary" data)) as [s|e] eqn:Hs;
    [|destruct data; discriminate].
  destruct (cleanText (Json.get "recommendation" data)) as [r|e] eqn:Hr;
    [|destruct data; discriminate].
  destruct (sanitize_severity (Json.get "severity" data)) as [sev|e] eqn:Hv;
    [|destruct data; discriminate].
  intros H. exists s, r, sev.
  destruct data; try discriminate; injection H as <-; auto.
Qed.

(** In every record the validator returns the two texts are not empty and
    the five fields read with [||] are present and truthy. *)
Lemma validated_complete rawJson test ins :
  validateAndSanitize rawJson test = Ok ins ->
  summary ins <> "" /\
  Json.truthy (humanError ins) = true /\ Json.truthy (testRootCause ins) = true /\
  Json.truthy (productRootCause ins) = true /\ Json.truthy (bugEffect ins) = true /\
  Json.truthy (inferredExpected ins) = true /\
  recommendation ins <> "" /\
  In (severity ins) severities /\
  (0 <= confidence ins <= 1)%Q /\
  (length (tags ins) <= 5)%nat.
Proof.
  intros H. destruct (ValidatorFacts.validate_inv _ _ _ H) as (data & _ & Hs).
  destruct (sanitize_record _ _ _ Hs) as (s & r & sev & Hv & -> & _ & _).
  cbn [summary humanError testRootCause productRootCause bugEffect
       inferredExpected recommendation severity confidence tags].
  repeat split;
    try (now apply ValidatorFacts.or_default_truthy);
    try apply ValidatorFacts.confidence_bounds.
  - destruct (String.eqb_spec (join " " (slice0 15 (split_space s))) "");
      [discriminate | assumption].
  - apply ValidatorFacts.strip_ellipsis_nonempty, ValidatorFacts.pad_nonempty.
  - now apply ValidatorFacts.severity_in_range with (Json.get "severity" data).
  - apply ValidatorFacts.tags_length.
Qed.

Section WithProvider.

Variable buildPrompt : Test -> string.
Variable chatCompletion : HfInference -> Trace -> string -> string -> option string.

Abbreviation enrich := (enrichCandidates buildPrompt chatCompletion).
Abbreviation invoke := (getAiInsight buildPrompt chatCompletion).
Abbreviation process := (processReport buildPrompt chatCompletion).

Lemma cooldown_extends (first model : string) (tr : Trace) :
  cooldown first model tr = tr ++ cooldown first model [].
Proof. unfold cooldown. destruct (String.eqb model first); [now rewrite app_nil_r | reflexivity]. Qed.

Lemma asked_extends (first : string) (models : list string) (prompt : string) (tr : Trace) :
  asked first models prompt tr = tr ++ asked first models prompt [].
Proof.
  revert tr. induction models as [|m rest IH]; intros tr; simpl.
  - now rewrite app_nil_r.
  - rewrite IH. rewrite (IH (cooldown first m [] ++ _)).
    rewrite (cooldown_extends first m tr). now rewrite <- !app_assoc.
Qed.

(** The trace and the outcome of the invoker, whatever the client. *)
Lemma invoke_outcome (hf : option HfInference) (test : Test) (tr : Trace) :
  exists pre, (length pre <= 3)%nat /\
    fst (invoke hf test tr)
    = tr ++ asked (first_model CONFIG_models) pre (buildPrompt test) [] /\
    match snd (invoke hf test tr) with
    | Ok ins => exists m enriched content, In m CONFIG_models /\
                  validateAndSanitize content test = Ok enriched /\
                  ins = set_modelUsed m enriched
    | Throw _ => True
    end.
Proof.
  destruct hf as [client|]; [|exists []; simpl; rewrite app_nil_r; auto].
  unfold getAiInsight, getAiInsightWith.
  pose proof (InvokerFacts.tryModels_spec chatCompletion client
                (first_model CONFIG_models) CONFIG_models (buildPrompt test) test tr) as H.
  destruct (tryModels _ _ _ _ _ _ _) as [tr' [ins|e]].
  - destruct H as (pre & m & post & c & enriched & Hm & _ & _ & _ & Hv & -> & ->).
    exists (pre ++ [m]). split; [|split].
    + apply (f_equal (@length string)) in Hm. rewrite length_app in Hm.
      rewrite length_app. simpl in *. lia.
    + apply asked_extends.
    + exists m, enriched, c. split; [|split; [assumption | reflexivity]].
      rewrite Hm. apply in_or_app. right. now left.
  - destruct H as (_ & _ & ->). exists CONFIG_models.
    split; [simpl; lia|]. split; [apply asked_extends | exact I].
Qed.

Lemma requested_asked_length (first : string) (models : list string) (prompt : string) :
  length (requested (asked first models prompt [])) = length models.
Proof. now rewrite InvokerFacts.requested_asked. Qed.

(** X1: one call of [getAiInsight] with a client appends to the trace one
    of three sequences: a request to the first model; that, a pause of
    2000 ms and a request to the second; or those, a second pause and a
    request to the third.  Every request carries the prompt of the test, and
    the call throws only in the third case. *)
Theorem invoker_schedule (client : HfInference) (test : Test) (tr : Trace) :
  let p := buildPrompt test in
  let m1 := "meta-llama/Meta-Llama-3-8B-Instruct" in
  let m2 := "mistralai/Mixtral-8x7B-Instruct-v0.1" in
  let m3 := "microsoft/Phi-3-mini-4k-instruct" in
  let '(tr', r) := invoke (Some client) test tr in
  (tr' = tr ++ [ChatCompletion m1 p] /\ is_ok r = true) \/
  (tr' = tr ++ [ChatCompletion m1 p; Sleep 2000; ChatCompletion m2 p] /\ is_ok r = true) \/
  tr' = tr ++ [ChatCompletion m1 p; Sleep 2000; ChatCompletion m2 p;
               Sleep 2000; ChatCompletion m3 p].
Proof.
  intros p m1 m2 m3. unfold getAiInsight, getAiInsightWith.
  pose proof (InvokerFacts.tryModels_spec chatCompletion client
                (first_model CONFIG_models) CONFIG_models p test tr) as H.
  fold p.
  destruct (tryModels _ _ _ _ _ _ _) as [tr' [ins|e]].
  - destruct H as (pre & m & post & c & enriched & Hm & _ & _ & _ & _ & _ & ->).
    rewrite asked_extends.
    destruct pre as [|a [|b [|d pre]]]; injection Hm as; subst.
    + left. split; reflexivity.
    + right. left. split; reflexivity.
    + right. right. reflexivity.
    + destruct pre; discriminate.
  - destruct H as (_ & _ & ->). right. right. now rewrite asked_extends.
Qed.

(** X2: an insight returned by [getAiInsight] is complete: it names a model
    of the priority list, its summary and its recommendation are not empty,
    its humanError, testRootCause, productRootCause, bugEffect and
    inferredExpected are present and truthy (never absent, null, false, 0 or
    the empty string; a value of the model that is not a string, such as an
    empty array, is kept as it is), its severity is one of the four levels,
    its confidence is in [0,1] and it holds at most five tags. *)
Theorem invoker_insight_complete (hf : option HfInference) (test : Test)
    (tr tr' : Trace) (ins : Insight) :
  invoke hf test tr = (tr', Ok ins) ->
  (exists m, In m CONFIG_models /\ modelUsed ins = Some m) /\
  summary ins <> "" /\
  Json.truthy (humanError ins) = true /\ Json.truthy (testRootCause ins) = true /\
  Json.truthy (productRootCause ins) = true /\ Json.truthy (bugEffect ins) = true /\
  Json.truthy (inferredExpected ins) = true /\
  recommendation ins <> "" /\
  In (severity ins) severities /\
  (0 <= confidence ins <= 1)%Q /\
  (length (tags ins) <= 5)%nat.
Proof.
  intros H. destruct (invoke_outcome hf test tr) as (pre & _ & _ & Hr).
  rewrite H in Hr. simpl in Hr.
  destruct Hr as (m & enriched & content & Hm & Hv & ->).
  split; [now exists m|]. exact (validated_complete _ _ _ Hv).
Qed.

(** *** The loop over the candidates *)

Lemma same_but_ai_refl (t : Test) : same_but_ai t t.
Proof. unfold same_but_ai. auto 10. Qed.

Lemma same_but_ai_set (i : Insight) (t t' : Test) :
  same_but_ai t t' -> same_but_ai t (set_ai i t').
Proof. unfold same_but_ai. simpl. auto. Qed.

Lemma fallback_same (t t' : Test) :
  same_but_ai t t' -> getFallbackInsight t' = getFallbackInsight t.
Proof.
  intros (Ht & _ & _ & _ & Hm & _). unfold getFallbackInsight. now rewrite Ht, Hm.
Qed.

(** The insight the loop attaches to a test. *)
Lemma loop_insight_attached hf (test : Test) (tr : Trace) :
  attached_from test
    match snd (invoke hf test tr) with
    | Ok i => i
    | Throw _ => getFallbackInsight test
    end.
Proof.
  destruct (invoke_outcome hf test tr) as (pre & _ & _ & Hr).
  destruct (snd (invoke hf test tr)) as [i|e]; [|now left].
  destruct Hr as (m & enriched & content & Hm & _ & ->). right. now exists m.
Qed.

(** The state of one test object across the loop. *)
Lemma enrich_object hf (cands : list loc) (objects : gmap loc Test) (tr : Trace)
    (l : loc) (t0 t : Test) :
  objects !! l = Some t -> same_but_ai t0 t ->
  exists t' : Test, (fst (enrich hf cands objects tr)) !! l = Some t' /\
    same_but_ai t0 t' /\
    (~ In l cands -> t' = t) /\
    (In l cands -> exists i, ai t' = Some i /\ attached_from t0 i) /\
    (forall i, ai t = Some i -> attached_from t0 i ->
       exists i', ai t' = Some i' /\ attached_from t0 i').
Proof.
  revert objects tr t. induction cands as [|l0 cands IH]; intros objects tr t Hl Hsame.
  - exists t. simpl. split; [assumption|]. split; [assumption|].
    split; [reflexivity|]. split; [intros []|]. intros i Hi Ha. now exists i.
  - simpl. destruct (objects !! l0) as [test|] eqn:Hl0.
    + pose proof (loop_insight_attached hf test tr) as Hatt.
      destruct (invoke hf test tr) as [tr' r]. simpl in Hatt.
      set (insight := match r with Ok i => i | Throw _ => getFallbackInsight test end) in *.
      destruct (decide (l0 = l)) as [->|Hne].
      * assert (test = t) by congruence. subst test.
        assert (Hatt0 : attached_from t0 insight).
        { destruct Hatt as [->|Hm]; [left; now apply fallback_same | now right]. }
        destruct (IH (<[l:=set_ai insight t]> objects) tr' (set_ai insight t))
          as (t' & Ht' & Hs' & Hout & Hin & Hkeep);
          [apply lookup_insert_eq | now apply same_but_ai_set|].
        exists t'. split; [assumption|]. split; [assumption|]. split; [|split].
        -- intros Hnot. exfalso. apply Hnot. now left.
        -- intros _. apply (Hkeep insight); [reflexivity | assumption].
        -- intros i _ _. apply (Hkeep insight); [reflexivity | assumption].
      * destruct (IH (<[l0:=set_ai insight test]> objects) tr' t)
          as (t' & Ht' & Hs' & Hout & Hin & Hkeep);
          [rewrite lookup_insert_ne; assumption | assumption|].
        exists t'. split; [assumption|]. split; [assumption|]. split; [|split].
        -- intros Hnot. apply Hout. intros Hc. apply Hnot. now right.
        -- intros [?|Hc]; [contradiction | now apply Hin].
        -- assumption.
    + destruct (IH objects tr t Hl Hsame) as (t' & Ht' & Hs' & Hout & Hin & Hkeep).
      exists t'. split; [assumption|]. split; [assumption|]. split; [|split].
      * intros Hnot. apply Hout. intros Hc. apply Hnot. now right.
      * intros [->|Hc]; [congruence | now apply Hin].
      * assumption.
Qed.

Lemma enrich_absent hf (cands : list loc) (objects : gmap loc Test) (tr : Trace) (l : loc) :
  objects !! l = None -> (fst (enrich hf cands objects tr)) !! l = None.
Proof.
  revert objects tr. induction cands as [|l0 cands IH]; intros objects tr Hl; simpl.
  - assumption.
  - destruct (objects !! l0) as [test|] eqn:Hl0; [|now apply IH].
    destruct (invoke hf test tr) as [tr' r]. apply IH.
    rewrite lookup_insert_ne; [assumption | congruence].
Qed.

Lemma process_objects hf (r : Report) (tr : Trace) :
  objects (fst (fst (process hf r tr))) = fst (enrich hf (candidates r) (objects r) tr) /\
  results (fst (fst (process hf r tr))) = results r.
Proof.
  unfold processReport. destruct (candidates r) as [|l cands]; [split; reflexivity|].
  destruct (enrich hf (l :: cands) (objects r) tr). split; reflexivity.
Qed.

(** X3: processing a report changes nothing but the [ai] property of its
    candidates: the tree of suites is kept, no test object appears or
    disappears, a test that is not a candidate is left as it is, and a
    candidate keeps its title, state, error and every other property while
    it receives an [ai] record. *)
Theorem process_frame (hf : option HfInference) (r : Report) (tr : Trace) (l : loc) :
  let r1 := fst (fst (process hf r tr)) in
  results r1 = results r /\
  match objects r !! l with
  | None => objects r1 !! l = None
  | Some t =>
      exists t', objects r1 !! l = Some t' /\ same_but_ai t t' /\
        (~ In l (candidates r) -> t' = t) /\
        (In l (candidates r) -> ai t' <> None)
  end.
Proof.
  intros r1. destruct (process_objects hf r tr) as [Ho Hr]. fold r1 in Ho, Hr.
  split; [assumption|]. rewrite Ho.
  destruct (objects r !! l) as [t|] eqn:Hl; [|now apply enrich_absent].
  destruct (enrich_object hf (candidates r) (objects r) tr l t t Hl (same_but_ai_refl t))
    as (t' & Ht' & Hs & Hout & Hin & _).
  exists t'. split; [assumption|]. split; [assumption|]. split; [assumption|].
  intros Hc. destruct (Hin Hc) as (i & Hi & _). congruence.
Qed.

(** X4: after a report has been processed, the [ai] record of every
    candidate is either the fallback insight of that test or a validated
    record stamped with one of the models of the priority list. *)
Theorem process_provenance (hf : option HfInference) (r : Report) (tr : Trace)
    (l : loc) (t : Test) :
  In l (candidates r) ->
  objects r !! l = Some t ->
  exists t' i, objects (fst (fst (process hf r tr))) !! l = Some t' /\
    ai t' = Some i /\
    (i = getFallbackInsight t \/
     exists m, In m CONFIG_models /\ modelUsed i = Some m).
Proof.
  intros Hc Hl. destruct (process_objects hf r tr) as [Ho _]. rewrite Ho.
  destruct (enrich_object hf (candidates r) (objects r) tr l t t Hl (same_but_ai_refl t))
    as (t' & Ht' & _ & _ & Hin & _).
  destruct (Hin Hc) as (i & Hi & Hatt). now exists t', i.
Qed.

(** The loop only appends to the trace, at most three requests per
    candidate; without client it appends nothing. *)
Lemma enrich_trace hf (cands : list loc) (objects : gmap loc Test) (tr : Trace) :
  exists events, snd (enrich hf cands objects tr) = tr ++ events /\
    (length (requested events) <= 3 * length cands)%nat /\
    (hf = None -> events = []).
Proof.
  revert objects tr. induction cands as [|l0 cands IH]; intros objects tr.
  - exists []. simpl. rewrite app_nil_r. auto.
  - simpl. destruct (objects !! l0) as [test|].
    + destruct (invoke_outcome hf test tr) as (pre & Hlen & Htr & _).
      assert (Hnone : hf = None -> fst (invoke hf test tr) = tr) by (intros ->; reflexivity).
      destruct (invoke hf test tr) as [tr' r]. simpl in Htr, Hnone.
      destruct (IH (<[l0:=set_ai match r with Ok i => i | Throw _ => getFallbackInsight test end
                         test]> objects) tr') as (ev & -> & Hev & Hoff).
      exists (asked (first_model CONFIG_models) pre (buildPrompt test) [] ++ ev).
      split; [now rewrite Htr, <- app_assoc|]. split.
      * rewrite InvokerFacts.requested_app, length_app, requested_asked_length. lia.
      * intros Hhf. rewrite (Hoff Hhf), app_nil_r.
        specialize (Hnone Hhf). rewrite Htr in Hnone.
        rewrite <- (app_nil_r tr) in Hnone at 2. now apply app_inv_head in Hnone.
    + destruct (IH objects tr) as (ev & -> & Hev & Hoff).
      exists ev. split; [reflexivity|]. split; [lia | assumption].
Qed.

(** X5: processing a report only appends to the trace of external events,
    and issues at most three requests per candidate; a report without
    candidate costs no request, and without client nothing is appended. *)
Theorem process_requests (hf : option HfInference) (r : Report) (tr : Trace) :
  exists events, snd (fst (process hf r tr)) = tr ++ events /\
    (length (requested events) <= 3 * length (candidates r))%nat /\
    (hf = None -> events = []).
Proof.
  unfold processReport. destruct (candidates r) as [|l cands] eqn:Hc.
  - exists []. simpl. rewrite app_nil_r. auto.
  - destruct (enrich_trace hf (l :: cands) (objects r) tr) as (ev & Hev & Hlen & Hoff).
    destruct (enrich hf (l :: cands) (objects r) tr) as [objects' tr'].
    exists ev. simpl in *. auto.
Qed.

End WithProvider.

Lemma process_provenance_witness :
  exists t' i,
    objects (fst (fst (processReport title_prompt offline (hf no_credential)
                         auth_report []))) !! 0%nat = Some t' /\
    ai t' = Some i /\
    (i = getFallbackInsight auth_test \/
     exists m, In m CONFIG_models /\ modelUsed i = Some m).
Proof.
  apply (process_provenance title_prompt offline (hf no_credential) auth_report []
           0%nat auth_test).
  - vm_compute. auto.
  - vm_compute; reflexivity.
Defined.

Lemma invoker_insight_complete_witness :
  (exists m, In m CONFIG_models /\
     modelUsed (set_modelUsed "mistralai/Mixtral-8x7B-Instruct-v0.1" wrapped_insight) = Some m) /\
  summary wrapped_insight <> "".
Proof.
  pose proof (invoker_insight_complete title_prompt second_answers (Some some_client)
                auth_test []
                [ChatCompletion "meta-llama/Meta-Llama-3-8B-Instruct" "[auth] login redirects";
                 Sleep 2000;
                 ChatCompletion "mistralai/Mixtral-8x7B-Instruct-v0.1" "[auth] login redirects"]
                (set_modelUsed "mistralai/Mixtral-8x7B-Instruct-v0.1" wrapped_insight)
                ltac:(vm_compute; reflexivity)) as (Hm & Hs & _).
  split; [exact Hm | exact Hs].
Defined.

End PipelineFacts.

(** ** The validator, field by field *)

Module SanitizeFacts.

Import Str Enrich Pipeline Examples.

(** *** Words *)

Lemma split_space_cons (s : string) : exists w ws, split_space s = w :: ws.
Proof.
  induction s as [|c r (w & ws & IH)]; simpl; [now exists "", []|].
  destruct (Ascii.eqb c " "); [eauto|]. rewrite IH. eauto.
Qed.

Lemma split_space_words (s : string) :
  Forall (fun w => occurs " " w = false) (split_space s).
Proof.
  induction s as [|c r IH]; simpl; [now constructor|].
  destruct (Ascii.eqb c " ") eqn:Hc; [now constructor|].
  destruct (split_space r) as [|w ws]; [constructor; [simpl; now rewrite Hc | constructor]|].
  inversion IH; subst. constructor; [simpl; now rewrite Hc | assumption].
Qed.

Lemma split_space_word (w : string) :
  occurs " " w = false -> split_space w = [w].
Proof.
  induction w as [|c r IH]; simpl; [reflexivity|].
  intros H. apply orb_false_iff in H as [Hc Hr]. rewrite Hc, (IH Hr). reflexivity.
Qed.

(** [split] undoes [join] on words. *)
Lemma split_space_app (a b : string) :
  split_space (a ++ String " " b) = (split_space a ++ split_space b)%list.
Proof.
  induction a as [|c a IH]; simpl; [reflexivity|].
  destruct (Ascii.eqb c " "); [now rewrite IH|].
  rewrite IH. destruct (split_space_cons a) as (w & ws & ->). reflexivity.
Qed.

Lemma split_join (l : list string) :
  l <> [] -> Forall (fun w => occurs " " w = false) l ->
  split_space (join " " l) = l.
Proof.
  induction l as [|w l IH]; [contradiction|]. intros _ Hall.
  inversion Hall as [|? ? Hw Hl]; subst.
  destruct l as [|w2 l]; [now apply split_space_word|].
  change (join " " (w :: w2 :: l)) with (w ++ String " " (join " " (w2 :: l))).
  rewrite split_space_app, (split_space_word w Hw), IH by (discriminate || assumption).
  reflexivity.
Qed.

Lemma split_space_suffix (p w : string) :
  occurs " " w = false ->
  length (split_space (p ++ w)) = length (split_space p).
Proof.
  intros Hw. induction p as [|c p IH].
  - change ("" ++ w) with w. now rewrite (split_space_word w Hw).
  - change (String c p ++ w) with (String c (p ++ w)). cbn [split_space].
    destruct (Ascii.eqb c " "); [cbn [length]; now rewrite IH|].
    destruct (split_space_cons (p ++ w)) as (w1 & ws1 & E1).
    destruct (split_space_cons p) as (w2 & ws2 & E2).
    rewrite E1, E2 in *. exact IH.
Qed.

(** *** Suffixes *)

Lemma append_assoc (a b c : string) : (a ++ b) ++ c = a ++ (b ++ c).
Proof.
  induction a as [|x a IH]; [reflexivity|].
  change (String x ((a ++ b) ++ c) = String x (a ++ (b ++ c))). now rewrite IH.
Qed.

Lemma append_empty_r (a : string) : a ++ "" = a.
Proof.
  induction a as [|x a IH]; [reflexivity|].
  change (String x (a ++ "") = String x a). now rewrite IH.
Qed.

Lemma length_append (a b : string) :
  String.length (a ++ b) = (String.length a + String.length b)%nat.
Proof.
  induction a as [|x a IH]; [reflexivity|].
  change (S (String.length (a ++ b)) = S (String.length a + String.length b)).
  now rewrite IH.
Qed.

Lemma rev_string_spec (s acc : string) :
  rev_string s acc = rev_string s "" ++ acc.
Proof.
  revert acc. induction s as [|c r IH]; intros acc; simpl; [reflexivity|].
  rewrite IH, (IH (String c "")). now rewrite append_assoc.
Qed.

Lemma rev_string_app (a b : string) :
  rev_string (a ++ b) "" = rev_string b "" ++ rev_string a "".
Proof.
  induction a as [|c a IH]; simpl.
  - now rewrite append_empty_r.
  - rewrite rev_string_spec, IH, (rev_string_spec a (String c "")).
    now rewrite append_assoc.
Qed.

Lemma rev_string_involutive (s : string) :
  rev_string (rev_string s "") "" = s.
Proof.
  induction s as [|c r IH]; simpl; [reflexivity|].
  rewrite (rev_string_spec r (String c "")), rev_string_app, IH. reflexivity.
Qed.

Lemma prefix_split (p x : string) :
  String.prefix p x = true -> exists q, x = p ++ q.
Proof.
  revert x. induction p as [|c p IH]; intros x; [now exists x|].
  destruct x as [|d x]; simpl; [discriminate|].
  destruct (ascii_dec c d) as [->|]; [|discriminate].
  intros H. destruct (IH x H) as [q ->]. now exists q.
Qed.

Lemma endsWith_split (s suffix : string) :
  endsWith s suffix = true -> exists p, s = p ++ suffix.
Proof.
  unfold endsWith. intros H. apply prefix_split in H as [q Hq].
  exists (rev_string q "").
  rewrite <- (rev_string_involutive s), Hq, rev_string_app, rev_string_involutive.
  reflexivity.
Qed.

Lemma substring_prefix (p x : string) :
  String.substring 0 (String.length p) (p ++ x) = p.
Proof.
  induction p as [|c p IH]; simpl; [now destruct x | now rewrite IH].
Qed.

Lemma drop_end_app (p suffix : string) :
  drop_end (String.length suffix) (p ++ suffix) = p.
Proof.
  unfold drop_end. rewrite length_append.
  replace (String.length p + String.length suffix - String.length suffix)%nat
    with (String.length p) by lia.
  apply substring_prefix.
Qed.

(** The trailing ellipsis, when there is one, is the last three characters. *)
Lemma strip_ellipsis_spec (s : string) :
  (exists p, s = p ++ "..." /\ strip_ellipsis s = p ++ ".") \/
  (endsWith s "..." = false /\ strip_ellipsis s = s).
Proof.
  unfold strip_ellipsis. destruct (endsWith s "...") eqn:He; [left | now right].
  destruct (endsWith_split _ _ He) as [p ->]. exists p. split; [reflexivity|].
  change 3%nat with (String.length "..."). now rewrite (drop_end_app p "...").
Qed.

Lemma strip_ellipsis_words (s : string) :
  length (split_space (strip_ellipsis s)) = length (split_space s).
Proof.
  destruct (strip_ellipsis_spec s) as [(p & -> & ->)|[_ ->]]; [|reflexivity].
  now rewrite !split_space_suffix by reflexivity.
Qed.

Lemma pad_words (r : string) :
  (10 <= length (split_space (pad_recommendation r)))%nat.
Proof.
  unfold pad_recommendation.
  destruct (length (split_space r) <? 10)%nat eqn:Hlen.
  - change (r ++ " Please review the test logic and error stack for more details.")
      with (r ++ String " " "Please review the test logic and error stack for more details.").
    rewrite split_space_app, length_app.
    change (length (split_space "Please review the test logic and error stack for more details."))
      with 11%nat. lia.
  - now apply Nat.ltb_ge in Hlen.
Qed.

(** X6: the summary of a validated insight has at most 15 words (pieces
    between single spaces), whatever the length of the summary the model
    gave. *)
Theorem summary_at_most_15_words (rawJson : string) (test : Test) (ins : Insight) :
  validateAndSanitize rawJson test = Ok ins ->
  (length (split_space (summary ins)) <= 15)%nat.
Proof.
  intros H. destruct (ValidatorFacts.validate_inv _ _ _ H) as (data & _ & Hs).
  destruct (PipelineFacts.sanitize_record _ _ _ Hs) as (s & r & sev & _ & -> & _ & _).
  cbn [summary].
  destruct (String.eqb (join " " (slice0 15 (split_space s))) "");
    [vm_compute; lia|].
  rewrite split_join.
  - unfold slice0. rewrite length_firstn. lia.
  - destruct (split_space_cons s) as (w & ws & ->). discriminate.
  - unfold slice0. apply Forall_take, split_space_words.
Qed.

Lemma summary_at_most_15_words_witness :
  (length (split_space (summary wrapped_insight)) <= 15)%nat.
Proof.
  apply (summary_at_most_15_words wrapped_response auth_test wrapped_insight).
  vm_compute; reflexivity.
Defined.

(** X7: the recommendation of a validated insight has at least 10 words by
    the count the code uses (pieces between single spaces): a shorter one
    gets the generic sentence appended, and replacing a trailing ellipsis by
    a full stop does not change the count. *)
Theorem recommendation_at_least_10_words (rawJson : string) (test : Test) (ins : Insight) :
  validateAndSanitize rawJson test = Ok ins ->
  (10 <= length (split_space (recommendation ins)))%nat.
Proof.
  intros H. destruct (ValidatorFacts.validate_inv _ _ _ H) as (data & _ & Hs).
  destruct (PipelineFacts.sanitize_record _ _ _ Hs) as (s & r & sev & _ & -> & _ & _).
  cbn [recommendation]. rewrite strip_ellipsis_words. apply pad_words.
Qed.

Lemma recommendation_at_least_10_words_witness :
  (10 <= length (split_space (recommendation wrapped_insight)))%nat.
Proof.
  apply (recommendation_at_least_10_words wrapped_response auth_test wrapped_insight).
  vm_compute; reflexivity.
Defined.

End SanitizeFacts.

(** ** Tags, and what the validator reads *)

Module TagFacts.

Import Str Enrich Examples MoreExamples.

Ltac settle_tags :=
  repeat match goal with
         | |- _ /\ _ => split
         | |- _ -> _ => intros ?
         | H : _ /\ _ |- _ => destruct H
         | H : _ \/ _ |- _ => destruct H
         | H : False |- _ => destruct H
         | H : _ = _ |- _ => discriminate H
         | |- NoDup _ => constructor
         | |- _ ∉ _ => let H := fresh in intros H; apply list_elem_of_In in H; cbv in H
         end;
  try reflexivity; try lia;
  repeat first [left; reflexivity | right].

(** X8: the tags derived from the error text and the title.  Each of
    "timing", "selector", "auth" and "network" is present exactly when one
    of its keywords occurs in the lower-cased text; "assertion" is present
    exactly when one of its keywords occurs and the four others are not all
    present, since only the first four tags are kept.  No tag comes twice
    and there are at most four. *)
Theorem derived_tags_buckets (errorMsg fullTitle : option string) :
  let text := toLowerCase (to_text errorMsg ++ " " ++ to_text fullTitle) in
  let tags := deriveTags errorMsg fullTitle in
  let timing := includes text "timeout" || includes text "waited" in
  let selector := includes text "get" || includes text "find" || includes text "contains" in
  let auth := includes text "401" || includes text "403" || includes text "login" in
  let network := includes text "500" || includes text "fetch" || includes text "network" in
  let assertion := includes text "expect" || includes text "assert" in
  (In "timing" tags <-> timing = true) /\
  (In "selector" tags <-> selector = true) /\
  (In "auth" tags <-> auth = true) /\
  (In "network" tags <-> network = true) /\
  (In "assertion" tags <->
     assertion = true /\ timing && selector && auth && network = false) /\
  NoDup tags /\
  (length tags <= 4)%nat.
Proof.
  intros text tags timing selector auth network assertion.
  subst tags. unfold deriveTags. fold text.
  fold timing. fold selector. fold auth. fold network. fold assertion.
  clearbody timing selector auth network assertion. clear text.
  destruct timing, selector, auth, network, assertion; cbv; settle_tags.
Qed.

Lemma lower_char_idempotent (c : ascii) : lower_char (lower_char c) = lower_char c.
Proof. destruct c as [[] [] [] [] [] [] [] []]; reflexivity. Qed.

Lemma toLowerCase_idempotent (s : string) : toLowerCase (toLowerCase s) = toLowerCase s.
Proof.
  induction s as [|c r IH]; [reflexivity|].
  cbn [toLowerCase]. now rewrite lower_char_idempotent, IH.
Qed.

Lemma toLowerCase_app (a b : string) :
  toLowerCase (a ++ b) = toLowerCase a ++ toLowerCase b.
Proof.
  induction a as [|c a IH]; [reflexivity|].
  change (String c a ++ b) with (String c (a ++ b)). cbn [toLowerCase].
  rewrite IH. reflexivity.
Qed.

(** X9: tag derivation ignores letter case: an error message and a title
    give the same tags as their lower-case forms. *)
Theorem derived_tags_case_insensitive (errorMsg fullTitle : string) :
  deriveTags (Some errorMsg) (Some fullTitle)
  = deriveTags (Some (toLowerCase errorMsg)) (Some (toLowerCase fullTitle)).
Proof.
  unfold deriveTags. cbn [to_text].
  replace (toLowerCase (toLowerCase errorMsg ++ " " ++ toLowerCase fullTitle))
    with (toLowerCase (errorMsg ++ " " ++ fullTitle)); [reflexivity|].
  rewrite !toLowerCase_app, !toLowerCase_idempotent. reflexivity.
Qed.

(** X10: the validator reads the test for its tags only: two tests with the
    same title and error message give the same result, and when the parsed
    response carries a non-empty [tags] array the result does not depend on
    the test at all. *)
Theorem validator_reads_test_for_tags (rawJson : string) (t1 t2 : Test) :
  (title t1 = title t2 /\ err_message t1 = err_message t2) \/
  (exists data x l, Json.parse (jsonStr rawJson) = Some data /\
     Json.get "tags" data = Some (JArr (x :: l))) ->
  validateAndSanitize rawJson t1 = validateAndSanitize rawJson t2.
Proof.
  intros H. unfold validateAndSanitize.
  destruct (Json.parse (jsonStr rawJson)) as [data|] eqn:Hp; [|reflexivity].
  assert (Htags : sanitize_tags (Json.get "tags" data) t1
                  = sanitize_tags (Json.get "tags" data) t2).
  { destruct H as [[Ht Hm]|(d & x & l & [= <-] & Hg)].
    - unfold sanitize_tags. now rewrite Ht, Hm.
    - now rewrite Hg. }
  unfold sanitize. now rewrite Htags.
Qed.

Lemma validator_reads_test_for_tags_witness :
  validateAndSanitize tagged_response auth_test
  = validateAndSanitize tagged_response plain_test.
Proof.
  apply (validator_reads_test_for_tags tagged_response auth_test plain_test).
  right. eexists _, _, _. split; vm_compute; reflexivity.
Defined.

(** *** The brace span *)

Lemma occurs_app (c : ascii) (a b : string) :
  occurs c (a ++ b) = occurs c a || occurs c b.
Proof.
  induction a as [|x a IH]; [reflexivity|].
  change (String x a ++ b) with (String x (a ++ b)). cbn [occurs].
  now rewrite IH, orb_assoc.
Qed.

Lemma upto_last_brace_none_inv (s : string) :
  upto_last_brace s = None -> occurs "}" s = false.
Proof.
  induction s as [|c r IH]; [reflexivity|]. cbn [upto_last_brace occurs].
  destruct (upto_last_brace r); [discriminate|].
  destruct (Ascii.eqb c "}"); [discriminate|]. intros _. now apply IH.
Qed.

Lemma upto_last_brace_some (s m : string) :
  upto_last_brace s = Some m ->
  exists mid post, s = mid ++ String "}" post /\ occurs "}" post = false /\
                   m = mid ++ "}".
Proof.
  revert m. induction s as [|c r IH]; intros m; [discriminate|].
  cbn [upto_last_brace].
  destruct (upto_last_brace r) as [m'|] eqn:Hr.
  - intros [= <-]. destruct (IH m' eq_refl) as (mid & post & -> & Hpost & ->).
    now exists (String c mid), post.
  - destruct (Ascii.eqb_spec c "}") as [->|]; [|discriminate].
    intros [= <-]. exists "", r. split; [reflexivity|].
    split; [now apply upto_last_brace_none_inv | reflexivity].
Qed.

Lemma match_braces_none (s : string) :
  occurs "}" s = false -> match_braces s = None.
Proof.
  induction s as [|c r IH]; [reflexivity|]. cbn [occurs match_braces].
  intros H. apply orb_false_iff in H as [_ Hr].
  rewrite (ValidatorFacts.upto_last_brace_none r Hr), (IH Hr).
  now destruct (Ascii.eqb c "{").
Qed.

(** X11: the match of the regular expression, when there is one, is the span
    from the first opening brace of the response to its last closing brace;
    there is none exactly when no opening brace is followed by a closing
    one. *)
Theorem brace_span (rawJson : string) :
  match match_braces rawJson with
  | Some m =>
      exists pre mid post,
        rawJson = pre ++ String "{" (mid ++ String "}" post) /\
        occurs "{" pre = false /\ occurs "}" post = false /\
        m = String "{" (mid ++ "}")
  | None =>
      forall pre rest, rawJson = pre ++ String "{" rest -> occurs "}" rest = false
  end.
Proof.
  induction rawJson as [|c r IH]; cbn [match_braces].
  - intros [|x pre] rest; discriminate.
  - destruct (Ascii.eqb_spec c "{") as [->|Hc].
    + destruct (upto_last_brace r) as [m|] eqn:Hr.
      * destruct (upto_last_brace_some _ _ Hr) as (mid & post & -> & Hpost & ->).
        now exists "", mid, post.
      * apply upto_last_brace_none_inv in Hr.
        rewrite (match_braces_none r Hr).
        intros [|x pre] rest; cbn [append]; intros [= E]; subst.
        -- assumption.
        -- rewrite occurs_app in Hr. apply orb_false_iff in Hr as [_ Hr].
           cbn [occurs] in Hr. now apply orb_false_iff in Hr as [_ Hr].
    + destruct (match_braces r) as [m|].
      * destruct IH as (pre & mid & post & -> & Hpre & Hpost & ->).
        exists (String c pre), mid, post. split; [reflexivity|].
        split; [|split; [assumption | reflexivity]].
        cbn [occurs]. rewrite Hpre.
        destruct (Ascii.eqb_spec c "{"); [contradiction | reflexivity].
      * intros [|x pre] rest; cbn [append]; intros [= E1 E2]; [congruence|].
        now apply (IH pre rest).
Qed.

Lemma match_braces_head (s m : string) :
  match_braces s = Some m -> exists x, m = String "{" x.
Proof.
  induction s as [|c r IH]; [discriminate|]. cbn [match_braces].
  destruct (Ascii.eqb_spec c "{") as [->|_]; [|exact IH].
  destruct (upto_last_brace r) as [m'|]; [|exact IH].
  intros [= <-]. now exists m'.
Qed.

Lemma parse_value_brace (n : nat) (x : string) (d : json) (rest : string) :
  Json.parse_value (S n) (String "{" x) = Some (d, rest) -> exists members, d = JObj members.
Proof.
  cbn [Json.parse_value Json.skip_ws].
  change (Json.is_json_ws "{") with false. cbv iota.
  change (Ascii.eqb "{" "{") with true. cbv iota.
  destruct (Json.skip_ws x) as [|c r].
  - destruct (Json.parse_members n "") as [[ms rest']|]; [|discriminate].
    intros [= <- _]. now exists ms.
  - destruct c as [[] [] [] [] [] [] [] []];
      try (destruct (Json.parse_members n _) as [[ms rest']|]; [|discriminate];
           intros [= <- _]; now exists ms).
    intros [= <- _]. now exists [].
Qed.

(** X12: when the response holds a brace span, an insight is only ever built
    from a JSON object: the text parsed is the span, and what [JSON.parse]
    makes of it is an object. *)
Theorem insight_built_from_object (rawJson m : string) (test : Test) (ins : Insight) :
  match_braces rawJson = Some m ->
  validateAndSanitize rawJson test = Ok ins ->
  exists members, Json.parse m = Some (JObj members).
Proof.
  intros Hm Hv. destruct (ValidatorFacts.validate_inv _ _ _ Hv) as (data & Hp & _).
  unfold jsonStr in Hp. rewrite Hm in Hp.
  destruct (match_braces_head _ _ Hm) as [x ->].
  rewrite Hp. unfold Json.parse in Hp.
  replace (2 * String.length (String "{" x) + 2)%nat
    with (S (2 * String.length (String "{" x) + 1))%nat in Hp by lia.
  destruct (Json.parse_value _ _) as [[v rest]|] eqn:Hpv; [|discriminate].
  destruct (parse_value_brace _ _ _ _ Hpv) as [members ->].
  destruct (String.eqb (Json.skip_ws rest) ""); [|discriminate].
  injection Hp as <-. now exists members.
Qed.

Lemma insight_built_from_object_witness :
  exists members,
    Json.parse (text_of "{'summary': 'Login  redirect broke', 'severity': 'HIGH', 'confidence': 1.5}")
    = Some (JObj members).
Proof.
  apply (insight_built_from_object wrapped_response _ auth_test wrapped_insight);
    vm_compute; reflexivity.
Defined.

End TagFacts.

(** ** Cleaned text *)

Module CleanFacts.

Import Str Enrich CleanSpec.

Lemma spaced_collapse (b : bool) (s : string) :
  spaced b (collapse_spaces b s) = true.
Proof.
  revert b. induction s as [|c r IH]; intros b; [reflexivity|].
  cbn [collapse_spaces]. destruct (is_space c) eqn:Hc.
  - destruct b; [apply IH|]. cbn [spaced].
    change (is_space " ") with true. cbv iota. now rewrite (IH true).
  - cbn [spaced]. rewrite Hc. apply IH.
Qed.

Lemma spaced_weaken (p : bool) (s : string) :
  spaced p s = true -> spaced false s = true.
Proof.
  destruct s as [|c r]; [reflexivity|]. cbn [spaced].
  destruct (is_space c); [|trivial]. intros H.
  apply andb_true_iff in H as [H Hr]. apply andb_true_iff in H as [Hc _].
  now rewrite Hc, Hr.
Qed.

Lemma spaced_drop (p : bool) (s : string) :
  spaced p s = true -> spaced false (drop_spaces s) = true.
Proof.
  revert p. induction s as [|c r IH]; intros p; [reflexivity|].
  cbn [drop_spaces]. destruct (is_space c) eqn:Hc.
  - cbn [spaced]. rewrite Hc. intros H. apply andb_true_iff in H as [_ Hr]. now apply (IH true).
  - apply spaced_weaken.
Qed.

Lemma spaced_prefix (p : bool) (a b : string) :
  spaced p (a ++ b) = true -> spaced p a = true.
Proof.
  revert p. induction a as [|c a IH]; intros p; [reflexivity|].
  change (String c a ++ b) with (String c (a ++ b)). cbn [spaced].
  destruct (is_space c).
  - intros H. apply andb_true_iff in H as [H Hr]. rewrite H. now apply IH.
  - apply IH.
Qed.

Lemma drop_spaces_split (s : string) :
  exists w, s = w ++ drop_spaces s.
Proof.
  induction s as [|c r [w IH]]; [now exists ""|]. cbn [drop_spaces].
  destruct (is_space c).
  - exists (String c w). change (String c r = String c (w ++ drop_spaces r)). now rewrite <- IH.
  - now exists "".
Qed.

Lemma starts_drop (s : string) : starts_space (drop_spaces s) = false.
Proof.
  induction s as [|c r IH]; [reflexivity|]. cbn [drop_spaces].
  destruct (is_space c) eqn:Hc; [exact IH | exact Hc].
Qed.

Lemma starts_prefix (a b : string) :
  starts_space (a ++ b) = false -> starts_space a = false.
Proof.
  destruct a; [reflexivity | trivial].
Qed.

(** [trim] keeps a prefix of the text without its leading white space. *)
Lemma trim_prefix (x : string) :
  exists w, drop_spaces x = trim x ++ w.
Proof.
  unfold trim. set (z := drop_spaces x).
  destruct (drop_spaces_split (rev_string z "")) as [w Hw].
  exists (rev_string w "").
  rewrite <- (SanitizeFacts.rev_string_involutive z) at 1.
  rewrite Hw at 1. apply SanitizeFacts.rev_string_app.
Qed.

Lemma replace_newlines_fixed (p : bool) (s : string) :
  spaced p s = true -> replace_newlines s = s.
Proof.
  revert p. induction s as [|c r IH]; intros p; [reflexivity|].
  cbn [spaced replace_newlines]. destruct (is_space c) eqn:Hc.
  - intros H. apply andb_true_iff in H as [H Hr]. apply andb_true_iff in H as [Hsp _].
    apply Ascii.eqb_eq in Hsp. subst c.
    change (Ascii.eqb " " LF) with false. cbv iota. now rewrite (IH true).
  - intros Hr. destruct (Ascii.eqb_spec c LF) as [->|_]; [discriminate Hc|].
    now rewrite (IH false).
Qed.

Lemma collapse_fixed (b : bool) (s : string) :
  spaced b s = true -> collapse_spaces b s = s.
Proof.
  revert b. induction s as [|c r IH]; intros b; [reflexivity|].
  cbn [spaced collapse_spaces]. destruct (is_space c).
  - intros H. apply andb_true_iff in H as [H Hr]. apply andb_true_iff in H as [Hsp Hb].
    apply Ascii.eqb_eq in Hsp. apply negb_true_iff in Hb. subst c b.
    now rewrite (IH true).
  - intros Hr. now rewrite (IH false).
Qed.

Lemma drop_spaces_fixed (s : string) :
  starts_space s = false -> drop_spaces s = s.
Proof.
  destruct s as [|c r]; [reflexivity|]. cbn [starts_space drop_spaces]. now intros ->.
Qed.

Lemma trim_fixed (s : string) :
  starts_space s = false -> ends_space s = false -> trim s = s.
Proof.
  unfold ends_space, trim. intros Hs He.
  rewrite (drop_spaces_fixed s Hs), (drop_spaces_fixed _ He).
  apply SanitizeFacts.rev_string_involutive.
Qed.

(** X13: the text that [cleanText] returns is in normal form: its only
    white space is single spaces between words (no line break, no tab, no
    run of spaces), it neither starts nor ends with white space, and
    cleaning it again changes nothing. *)
Theorem clean_normal_form (s : string) :
  spaced false (clean s) = true /\
  starts_space (clean s) = false /\
  ends_space (clean s) = false /\
  clean (clean s) = clean s.
Proof.
  assert (Hspaced : spaced false (clean s) = true).
  { unfold clean. destruct (trim_prefix (collapse_spaces false (replace_newlines s))) as [w Hw].
    apply (spaced_prefix false _ w). rewrite <- Hw.
    apply (spaced_drop false), spaced_collapse. }
  assert (Hstart : starts_space (clean s) = false).
  { unfold clean. destruct (trim_prefix (collapse_spaces false (replace_newlines s))) as [w Hw].
    apply (starts_prefix _ w). rewrite <- Hw. apply starts_drop. }
  assert (Hend : ends_space (clean s) = false).
  { unfold clean, ends_space, trim.
    rewrite SanitizeFacts.rev_string_involutive. apply starts_drop. }
  split; [assumption|]. split; [assumption|]. split; [assumption|].
  unfold clean at 1.
  rewrite (replace_newlines_fixed false _ Hspaced), (collapse_fixed false _ Hspaced).
  now apply trim_fixed.
Qed.

End CleanFacts.

(** ** The merge, beyond the sums *)

Module MergeMoreFacts.

Import Merge MergeSpec Examples MoreExamples.
Local Open Scope list_scope.
Local Open Scope Z_scope.

Lemma add_totals_nil (s : Stats) : add_totals s [] = s.
Proof.
  destruct s. unfold add_totals, total. simpl. now rewrite !Z.add_0_r.
Qed.

Lemma total_cons (field : FragmentStats -> option Z) (st : FragmentStats)
    (res : option (list json)) (mt : Json.value) (rest : list (option Fragment)) :
  total field (Some {| f_stats := Some st; f_results := res; f_meta := mt |} :: rest)
  = or_zero (field st) + total field rest.
Proof. reflexivity. Qed.

Lemma last_default {A} (x : A) (l : list A) (d d' : A) :
  List.last (x :: l) d = List.last (x :: l) d'.
Proof.
  revert x. induction l as [|y l IH]; intros x; [reflexivity|].
  change (List.last (y :: l) d = List.last (y :: l) d'). apply IH.
Qed.

Lemma last_map_cons {A B} (g : A -> B) (x : A) (l : list A) (d : B) :
  List.last (g x :: map g l) d = g (List.last l x).
Proof.
  revert x. induction l as [|y l IH]; intros x; [reflexivity|].
  change (List.last (g y :: map g l) d = g (List.last (y :: l) x)).
  rewrite IH. f_equal. destruct l as [|z l]; [reflexivity|].
  change (List.last (y :: z :: l) x) with (List.last (z :: l) x).
  apply last_default.
Qed.

(** The whole of the merged report, for files that are all well formed. *)
Lemma mergeAll_full (files : list (option Fragment)) (master : Master) :
  forallb well_formed files = true ->
  exists m, mergeAll master files = Ok m /\
    stats m = add_totals (stats master) files /\
    results m = results master ++ all_entries files /\
    meta m = List.last (map meta_of files) (meta master).
Proof.
  revert master. induction files as [|file rest IH]; intros master Hwf.
  - exists master. split; [reflexivity|]. rewrite add_totals_nil.
    split; [reflexivity|]. split; [|reflexivity].
    unfold all_entries. simpl. now rewrite app_nil_r.
  - simpl in Hwf. apply andb_true_iff in Hwf as [Hfile Hrest].
    destruct file as [[[st|] res mt]|]; try discriminate.
    cbn [mergeAll mergeOne f_stats].
    match goal with
    | |- context [mergeAll ?m1 rest] => destruct (IH m1 Hrest) as (m & -> & Hs & Hr & Hm)
    end.
    exists m. split; [reflexivity|]. split; [|split].
    + rewrite Hs. unfold add_totals. cbn [stats suites tests passes pending failures
        start end_ duration testsRegistered passPercent pendingPercent other hasOther
        skipped hasSkipped]. rewrite !total_cons. f_equal; lia.
    + rewrite Hr. cbn [results f_results]. unfold all_entries. cbn [flat_map entries_of].
      destruct res as [l|]; [now rewrite <- app_assoc | reflexivity].
    + rewrite Hm. cbn [meta f_meta map meta_of].
      destruct rest as [|o rest]; [reflexivity|].
      cbn [map]. rewrite (last_default _ _ mt (meta master)). reflexivity.
Qed.

Lemma mergeAll_throws (files : list (option Fragment)) (master : Master) :
  forallb well_formed files = false -> exists e, mergeAll master files = Throw e.
Proof.
  revert master. induction files as [|file rest IH]; intros master Hwf; [discriminate|].
  simpl in Hwf. cbn [mergeAll].
  destruct file as [[[st|] res mt]|]; try (eexists; reflexivity).
  cbn [mergeOne f_stats]. simpl in Hwf. now apply IH.
Qed.

Lemma getResults_merged (started ended : string) (file : option Fragment)
    (rest : list (option Fragment)) (atResults atBaseResults : option (option Fragment))
    (m : Master) :
  getResults started ended (file :: rest) atResults atBaseResults = Ok (Merged m) ->
  forallb well_formed (file :: rest) = true /\
  exists m0, mergeAll (initial started ended) (file :: rest) = Ok m0 /\ m = recalculate m0.
Proof.
  unfold getResults. intros H.
  destruct (forallb well_formed (file :: rest)) eqn:Hwf.
  - split; [reflexivity|].
    destruct (mergeAll (initial started ended) (file :: rest)) as [m0|e]; [|discriminate].
    injection H as <-. now exists m0.
  - destruct (mergeAll_throws _ (initial started ended) Hwf) as [e He]. rewrite He in H. discriminate.
Qed.

(** X15: for parts whose [results] is an array or missing, the merged
    report lists the result entries of the parts in the order of the
    listing, a part without [results] contributing none; its [meta] is that
    of the last part, and its [start] and [end] are the two readings of the
    clock taken at the call, not times of the parts. *)
Theorem merge_entries_in_order (started ended : string) (file : option Fragment)
    (rest : list (option Fragment)) (atResults atBaseResults : option (option Fragment))
    (m : Master) :
  getResults started ended (file :: rest) atResults atBaseResults = Ok (Merged m) ->
  results m = all_entries (file :: rest) /\
  meta m = meta_of (List.last rest file) /\
  start (stats m) = started /\ end_ (stats m) = ended.
Proof.
  intros H. destruct (getResults_merged _ _ _ _ _ _ _ H) as (Hwf & m0 & Hm0 & ->).
  destruct (mergeAll_full _ (initial started ended) Hwf) as (m1 & Hm1 & Hs & Hr & Hmeta).
  rewrite Hm0 in Hm1. injection Hm1 as <-.
  assert (Hrec : results (recalculate m0) = results m0 /\ meta (recalculate m0) = meta m0 /\
                 start (stats (recalculate m0)) = start (stats m0) /\
                 end_ (stats (recalculate m0)) = end_ (stats m0)).
  { unfold recalculate. destruct (0 <? testsRegistered (stats m0)); auto. }
  destruct Hrec as (-> & -> & -> & ->). rewrite Hr, Hmeta, Hs.
  split; [reflexivity|]. split; [|split; reflexivity].
  cbn [map]. apply last_map_cons.
Qed.

Lemma merge_entries_in_order_witness :
  exists m, getResults noon just_after_noon entry_fragments None None = Ok (Merged m) /\
    results m = [JStr "login"; JStr "logout"; JStr "cart"] /\
    meta m = Some (JStr "last") /\
    start (stats m) = noon /\ end_ (stats m) = just_after_noon.
Proof.
  eexists. split; [reflexivity|].
  apply (merge_entries_in_order noon just_after_noon login_part [bare_part; cart_part]
           None None _ eq_refl).
Defined.

Lemma total_permutation (field : FragmentStats -> option Z)
    (files files' : list (option Fragment)) :
  files ≡ₚ files' -> total field files = total field files'.
Proof.
  unfold total. induction 1; simpl; lia.
Qed.

Lemma well_formed_permutation (files files' : list (option Fragment)) :
  files ≡ₚ files' -> forallb well_formed files = forallb well_formed files'.
Proof.
  induction 1; simpl; try congruence.
  now rewrite !andb_assoc, (andb_comm (well_formed y)).
Qed.

Lemma add_totals_permutation (s : Stats) (files files' : list (option Fragment)) :
  files ≡ₚ files' -> add_totals s files = add_totals s files'.
Proof.
  intros H. unfold add_totals.
  now rewrite !(total_permutation _ _ _ H).
Qed.

Lemma exact_sums_permutation (files files' : list (option Fragment)) :
  files ≡ₚ files' -> exact_sums files = exact_sums files'.
Proof.
  intros H. unfold exact_sums, totals.
  rewrite !(total_permutation _ _ _ H). f_equal.
  induction H; simpl; try congruence.
  now rewrite !andb_assoc, (andb_comm (forallb (Z.leb 0) (counters_of y))).
Qed.

(** X16: the merged statistics do not depend on the order in which the glob
    lists the parts.  For parts whose counters are non-negative integers
    with sums of at most 2^53, so that the additions of the code are exact
    in every order, a permuted listing merges as well and gives the same
    eight counters and the same two percentages, whatever the clock says at
    the two calls. *)
Theorem merge_stats_order_independent (started ended started' ended' : string)
    (files files' : list (option Fragment))
    (atResults atBaseResults : option (option Fragment)) (m : Master) :
  files ≡ₚ files' ->
  exact_sums files = true ->
  getResults started ended files atResults atBaseResults = Ok (Merged m) ->
  exists m', getResults started' ended' files' atResults atBaseResults = Ok (Merged m') /\
    exact_sums files' = true /\
    counters (stats m') = counters (stats m) /\
    passPercent (stats m') = passPercent (stats m) /\
    pendingPercent (stats m') = pendingPercent (stats m).
Proof.
  intros Hperm Hexact H.
  destruct files as [|file rest].
  { apply Permutation_nil_l in Hperm. subst files'.
    unfold getResults in H. destruct atResults as [[?|]|], atBaseResults as [[?|]|];
      discriminate. }
  destruct files' as [|file' rest'].
  { apply Permutation_nil_r in Hperm. discriminate. }
  destruct (getResults_merged _ _ _ _ _ _ _ H) as (Hwf & m0 & Hm0 & ->).
  destruct (mergeAll_full _ (initial started ended) Hwf) as (m1 & Hm1 & Hs & _).
  rewrite Hm0 in Hm1. injection Hm1 as <-.
  rewrite (well_formed_permutation _ _ Hperm) in Hwf.
  destruct (mergeAll_full _ (initial started' ended') Hwf) as (m2 & Hm2 & Hs2 & _).
  exists (recalculate m2). split; [unfold getResults; now rewrite Hm2|].
  split; [now rewrite <- (exact_sums_permutation _ _ Hperm)|].
  rewrite <- (add_totals_permutation _ _ _ Hperm) in Hs2.
  unfold recalculate. rewrite Hs, Hs2.
  cbn [add_totals initial stats testsRegistered].
  destruct (0 <? 0 + total f_testsRegistered (file :: rest)); cbn [stats];
    repeat split; now rewrite ?Hs, ?Hs2.
Qed.

Lemma merge_stats_order_independent_witness :
  exists m', getResults just_after_noon just_after_noon (rev entry_fragments) None None
             = Ok (Merged m') /\
    tests (stats m') = 3 /\ passes (stats m') = 2 /\
    (passPercent (stats m') == 200 # 3)%Q.
Proof.
  destruct (merge_stats_order_independent noon just_after_noon just_after_noon just_after_noon
              entry_fragments (rev entry_fragments) None None
              match getResults noon just_after_noon entry_fragments None None with
              | Ok (Merged m) => m
              | _ => initial noon noon
              end)
    as (m' & Hm' & _ & Hc & Hp & _).
  - apply Permutation_rev.
  - vm_compute; reflexivity.
  - vm_compute; reflexivity.
  - exists m'. split; [exact Hm'|].
    unfold counters in Hc. injection Hc as _ Ht Hpa _ _ _ _ _.
    rewrite Ht, Hpa, Hp. repeat split.
Defined.

Lemma percent_bounds (p t : Z) :
  0 <= p <= t -> 0 < t -> (0 <= inject_Z p / inject_Z t * 100 <= 100)%Q.
Proof.
  intros Hp Ht. destruct t as [|t|t]; try lia.
  unfold Qle, Qdiv, Qmult, Qinv, inject_Z. simpl. split; nia.
Qed.

(** X17: in a merged report, when the summed [passes] and [pending] each lie
    between 0 and the summed [testsRegistered], both recomputed percentages
    lie between 0 and 100. *)
Theorem merge_percent_bounds (started ended : string) (files : list (option Fragment))
    (atResults atBaseResults : option (option Fragment)) (m : Master) :
  getResults started ended files atResults atBaseResults = Ok (Merged m) ->
  0 <= passes (stats m) <= testsRegistered (stats m) ->
  0 <= pending (stats m) <= testsRegistered (stats m) ->
  (0 <= passPercent (stats m) <= 100)%Q /\
  (0 <= pendingPercent (stats m) <= 100)%Q.
Proof.
  intros H. destruct files as [|file rest].
  { unfold getResults in H. destruct atResults as [[?|]|], atBaseResults as [[?|]|];
      discriminate. }
  destruct (getResults_merged _ _ _ _ _ _ _ H) as (Hwf & m0 & Hm0 & ->).
  destruct (mergeAll_full _ (initial started ended) Hwf) as (m1 & Hm1 & Hs & _).
  rewrite Hm0 in Hm1. injection Hm1 as <-.
  assert (Hp0 : passPercent (stats m0) = 0%Q /\ pendingPercent (stats m0) = 0%Q)
    by (rewrite Hs; split; reflexivity).
  destruct Hp0 as [Hp0 Hq0].
  unfold recalculate. destruct (0 <? testsRegistered (stats m0)) eqn:Hpos.
  - apply Z.ltb_lt in Hpos.
    cbn [stats passes pending testsRegistered passPercent pendingPercent].
    intros Hpa Hpe. split; now apply percent_bounds.
  - intros _ _. rewrite Hp0, Hq0. split; split; discriminate.
Qed.

Lemma merge_percent_bounds_witness :
  exists m, getResults noon just_after_noon registered_fragments None None = Ok (Merged m) /\
    (0 <= passPercent (stats m) <= 100)%Q /\
    (0 <= pendingPercent (stats m) <= 100)%Q.
Proof.
  eexists. split; [reflexivity|].
  apply (merge_percent_bounds noon just_after_noon registered_fragments None None _ eq_refl);
    vm_compute; split; discriminate.
Defined.

End MergeMoreFacts.

(** ** The rename step, file by file *)

Module RenameMoreFacts.

Import Str Rename RenameSpec Examples MoreExamples.

Lemma sanitized_char (c : ascii) :
  name_char (if is_lower c || is_upper c || is_digit c then lower_char c else "_"%char)
  = true.
Proof. destruct c as [[] [] [] [] [] [] [] []]; reflexivity. Qed.

Lemma name_char_kept (c : ascii) :
  name_char c = true ->
  (if is_lower c || is_upper c || is_digit c then lower_char c else "_"%char) = c.
Proof. destruct c as [[] [] [] [] [] [] [] []]; (reflexivity || discriminate). Qed.

Lemma name_char_no_slash (c : ascii) : name_char c = true -> Ascii.eqb c "/" = false.
Proof. destruct c as [[] [] [] [] [] [] [] []]; (reflexivity || discriminate). Qed.

Lemma sanitizeName_chars (s : string) : all_chars name_char (sanitizeName s) = true.
Proof.
  induction s as [|c r IH]; [reflexivity|].
  cbn [sanitizeName all_chars]. now rewrite sanitized_char, IH.
Qed.

Lemma sanitizeName_fixed (s : string) :
  all_chars name_char s = true -> sanitizeName s = s.
Proof.
  induction s as [|c r IH]; [reflexivity|]. cbn [sanitizeName all_chars].
  intros H. apply andb_true_iff in H as [Hc Hr]. now rewrite (name_char_kept c Hc), (IH Hr).
Qed.

Lemma name_chars_no_slash (s : string) :
  all_chars name_char s = true -> occurs "/" s = false.
Proof.
  induction s as [|c r IH]; [reflexivity|]. cbn [occurs all_chars].
  intros H. apply andb_true_iff in H as [Hc Hr].
  now rewrite (name_char_no_slash c Hc), (IH Hr).
Qed.

Lemma specName_sanitized (text name : string) :
  specName text = Some name -> exists s, name = sanitizeName s.
Proof.
  unfold specName.
  repeat match goal with
         | |- context [match ?x with _ => _ end] => destruct x
         end;
    intros H; try discriminate; injection H as <-; eexists; reflexivity.
Qed.

(** X18: the destination derived for a report file is a name made of
    lower-case letters, digits and underscores followed by
    [_results.json]; it holds no slash, so a rename never leaves the reports
    folder, and sanitising the name again changes nothing. *)
Theorem derived_name_shape (text d : string) :
  newPath text = Some d ->
  exists name, d = name ++ "_results.json" /\
    all_chars name_char name = true /\
    sanitizeName name = name /\
    occurs "/" d = false.
Proof.
  unfold newPath. destruct (specName text) as [name|] eqn:Hs; [|discriminate].
  intros [= <-]. destruct (specName_sanitized _ _ Hs) as [s ->].
  exists (sanitizeName s). split; [reflexivity|].
  pose proof (sanitizeName_chars s) as Hc.
  split; [assumption|]. split; [now apply sanitizeName_fixed|].
  rewrite TagFacts.occurs_app, (name_chars_no_slash _ Hc). reflexivity.
Qed.

Lemma derived_name_shape_witness :
  exists name, "login_page_results.json" = name ++ "_results.json" /\
    all_chars name_char name = true /\
    sanitizeName name = name /\
    occurs "/" "login_page_results.json" = false.
Proof.
  apply (derived_name_shape (text_of "{'results':[{'fullFile':'/a/b/Login Page.js'}]}")).
  vm_compute; reflexivity.
Defined.

(** X19: a file that the step would not move - its name is not generic, or
    its text gives no destination, or it already sits at its destination -
    is still there with the same text after the step, whatever the
    listing. *)
Theorem settled_file_stays (rawFiles : list string) (dir : gmap string string)
    (f text : string) :
  dir !! f = Some text ->
  movable f text = false ->
  renameStep rawFiles dir !! f = Some text.
Proof.
  revert dir. induction rawFiles as [|g rest IH]; intros dir Hf Hm; [assumption|].
  unfold renameStep in *. cbn [fold_left]. apply IH; [|assumption].
  destruct (RenameFacts.renameFile_spec g dir)
    as [(tg & d & Hmg & Hg & Hd & Hne & Hfree & ->)|[_ ->]]; [|assumption].
  rewrite (RenameFacts.moved_lookup _ _ _ _ _ Hne).
  destruct (decide (f = d)) as [->|_]; [congruence|].
  destruct (decide (f = g)) as [->|_]; [congruence | assumption].
Qed.

Lemma settled_file_stays_witness :
  renameStep settled_listing settled_folder !! "results_bad.json"
  = Some "<html>502 Bad Gateway</html>".
Proof.
  apply (settled_file_stays settled_listing settled_folder); vm_compute; reflexivity.
Defined.

Lemma placed_step (dir0 dir : gmap string string) (g : string) :
  (forall n text, dir !! n = Some text -> placed dir0 n text) ->
  forall n text, renameFile g dir !! n = Some text -> placed dir0 n text.
Proof.
  intros Hdir n text.
  destruct (RenameFacts.renameFile_spec g dir)
    as [(tg & d & Hmg & Hg & Hd & Hne & Hfree & ->)|[_ ->]]; [|apply Hdir].
  rewrite (RenameFacts.moved_lookup _ _ _ _ _ Hne).
  destruct (decide (n = d)) as [->|_].
  - intros [= <-]. apply RenameFacts.movable_spec in Hmg as [Hgen _].
    destruct (Hdir g tg Hg) as [H0|[Hhome _]]; [|congruence].
    right. split; [assumption|]. exists g. auto.
  - destruct (decide (n = g)); [discriminate | apply Hdir].
Qed.

(** X20: after the step, every file of the folder is either a file of the
    folder at the start, under the same name and with the same text, or a
    file that had a generic name at the start and now sits at the
    destination derived from its own text. *)
Theorem files_move_to_derived_names (rawFiles : list string) (dir : gmap string string)
    (n text : string) :
  renameStep rawFiles dir !! n = Some text ->
  dir !! n = Some text \/
  (newPath text = Some n /\
   exists f, f <> n /\ dir !! f = Some text /\ is_generic f = true).
Proof.
  assert (H : forall dir', (forall n text, dir' !! n = Some text -> placed dir n text) ->
            forall n text, renameStep rawFiles dir' !! n = Some text -> placed dir n text).
  { induction rawFiles as [|g rest IH]; intros dir' Hdir'; [exact Hdir'|].
    unfold renameStep in *. cbn [fold_left]. apply IH. now apply placed_step. }
  apply (H dir). intros n' text' Hn'. now left.
Qed.

Lemma files_move_to_derived_names_witness :
  fresh_folder !! "login_results.json"
    = Some (text_of "{'results':[{'file':'cypress/e2e/login.cy.js'}]}") \/
  (newPath (text_of "{'results':[{'file':'cypress/e2e/login.cy.js'}]}")
     = Some "login_results.json" /\
   exists f, f <> "login_results.json" /\
     fresh_folder !! f = Some (text_of "{'results':[{'file':'cypress/e2e/login.cy.js'}]}") /\
     is_generic f = true).
Proof.
  apply (files_move_to_derived_names fresh_listing fresh_folder).
  vm_compute; reflexivity.
Defined.

End RenameMoreFacts.

(** ** The batch of report files, and the run history *)

Module BatchFacts.

Import Pipeline Batch Examples.
Local Open Scope list_scope.

Section WithProvider.

Variable buildPrompt : Test -> string.
Variable chatCompletion : HfInference -> Trace -> string -> string -> option string.

Abbreviation process := (processReport buildPrompt chatCompletion).
Abbreviation batch := (processFiles buildPrompt chatCompletion).

Lemma processed_has_no_candidate hf (r : Report) (tr : Trace) :
  candidates (fst (fst (process hf r tr))) = [].
Proof.
  unfold processReport. destruct (candidates r) as [|l cands] eqn:Hc; [assumption|].
  pose proof (OrchestratorFacts.no_candidates_after_enrich buildPrompt chatCompletion
                hf (results r) (objects r) tr) as Hnone.
  fold (candidates r) in Hnone. rewrite Hc in Hnone.
  destruct (enrichCandidates _ _ hf (l :: cands) (objects r) tr) as [objects' tr'].
  exact Hnone.
Qed.

Lemma no_candidate_idle hf (r : Report) (tr : Trace) :
  candidates r = [] -> process hf r tr = (r, tr, false).
Proof. intros H. unfold processReport. now rewrite H. Qed.

Lemma batch_idle hf (files : list (option Report)) (tr : Trace) :
  Forall (fun file => match file with
                      | Some r => candidates r = []
                      | None => True
                      end) files ->
  batch hf files tr = (map (fun file => (file, false)) files, tr).
Proof.
  induction 1 as [|[r|] rest Hr _ IH]; cbn [processFiles map].
  - reflexivity.
  - now rewrite (no_candidate_idle hf r tr Hr), IH.
  - now rewrite IH.
Qed.

Lemma batch_leaves_no_candidate hf (files : list (option Report)) (tr : Trace) :
  Forall (fun file => match file with
                      | Some r => candidates r = []
                      | None => True
                      end) (map fst (fst (batch hf files tr))).
Proof.
  revert tr. induction files as [|[r|] rest IH]; intros tr; cbn [processFiles].
  - constructor.
  - pose proof (processed_has_no_candidate hf r tr) as Hnone.
    destruct (process hf r tr) as [[r1 tr1] written]. cbn [fst] in Hnone.
    specialize (IH tr1). destruct (batch hf rest tr1) as [out tr2].
    constructor; assumption.
  - specialize (IH tr). destruct (batch hf rest tr) as [out tr2].
    constructor; [exact I | assumption].
Qed.

(** X21: a second run over the report files, as the first run left them,
    writes no file and issues no request, whatever the credential; the files
    that were skipped as invalid are skipped again. *)
Theorem batch_idempotent (hf hf' : option HfInference) (files : list (option Report))
    (tr : Trace) :
  let '(out, tr1) := batch hf files tr in
  batch hf' (map fst out) tr1 = (map (fun o => (fst o, false)) out, tr1).
Proof.
  pose proof (batch_leaves_no_candidate hf files tr) as H.
  destruct (batch hf files tr) as [out tr1]. cbn [fst] in H.
  rewrite (batch_idle hf' _ tr1 H). now rewrite map_map.
Qed.

End WithProvider.

(** X22: recording a run keeps the new run as the last entry of the history
    and, before it, the last 30 runs of the old history (all of them when
    there are fewer): the history never holds more than 31 runs.  A missing
    or invalid history file counts as an empty history. *)
Theorem history_keeps_newest {A} (existing : option (list A)) (run : A) :
  let runs := match existing with
              | Some l => l
              | None => []
              end in
  exists dropped kept,
    runs = dropped ++ kept /\
    Metrics.recordRun existing run = kept ++ [run] /\
    length kept = Nat.min (length runs) 30.
Proof.
  intros runs. unfold Metrics.recordRun, Metrics.keepLast, Metrics.MAX_RUNS. fold runs.
  exists (firstn (length runs - 30) runs), (skipn (length runs - 30) runs).
  split; [now rewrite firstn_skipn|]. split.
  - rewrite length_app. cbn [length].
    replace (length runs + 1 - 31)%nat with (length runs - 30)%nat by lia.
    rewrite skipn_app.
    replace (length runs - 30 - length runs)%nat with 0%nat by lia. reflexivity.
  - rewrite length_skipn. lia.
Qed.

End BatchFacts.

(** ** The flat list of the report generator *)

Module ViewFacts.

Import Str Pipeline View Examples ViewExamples.
Local Open Scope list_scope.

Lemma Node_nested_ind (P : Node -> Prop) :
  (forall name tests suites, Forall P suites -> P (mkNode name tests suites)) ->
  forall n, P n.
Proof.
  intros step. fix IH 1. intros [name tests suites].
  apply step. induction suites as [|s rest IHrest]; constructor.
  - apply IH.
  - exact IHrest.
Qed.

Lemma pushTests_acc (ts : list RawTest) (acc : list FlatTest) :
  pushTests ts acc = match entries ts with
                     | Ok fs => Ok (acc ++ fs)
                     | Throw e => Throw e
                     end.
Proof.
  unfold entries. revert acc. induction ts as [|t rest IH]; intros acc; cbn [pushTests].
  - now rewrite app_nil_r.
  - destruct (flatTest t) as [f|e]; [|reflexivity].
    rewrite (IH (acc ++ [f])), (IH ([] ++ [f])).
    destruct (pushTests rest []) as [fs|e]; [|reflexivity].
    now rewrite <- app_assoc.
Qed.

Lemma entries_app (a b : list RawTest) :
  entries (a ++ b) = match entries a with
                     | Ok fa => match entries b with
                                | Ok fb => Ok (fa ++ fb)
                                | Throw e => Throw e
                                end
                     | Throw e => Throw e
                     end.
Proof.
  induction a as [|t a IH].
  - cbn [app]. unfold entries at 2. cbn [pushTests]. now destruct (entries b).
  - unfold entries in *. cbn [app pushTests].
    destruct (flatTest t) as [f|e]; [|reflexivity].
    rewrite !(pushTests_acc _ ([] ++ [f])). unfold entries. rewrite IH.
    destruct (pushTests a []) as [fa|e]; [|reflexivity].
    destruct (pushTests b []) as [fb|e]; [|reflexivity].
    now rewrite app_assoc.
Qed.

Lemma follows_seq (a b : list RawTest) (st : list FlatTest * list string)
    (r1 : result (list FlatTest * list string))
    (k : list FlatTest * list string -> result (list FlatTest * list string)) :
  follows a st r1 ->
  (forall st', follows b st' (k st')) ->
  follows (a ++ b) st match r1 with
                      | Ok st' => k st'
                      | Throw e => Throw e
                      end.
Proof.
  unfold follows. rewrite entries_app. intros Ha Hb.
  destruct (entries a) as [fa|e]; [|now rewrite Ha].
  destruct Ha as [names ->]. specialize (Hb (fst st ++ fa, names)).
  destruct (entries b) as [fb|e]; [|assumption].
  destruct Hb as [names' ->]. exists names'. cbn [fst]. now rewrite app_assoc.
Qed.

Lemma follows_push (ts : list RawTest) (st : list FlatTest * list string)
    (names : list string) :
  follows ts st match pushTests ts (fst st) with
                | Ok acc => Ok (acc, names)
                | Throw e => Throw e
                end.
Proof.
  unfold follows. rewrite pushTests_acc.
  destruct (entries ts) as [fs|e]; [now exists names | reflexivity].
Qed.

Lemma walk_follows (n : Node) (st : list FlatTest * list string) :
  follows (tests_under n) st (walk n st).
Proof.
  revert st. induction n as [name tests suites IH] using Node_nested_ind. intros st.
  cbn [walk tests_under].
  pose proof (follows_push tests st (addTitle name (snd st))) as Hpush.
  set (each := fix each (l : list Node) (st0 : list FlatTest * list string) :=
                 match l with
                 | [] => Ok st0
                 | s :: rest => match walk s st0 with
                                | Ok st' => each rest st'
                                | Throw e => Throw e
                                end
                 end).
  set (under := fix each (l : list Node) : list RawTest :=
                  match l with
                  | [] => []
                  | s :: rest => tests_under s ++ each rest
                  end).
  assert (Heach : forall st', follows (under suites) st' (each suites st')).
  { induction IH as [|s rest Hs _ IHrest]; intros st'.
    - unfold follows, entries. cbn. exists (snd st'). now rewrite app_nil_r, <- surjective_pairing.
    - cbn [each under]. apply (follows_seq _ _ st' (walk s st') (each rest)); auto. }
  pose proof (follows_seq tests (under suites) st _ (each suites) Hpush Heach) as H.
  destruct (pushTests tests (fst st)) as [acc|e]; exact H.
Qed.

Lemma walkEach_follows (l : list Node) (st : list FlatTest * list string) :
  follows (flat_map tests_under l) st (walkEach l st).
Proof.
  revert st. induction l as [|s rest IH]; intros st.
  - unfold follows, entries. cbn. exists (snd st). now rewrite app_nil_r, <- surjective_pairing.
  - cbn [walkEach flat_map].
    apply (follows_seq _ _ st (walk s st) (walkEach rest)); [apply walk_follows | apply IH].
Qed.

Lemma tests_under_eq (name : option string) (tests : list RawTest) (suites : list Node) :
  tests_under (mkNode name tests suites) = tests ++ flat_map tests_under suites.
Proof.
  reflexivity.
Qed.

Lemma flattenFrom_follows (results : list Node) (st : list FlatTest * list string) :
  follows (report_tests results) st (flattenFrom results st).
Proof.
  unfold report_tests. revert st.
  induction results as [|[name tests suites] rest IH]; intros st.
  - unfold follows, entries. cbn. exists (snd st). now rewrite app_nil_r, <- surjective_pairing.
  - cbn [flattenFrom flat_map]. rewrite tests_under_eq, <- app_assoc.
    pose proof (follows_push tests st (snd st)) as Hpush.
    assert (Hk : forall st', follows (flat_map tests_under suites ++ flat_map tests_under rest)
                   st' match walkEach suites st' with
                       | Ok st'' => flattenFrom rest st''
                       | Throw e => Throw e
                       end).
    { intros st'. apply (follows_seq _ _ st' (walkEach suites st') (flattenFrom rest));
        [apply walkEach_follows | apply IH]. }
    pose proof (follows_seq tests _ st _ _ Hpush Hk) as H.
    destruct (pushTests tests (fst st)) as [acc|e]; exact H.
Qed.

Lemma entries_forall2 (ts : list RawTest) (fs : list FlatTest) :
  entries ts = Ok fs -> Forall2 (fun t f => flatTest t = Ok f) ts fs.
Proof.
  revert fs. induction ts as [|t rest IH]; intros fs.
  - unfold entries. cbn. intros [= <-]. constructor.
  - change (t :: rest) with ([t] ++ rest). rewrite entries_app.
    unfold entries at 1. cbn [pushTests].
    destruct (flatTest t) as [f|e] eqn:Hf; [|discriminate]. cbn [app].
    destruct (entries rest) as [fr|e]; [|discriminate].
    intros [= <-]. constructor; [assumption | now apply IH].
Qed.

(** X23: [flattenTests] gives one entry per test of the report, in the
    order of the traversal (root tests of an entry, then its suites, depth
    first); an entry keeps the title and the [ai] record of its test, and it
    is 'failed' without [ai] exactly when the enrichment pipeline counts the
    test as a candidate. *)
Theorem flatten_entries (results : list Node) (tests : list FlatTest) (names : list string) :
  flattenTests results = Ok (tests, names) ->
  Forall2 (fun t f =>
             title (base t) = Some (flat_title f) /\
             status f = classify t /\
             flat_ai f = ai (base t) /\
             (is_candidate (base t) = true <-> status f = "failed" /\ flat_ai f = None))
          (report_tests results) tests.
Proof.
  intros H. pose proof (flattenFrom_follows results ([], [])) as Hf.
  unfold follows in Hf. fold (flattenTests results) in Hf. rewrite H in Hf.
  destruct (entries (report_tests results)) as [fs|e] eqn:He; [|discriminate].
  destruct Hf as [names' [= <- _]]. cbn [fst app].
  apply entries_forall2 in He. eapply Forall2_impl; [exact He|].
  intros t f Hf. unfold flatTest in Hf.
  destruct (title (base t)) as [name|] eqn:Ht; [|discriminate].
  injection Hf as <-. cbn [flat_title status flat_ai].
  split; [reflexivity|]. split; [reflexivity|]. split; [reflexivity|].
  unfold is_candidate, classify, state_is.
  rewrite (orb_comm (fail (base t))).
  set (failed := _ || fail (base t)). set (passed := _ || pass t).
  destruct failed, passed, (ai (base t)); cbn [andb];
    split; try discriminate; try (intros [? ?]; discriminate); auto.
Qed.

Lemma flatten_entries_witness :
  Forall2 (fun t f =>
             title (base t) = Some (flat_title f) /\
             status f = classify t /\
             flat_ai f = ai (base t) /\
             (is_candidate (base t) = true <-> status f = "failed" /\ flat_ai f = None))
          (report_tests small_report)
          match flattenTests small_report with
          | Ok (tests, _) => tests
          | Throw _ => []
          end.
Proof.
  apply (flatten_entries small_report _ ["rendering"]). vm_compute; reflexivity.
Defined.

Lemma entries_titled (ts : list RawTest) :
  if forallb titled ts
  then exists fs, entries ts = Ok fs /\ length fs = length ts
  else exists msg, entries ts = Throw (TypeError msg).
Proof.
  induction ts as [|t rest IH]; [now exists []|].
  change (entries (t :: rest)) with (entries ([t] ++ rest)). rewrite entries_app.
  change (entries [t]) with (pushTests [t] []). cbn [pushTests forallb].
  unfold flatTest.
  change (titled t) with (match title (base t) with Some _ => true | None => false end).
  destruct (title (base t)); [|eexists; reflexivity]. cbn [app andb].
  destruct (forallb titled rest); cbv iota in IH |- *.
  - destruct IH as (fs & -> & Hlen). eexists. split; [reflexivity|].
    cbn [length]. now rewrite Hlen.
  - destruct IH as (msg & ->). now exists msg.
Qed.

(** X24: on a report of the shape the reporter writes (result entries and
    suites are objects, [tests] and [suites] are arrays or missing, and the
    title of a test is a string when it has one), building the flat list
    fails as a whole exactly when some test has no title: [flattenTests]
    returns one entry per test when every test under the result entries is
    titled, and raises a [TypeError], returning no list at all, when one is
    not. *)
Theorem flatten_needs_titles (results : list Node) :
  if forallb titled (report_tests results)
  then exists tests names, flattenTests results = Ok (tests, names) /\
         length tests = length (report_tests results)
  else exists msg, flattenTests results = Throw (TypeError msg).
Proof.
  pose proof (flattenFrom_follows results ([], [])) as Hf.
  unfold follows in Hf. fold (flattenTests results) in Hf.
  pose proof (entries_titled (report_tests results)) as Ht.
  destruct (forallb titled (report_tests results)).
  - destruct Ht as (fs & He & Hlen). rewrite He in Hf. destruct Hf as [names ->].
    now exists fs, names.
  - destruct Ht as (msg & He). rewrite He in Hf. now exists msg.
Qed.

(** *** Tags in a title *)

Lemma outside_skip (gap r : string) :
  occurs "[" gap = false ->
  bracket_matches None (gap ++ r)%string = bracket_matches None r.
Proof.
  induction gap as [|c gap IH]; [reflexivity|]. cbn [occurs].
  intros H. apply orb_false_iff in H as [Hc Hgap].
  change (String c gap ++ r)%string with (String c (gap ++ r)%string).
  cbn [bracket_matches]. rewrite Hc. now apply IH.
Qed.

Lemma inside_read (tag body r : string) :
  occurs "]" tag = false ->
  bracket_matches (Some body) (tag ++ String "]" r)%string
  = if String.eqb (body ++ tag)%string ""
    then bracket_matches None r
    else String "[" ((body ++ tag) ++ "]")%string :: bracket_matches None r.
Proof.
  revert body. induction tag as [|c tag IH]; intros body.
  - intros _. cbn [append bracket_matches]. change (Ascii.eqb "]" "]") with true. cbv iota.
    now rewrite SanitizeFacts.append_empty_r.
  - cbn [occurs]. intros H. apply orb_false_iff in H as [Hc Htag].
    change (String c tag ++ String "]" r)%string with (String c (tag ++ String "]" r)%string).
    cbn [bracket_matches]. rewrite Hc, (IH _ Htag).
    now rewrite SanitizeFacts.append_assoc.
Qed.

Lemma strip_plain (s : string) :
  occurs "[" s = false -> occurs "]" s = false -> strip_brackets s = s.
Proof.
  induction s as [|c s IH]; [reflexivity|]. cbn [occurs strip_brackets].
  intros H1 H2. apply orb_false_iff in H1 as [Hc1 Hs1].
  apply orb_false_iff in H2 as [Hc2 Hs2]. now rewrite Hc1, Hc2, IH.
Qed.

Lemma strip_app (a b : string) :
  strip_brackets (a ++ b)%string = (strip_brackets a ++ strip_brackets b)%string.
Proof.
  induction a as [|c a IH]; [reflexivity|].
  change (String c a ++ b)%string with (String c (a ++ b)%string).
  cbn [strip_brackets]. rewrite IH. now destruct (Ascii.eqb c "[" || Ascii.eqb c "]").
Qed.

(** X25: tags written in brackets in a title are read back in order: for a
    title made of parts "text [tag]" where no text opens a bracket and every
    tag is non-empty and holds no bracket, followed by text that opens no
    bracket, the tags of the entry are exactly those tags. *)
Theorem tags_read_back (parts : list (string * string)) (rest : string) :
  forallb plain_part parts = true ->
  occurs "[" rest = false ->
  bracket_tags (tagged parts rest) = map snd parts.
Proof.
  intros Hparts Hrest. unfold bracket_tags.
  induction parts as [|[gap tag] more IH]; cbn [tagged map snd].
  - rewrite <- (SanitizeFacts.append_empty_r rest), (outside_skip rest "" Hrest). reflexivity.
  - cbn [forallb] in Hparts. apply andb_true_iff in Hparts as [Hpart Hmore].
    unfold plain_part in Hpart. cbn [fst snd] in Hpart.
    apply andb_true_iff in Hpart as [Hpart Hclose].
    apply andb_true_iff in Hpart as [Hpart Hopen].
    apply andb_true_iff in Hpart as [Hgap Hne].
    apply negb_true_iff in Hgap, Hne, Hopen, Hclose.
    rewrite (outside_skip gap _ Hgap). cbn [bracket_matches].
    change (Ascii.eqb "[" "[") with true. cbv iota.
    rewrite (inside_read tag "" _ Hclose).
    change ("" ++ tag)%string with tag. rewrite Hne.
    cbn [map]. rewrite (IH Hmore). f_equal.
    cbn [strip_brackets]. change (Ascii.eqb "[" "[" || Ascii.eqb "[" "]") with true. cbv iota.
    rewrite strip_app, (strip_plain tag Hopen Hclose). cbn.
    apply SanitizeFacts.append_empty_r.
Qed.

Lemma tags_read_back_witness :
  bracket_tags (tagged [("", "auth"); (" @", "smoke")] " login redirects")
  = ["auth"; "smoke"].
Proof.
  apply (tags_read_back [("", "auth"); (" @", "smoke")] " login redirects"); reflexivity.
Defined.

End ViewFacts.

(** ** The test lists of the metrics and the flat list of the report *)

Module MetricsFacts.

Import Str Pipeline View MetricsLists Examples ViewExamples.
Local Open Scope list_scope.

Lemma titles_app (p : RawTest -> bool) (a b : list RawTest) :
  titles p (a ++ b) = titles p a ++ titles p b.
Proof.
  unfold titles. now rewrite List.filter_app, map_app.
Qed.

Lemma noteTests_spec (tests : list RawTest) (acc : list (option string) * list (option string)) :
  fold_left noteTest tests acc
  = (fst acc ++ titles marked_passed tests, snd acc ++ titles marked_failed tests).
Proof.
  revert acc. induction tests as [|t rest IH]; intros acc.
  - cbn. now rewrite !app_nil_r, <- surjective_pairing.
  - cbn [fold_left]. rewrite IH. unfold noteTest, titles. cbn [fst snd List.filter].
    destruct (marked_passed t), (marked_failed t); cbn [map];
      now rewrite <- ?app_assoc.
Qed.

Lemma walkSuite_spec (n : Node) (acc : list (option string) * list (option string)) :
  walkSuite n acc
  = (fst acc ++ titles marked_passed (tests_under n),
     snd acc ++ titles marked_failed (tests_under n)).
Proof.
  revert acc. induction n as [name tests suites IH] using ViewFacts.Node_nested_ind.
  intros acc. cbn [walkSuite tests_under].
  set (each := fix each (l : list Node) (acc0 : list (option string) * list (option string)) :=
                 match l with
                 | [] => acc0
                 | s :: rest => each rest (walkSuite s acc0)
                 end).
  set (under := fix each (l : list Node) : list RawTest :=
                  match l with
                  | [] => []
                  | s :: rest => tests_under s ++ each rest
                  end).
  assert (Heach : forall acc', each suites acc'
            = (fst acc' ++ titles marked_passed (under suites),
               snd acc' ++ titles marked_failed (under suites))).
  { induction IH as [|s rest Hs _ IHrest]; intros acc'.
    - cbn. now rewrite !app_nil_r, <- surjective_pairing.
    - cbn [each under]. rewrite IHrest, Hs, !titles_app. cbn [fst snd].
      now rewrite <- !app_assoc. }
  rewrite Heach, noteTests_spec, !titles_app. cbn [fst snd].
  now rewrite <- !app_assoc.
Qed.

Lemma walkSuites_spec (results : list Node) (acc : list (option string) * list (option string)) :
  walkSuites results acc
  = (fst acc ++ titles marked_passed (report_tests results),
     snd acc ++ titles marked_failed (report_tests results)).
Proof.
  unfold report_tests. revert acc. induction results as [|s rest IH]; intros acc.
  - cbn. now rewrite !app_nil_r, <- surjective_pairing.
  - cbn [walkSuites flat_map]. rewrite IH, walkSuite_spec, !titles_app. cbn [fst snd].
    now rewrite <- !app_assoc.
Qed.

Lemma flat_entries (results : list Node) (tests : list FlatTest) (names : list string) :
  flattenTests results = Ok (tests, names) ->
  Forall2 (fun t f => flatTest t = Ok f) (report_tests results) tests.
Proof.
  intros H. pose proof (ViewFacts.flattenFrom_follows results ([], [])) as Hf.
  unfold follows in Hf. fold (flattenTests results) in Hf. rewrite H in Hf.
  destruct (entries (report_tests results)) as [fs|e] eqn:He; [|discriminate].
  destruct Hf as [names' [= <- _]]. cbn [fst app].
  now apply ViewFacts.entries_forall2.
Qed.

Lemma titles_shown (p : RawTest -> bool) (s : string) (ts : list RawTest) (fs : list FlatTest) :
  Forall2 (fun t f => flatTest t = Ok f) ts fs ->
  (forall t, p t = String.eqb (classify t) s) ->
  titles p ts = shown_as s fs.
Proof.
  intros H Hp. unfold titles, shown_as.
  induction H as [|t f ts fs Hf _ IH]; [reflexivity|].
  cbn [List.filter]. unfold flatTest in Hf.
  destruct (title (base t)) as [name|] eqn:Ht; [|discriminate].
  injection Hf as <-. cbn [status]. rewrite Hp.
  destruct (String.eqb (classify t) s); cbn [map flat_title]; now rewrite IH, ?Ht.
Qed.

Lemma filter_and_sublist {A} (p q : A -> bool) (l : list A) :
  sublist (List.filter (fun x => p x && q x) l) (List.filter q l).
Proof.
  induction l as [|x l IH]; [constructor|]. cbn [List.filter].
  destruct (p x), (q x); cbn [andb];
    [now apply sublist_skip | assumption | now apply sublist_cons | assumption].
Qed.

Lemma sublist_titles {A B} (f : A -> B) (l k : list A) :
  sublist l k -> sublist (map f l) (map f k).
Proof.
  induction 1; cbn [map]; [constructor | now apply sublist_skip | now apply sublist_cons].
Qed.

(** X26: the metrics and the report agree on the failed tests: when the
    flat list of the report can be built, [failedTests] of
    [extractFromMochawesome] is the list of the titles of its 'failed'
    entries, in the same order.  The titles of its 'passed' entries are
    among [passedTests], in order; [passedTests] also lists a test that is
    marked both passed and failed, which the report shows as failed. *)
Theorem metrics_agree_with_report (results : list Node) (tests : list FlatTest)
    (names : list string) :
  flattenTests results = Ok (tests, names) ->
  failedTests results = shown_as "failed" tests /\
  sublist (shown_as "passed" tests) (passedTests results) /\
  (forallb (fun t => negb (marked_passed t && marked_failed t)) (report_tests results) = true ->
   passedTests results = shown_as "passed" tests).
Proof.
  intros H. apply flat_entries in H.
  unfold failedTests, passedTests. rewrite walkSuites_spec. cbn [fst snd app].
  split; [|split].
  - apply (titles_shown _ _ _ _ H). intros t. unfold marked_failed, classify.
    destruct (state_is "failed" t || fail (base t)); [reflexivity|].
    now destruct (state_is "passed" t || pass t).
  - rewrite <- (titles_shown (fun t => negb (marked_failed t) && marked_passed t) _ _ _ H).
    + unfold titles. apply sublist_titles, filter_and_sublist.
    + intros t. unfold marked_failed, marked_passed, classify.
      destruct (state_is "failed" t || fail (base t)); [reflexivity|].
      now destruct (state_is "passed" t || pass t).
  - intros Hboth.
    rewrite <- (titles_shown (fun t => negb (marked_failed t) && marked_passed t) _ _ _ H).
    + unfold titles. f_equal. apply List.filter_ext_in. intros t Ht.
      rewrite forallb_forall in Hboth. specialize (Hboth t Ht).
      now destruct (marked_passed t), (marked_failed t).
    + intros t. unfold marked_failed, marked_passed, classify.
      destruct (state_is "failed" t || fail (base t)); [reflexivity|].
      now destruct (state_is "passed" t || pass t).
Qed.

Lemma metrics_agree_with_report_witness :
  failedTests mixed_report
  = [Some "[smoke] retries the upload"; Some "renders the page"] /\
  sublist [Some "opens the dashboard"] (passedTests mixed_report).
Proof.
  pose proof (metrics_agree_with_report mixed_report
                (match flattenTests mixed_report with
                 | Ok (tests, _) => tests
                 | Throw _ => []
                 end) ["retries"]) as H.
  destruct H as [Hfailed [Hpassed _]]; [vm_compute; reflexivity|].
  split; [exact Hfailed | exact Hpassed].
Defined.

End MetricsFacts.
